(** * The view-compilation core of the template compiler

    A shallow embedding of [view_compiler/view_builder.ts],
    [view_compiler/compile_view.ts] and [view_compiler/compile_query.ts],
    with the properties of the builder, the view model and the query tracker
    proved over it.

    Conventions of the embedding:
    - a JavaScript object used as a string-keyed map is the association list
      of its own properties in insertion order ([JsObject]); what a plain
      object inherits from [Object.prototype] is in [plain_get] and
      [plain_set];
    - a value that may be [null] or [undefined] is an [option];
    - a [TypeError] on reading a property of [null] is the result [None];
    - objects with identity (views, elements) carry the address they were
      allocated at, and their mutable fields live in an explicit store. *)

From Stdlib Require Import List String Ascii Arith Lia Bool.
From Stdlib Require Import Permutation Sorted OrderedTypeEx DecimalString.
Import ListNotations.
Local Open Scope string_scope.
Local Open Scope list_scope.

(** ** Strings of the generated code *)

(** The text of a number inside a template literal: [`${n}`]. *)
Definition string_of_nat (n : nat) : string :=
  NilEmpty.string_of_uint (Nat.to_uint n).

Notation "a +++ b" := (String.append a b)
  (at level 60, right associativity).

(** ** JavaScript objects used as maps *)

Section JsObject.
Variable V : Type.

Definition JsObject := list (string * V).

(** The own property [k] of [o]: [o[k]] at an own key, [m.get(k)] of a
    [Map]. *)
Fixpoint obj_get (o : JsObject) (k : string) : option V :=
  match o with
  | [] => None
  | (k', v) :: rest => if String.eqb k' k then Some v else obj_get rest k
  end.

(** The own property [k] of [o] set to [v] ([m.set(k, v)] of a [Map]): an
    existing key keeps its place, a new key goes last. *)
Fixpoint obj_set (o : JsObject) (k : string) (v : V) : JsObject :=
  match o with
  | [] => [(k, v)]
  | (k', v') :: rest =>
      if String.eqb k' k then (k, v) :: rest
      else (k', v') :: obj_set rest k v
  end.

(** [Object.keys(o)]: the own keys, here in the order of insertion. An
    engine lists the keys that read as array indices first; the section on
    the order of the keys shows that the attribute merge, which sorts its
    result, does not depend on the order. *)
Definition Object_keys (o : JsObject) : list string := map fst o.

(** An object never holds a key twice. *)
Definition obj_wf (o : JsObject) : Prop := NoDup (Object_keys o).
End JsObject.

Arguments obj_get {V} o k.
Arguments obj_set {V} o k v.
Arguments Object_keys {V} o.
Arguments obj_wf {V} o.

(** [isPresent(x)] of [facade/lang]: neither [null] nor [undefined]. *)
Definition isPresent {A : Type} (x : option A) : bool :=
  match x with Some _ => true | None => false end.

(** ** Plain objects

    An object created as [{}] has [Object.prototype] behind its own
    properties. Reading a name that is no own property gives what the
    prototype holds under that name. Writing a name that is no own property
    creates one, except for [__proto__]: the prototype holds it as an
    accessor, and its setter does nothing when it is given a string. *)

Definition PROTO : string := "__proto__".

(** The property names of [Object.prototype]. *)
Definition Object_prototype : list string :=
  ["constructor"; "__defineGetter__"; "__defineSetter__"; "hasOwnProperty";
   "__lookupGetter__"; "__lookupSetter__"; "isPrototypeOf"; "propertyIsEnumerable";
   "toString"; "valueOf"; PROTO; "toLocaleString"].

(** What [o[k]] evaluates to on a plain object whose own properties hold
    strings: the own value, what the prototype holds under [k] (a function,
    or the prototype itself for [__proto__]), or [undefined]. *)
Inductive PropertyValue :=
| OwnValue (v : string)
| Inherited (k : string)
| Undefined.

(** [o[k]] *)
Definition plain_get (o : JsObject string) (k : string) : PropertyValue :=
  match obj_get o k with
  | Some v => OwnValue v
  | None => if existsb (String.eqb k) Object_prototype then Inherited k else Undefined
  end.

(** [o[k] = v] for a string [v] *)
Definition plain_set (o : JsObject string) (k v : string) : JsObject string :=
  if String.eqb k PROTO && negb (isPresent (obj_get o k)) then o else obj_set o k v.

(** [isPresent(x)] on a value read from a plain object. *)
Definition isPresentValue (x : PropertyValue) : bool :=
  match x with Undefined => false | _ => true end.

(** The text of a value inside a template literal: [`${x}`]. The text of a
    function of the prototype is the engine's own. *)
Definition textOf (x : PropertyValue) : string :=
  match x with
  | OwnValue v => v
  | Inherited k =>
      if String.eqb k PROTO then "[object Object]"
      else "function " +++ k +++ "() { [native code] }"
  | Undefined => "undefined"
  end.

(** ** Compile-time metadata ([compile_metadata.ts], as far as it is read) *)

Inductive ViewEncapsulation := Emulated | Native | NoEncapsulation.
Inductive ChangeDetectionStrategy := OnPush | Default.
Inductive ViewType := HOST | COMPONENT | EMBEDDED.
Inductive ChangeDetectorStatus := CheckOnce | CheckAlways.

Definition ViewType_eqb (a b : ViewType) : bool :=
  match a, b with
  | HOST, HOST | COMPONENT, COMPONENT | EMBEDDED, EMBEDDED => true
  | _, _ => false
  end.

Definition ViewEncapsulation_eqb (a b : ViewEncapsulation) : bool :=
  match a, b with
  | Emulated, Emulated | Native, Native | NoEncapsulation, NoEncapsulation => true
  | _, _ => false
  end.

Record CompileIdentifierMetadata := {
  id_name : string;
  id_moduleUrl : option string
}.

Record CompileTokenMetadata := {
  token_name : string;
  token_reference : string
}.

(** [selectors] is never empty: [selector0] is [selectors[0]]. *)
Record CompileQueryMetadata := {
  selector0 : CompileTokenMetadata;
  selectors_rest : list CompileTokenMetadata;
  first : bool;
  propertyName : string
}.

Definition selectors (q : CompileQueryMetadata) : list CompileTokenMetadata :=
  selector0 q :: selectors_rest q.

Record CompileDiDependencyMetadata := {
  dep_viewQuery : option CompileQueryMetadata
}.

Record CompileTypeMetadata := {
  type_name : string;
  type_moduleUrl : string;
  isHost : bool;
  diDeps : list CompileDiDependencyMetadata
}.

Record CompileTemplateMetadata := {
  encapsulation : ViewEncapsulation;
  templateUrl : string;
  ngContentSelectors : list string
}.

Record CompileDirectiveMetadata := {
  dir_type : CompileTypeMetadata;
  isComponent : bool;
  changeDetection : ChangeDetectionStrategy;
  hostAttributes : JsObject string;
  dir_viewQueries : list CompileQueryMetadata;
  entryComponents : list CompileIdentifierMetadata;
  template : CompileTemplateMetadata
}.

Definition type_identifier (t : CompileTypeMetadata) : CompileIdentifierMetadata :=
  {| id_name := type_name t; id_moduleUrl := Some (type_moduleUrl t) |}.

Record RenderTypes := {
  renderText : CompileIdentifierMetadata;
  renderElement : CompileIdentifierMetadata;
  renderComment : CompileIdentifierMetadata;
  renderNode : CompileIdentifierMetadata
}.

Record CompilerConfig := {
  renderTypes : RenderTypes;
  genDebugInfo : bool
}.

(** ** The template AST ([template_ast.ts], as far as it is read) *)

Record AttrAst := { attr_name : string; attr_value : string }.
Record VariableAst := { var_name : string; var_value : string }.
Record ReferenceAst := { ref_name : string; ref_value : option CompileTokenMetadata }.
Record BoundElementPropertyAst := { prop_name : string; prop_source : string }.
Record BoundEventAst := { event_name : string; event_handler : string }.
Record DirectiveAst := { directive : CompileDirectiveMetadata }.
Record ProviderAst := { provider_token : CompileTokenMetadata }.

#[warnings="-register-all"]
Inductive TemplateAst :=
| TextAst (value : string) (ngContentIndex : option nat)
| BoundTextAst (source : string) (ngContentIndex : option nat)
| ElementAst (name : string) (attrs : list AttrAst)
    (inputs : list BoundElementPropertyAst) (outputs : list BoundEventAst)
    (references : list ReferenceAst) (directives : list DirectiveAst)
    (providers : list ProviderAst) (hasViewContainer : bool)
    (children : list TemplateAst) (ngContentIndex : option nat)
| EmbeddedTemplateAst (attrs : list AttrAst) (outputs : list BoundEventAst)
    (references : list ReferenceAst) (variables : list VariableAst)
    (directives : list DirectiveAst) (providers : list ProviderAst)
    (hasViewContainer : bool) (children : list TemplateAst)
    (ngContentIndex : option nat)
| NgContentAst (index : nat) (ngContentIndex : option nat)
| AttrNode (a : AttrAst)
| DirectiveNode (d : DirectiveAst)
| EventNode (e : BoundEventAst)
| ReferenceNode (r : ReferenceAst)
| VariableNode (v : VariableAst)
| DirectivePropertyNode (p : BoundElementPropertyAst)
| ElementPropertyNode (p : BoundElementPropertyAst).

(** [(<any>ast).ngContentIndex] *)
Definition ast_ngContentIndex (ast : TemplateAst) : option nat :=
  match ast with
  | TextAst _ i | BoundTextAst _ i | NgContentAst _ i => i
  | ElementAst _ _ _ _ _ _ _ _ _ i => i
  | EmbeddedTemplateAst _ _ _ _ _ _ _ _ i => i
  | _ => None
  end.

(** [(<ElementAst>ast).name] *)
Definition ast_name (ast : TemplateAst) : option string :=
  match ast with
  | ElementAst name _ _ _ _ _ _ _ _ _ => Some name
  | AttrNode a => Some (attr_name a)
  | EventNode e => Some (event_name e)
  | ReferenceNode r => Some (ref_name r)
  | VariableNode v => Some (var_name v)
  | ElementPropertyNode p => Some (prop_name p)
  | _ => None
  end.

Definition IMPLICIT_TEMPLATE_VAR : string := "$implicit".
Definition CLASS_ATTR : string := "class".
Definition STYLE_ATTR : string := "style".
Definition NG_CONTAINER_TAG : string := "ng-container".

(** ** Merging HTML attributes and host attributes ([view_builder.ts]) *)

Module Attrs.

Definition mergeAttributeValue (attrName attrValue1 attrValue2 : string) : string :=
  if String.eqb attrName CLASS_ATTR || String.eqb attrName STYLE_ATTR
  then attrValue1 +++ " " +++ attrValue2
  else attrValue2.

Definition _readHtmlAttrs (attrs : list AttrAst) : JsObject string :=
  fold_left (fun htmlAttrs ast => plain_set htmlAttrs (attr_name ast) (attr_value ast))
    attrs [].

(** Modelled from the spec: [ListWrapper.sort] of [facade/collection] is
    missing; the entries are "sorted lexicographically by attribute name".
    An insertion sort on the name of each [[name, value]] entry. *)
Fixpoint sort_insert (e : string * string) (l : list (string * string))
  : list (string * string) :=
  match l with
  | [] => [e]
  | x :: rest =>
      if String.leb (fst e) (fst x) then e :: x :: rest
      else x :: sort_insert e rest
  end.

Definition ListWrapper_sort (l : list (string * string)) : list (string * string) :=
  fold_right sort_insert [] l.

(** Every [name] is an own key of [data], so [data[name]] is the own value. *)
Definition mapToKeyValueArray (data : JsObject string) : list (string * string) :=
  let entryArray :=
    fold_left
      (fun entryArray name =>
         match obj_get data name with
         | Some v => entryArray ++ [(name, v)]
         | None => entryArray
         end)
      (Object_keys data) [] in
  ListWrapper_sort entryArray.

(** The body of [directives.forEach]: one directive's host attributes merged
    into [result]. Every [name] is an own key of the host attributes;
    [result] is a plain object, and [prevValue] may be inherited. *)
Definition mergeDirective (result : JsObject string) (directiveMeta : CompileDirectiveMetadata)
  : JsObject string :=
  fold_left
    (fun result name =>
       match obj_get (hostAttributes directiveMeta) name with
       | Some value =>
           let prevValue := plain_get result name in
           plain_set result name
             (if isPresentValue prevValue
              then mergeAttributeValue name (textOf prevValue) value
              else value)
       | None => result
       end)
    (Object_keys (hostAttributes directiveMeta)) result.

(** The object that [_mergeHtmlAndDirectiveAttrs] hands to
    [mapToKeyValueArray]: the own properties of [declaredHtmlAttrs] copied
    into a new plain object, then every directive merged into it. *)
Definition mergedObject (declaredHtmlAttrs : JsObject string)
    (directives : list CompileDirectiveMetadata) : JsObject string :=
  let result :=
    fold_left
      (fun result key =>
         match obj_get declaredHtmlAttrs key with
         | Some v => plain_set result key v
         | None => result
         end)
      (Object_keys declaredHtmlAttrs) [] in
  fold_left mergeDirective directives result.

Definition _mergeHtmlAndDirectiveAttrs (declaredHtmlAttrs : JsObject string)
    (directives : list CompileDirectiveMetadata) : list (string * string) :=
  mapToKeyValueArray (mergedObject declaredHtmlAttrs directives).

End Attrs.

(** ** Facts about objects *)

Section JsObjectFacts.
Variable V : Type.
Implicit Types (o : JsObject V) (k : string) (v : V).

Lemma obj_get_set_same o k v : obj_get (obj_set o k v) k = Some v.
Proof.
  induction o as [|[k' v'] rest IH]; simpl.
  - now rewrite String.eqb_refl.
  - destruct (String.eqb k' k) eqn:E; simpl.
    + now rewrite String.eqb_refl.
    + now rewrite E.
Qed.

Lemma obj_get_set_other o k k' v :
  k <> k' -> obj_get (obj_set o k v) k' = obj_get o k'.
Proof.
  intros Hne. induction o as [|[k0 v0] rest IH]; simpl.
  - destruct (String.eqb k k') eqn:E; [apply String.eqb_eq in E; contradiction | reflexivity].
  - destruct (String.eqb k0 k) eqn:E; simpl.
    + apply String.eqb_eq in E; subst k0.
      destruct (String.eqb k k') eqn:E'; [apply String.eqb_eq in E'; contradiction | reflexivity].
    + now rewrite IH.
Qed.

Lemma obj_keys_set_in o k v k' :
  In k' (Object_keys (obj_set o k v)) <-> k' = k \/ In k' (Object_keys o).
Proof.
  unfold Object_keys. induction o as [|[k0 v0] rest IH]; simpl.
  - intuition.
  - destruct (String.eqb k0 k) eqn:E; simpl.
    + apply String.eqb_eq in E; subst k0. intuition.
    + rewrite IH. intuition.
Qed.

Lemma obj_set_wf o k v : obj_wf o -> obj_wf (obj_set o k v).
Proof.
  unfold obj_wf, Object_keys. induction o as [|[k0 v0] rest IH]; simpl; intros Hwf.
  - constructor; [intros [] | constructor].
  - inversion Hwf as [|? ? Hnotin Hrest]; subst.
    destruct (String.eqb k0 k) eqn:E; simpl.
    + apply String.eqb_eq in E; subst k0. now constructor.
    + constructor; [|now apply IH].
      intros Hin. apply (obj_keys_set_in rest k v k0) in Hin.
      destruct Hin as [->|Hin]; [|contradiction].
      now rewrite String.eqb_refl in E.
Qed.

Lemma obj_get_in o k v : obj_get o k = Some v -> In (k, v) o.
Proof.
  induction o as [|[k0 v0] rest IH]; simpl; [discriminate|].
  destruct (String.eqb k0 k) eqn:E.
  - apply String.eqb_eq in E; subst k0. intros [= ->]. now left.
  - intros H. right. now apply IH.
Qed.

Lemma obj_in_get o k v : obj_wf o -> In (k, v) o -> obj_get o k = Some v.
Proof.
  unfold obj_wf, Object_keys. induction o as [|[k0 v0] rest IH]; simpl; [intros _ []|].
  intros Hwf [Heq|Hin]; inversion Hwf as [|? ? Hnotin Hrest]; subst.
  - injection Heq as -> ->. now rewrite String.eqb_refl.
  - destruct (String.eqb k0 k) eqn:E.
    + apply String.eqb_eq in E; subst k0. exfalso. apply Hnotin.
      now apply (in_map fst) in Hin.
    + now apply IH.
Qed.

Lemma obj_get_none o k : obj_get o k = None <-> ~ In k (Object_keys o).
Proof.
  unfold Object_keys. induction o as [|[k0 v0] rest IH]; simpl.
  - intuition.
  - destruct (String.eqb k0 k) eqn:E.
    + apply String.eqb_eq in E; subst k0. split; [discriminate | intros H; exfalso; auto].
    + rewrite IH. apply String.eqb_neq in E. intuition.
Qed.

End JsObjectFacts.

(** ** Facts about plain objects *)

Lemma plain_set_proto (o : JsObject string) (v : string) :
  obj_get o PROTO = None -> plain_set o PROTO v = o.
Proof. intros H. unfold plain_set. now rewrite String.eqb_refl, H. Qed.

Lemma plain_set_other (o : JsObject string) (k v : string) :
  k <> PROTO -> plain_set o k v = obj_set o k v.
Proof. intros H. unfold plain_set. apply String.eqb_neq in H. now rewrite H. Qed.

Lemma obj_get_plain_set_other (o : JsObject string) (k k' v : string) :
  k <> k' -> obj_get (plain_set o k v) k' = obj_get o k'.
Proof.
  intros H. unfold plain_set.
  destruct (String.eqb k PROTO && negb (isPresent (obj_get o k)));
    [reflexivity | now apply obj_get_set_other].
Qed.

Lemma obj_get_plain_set_same (o : JsObject string) (k v : string) :
  k <> PROTO -> obj_get (plain_set o k v) k = Some v.
Proof. intros H. rewrite plain_set_other by exact H. apply obj_get_set_same. Qed.

(** A plain object that has no own [__proto__] never gets one. *)
Lemma plain_set_no_proto (o : JsObject string) (k v : string) :
  obj_get o PROTO = None -> obj_get (plain_set o k v) PROTO = None.
Proof.
  intros H. destruct (string_dec k PROTO) as [->|Hne].
  - now rewrite plain_set_proto.
  - now rewrite obj_get_plain_set_other.
Qed.

Lemma plain_set_wf (o : JsObject string) (k v : string) :
  obj_wf o -> obj_wf (plain_set o k v).
Proof.
  intros H. unfold plain_set.
  destruct (String.eqb k PROTO && negb (isPresent (obj_get o k)));
    [exact H | now apply obj_set_wf].
Qed.

Lemma plain_set_keys (o : JsObject string) (k v k' : string) :
  obj_get o PROTO = None ->
  In k' (Object_keys (plain_set o k v))
  <-> (k' = k /\ k <> PROTO) \/ In k' (Object_keys o).
Proof.
  intros H. destruct (string_dec k PROTO) as [->|Hne].
  - rewrite plain_set_proto by exact H. intuition.
  - rewrite plain_set_other by exact Hne. rewrite obj_keys_set_in. intuition.
Qed.

(** No name of [Object.prototype] is [class] or [style]. *)
Lemma inherited_not_class_or_style (k : string) :
  existsb (String.eqb k) Object_prototype = true ->
  String.eqb k CLASS_ATTR || String.eqb k STYLE_ATTR = false.
Proof.
  intros H. apply existsb_exists in H as (x & Hin & Heq).
  apply String.eqb_eq in Heq. subst x. cbn in Hin.
  repeat (destruct Hin as [<-|Hin]; [reflexivity|]). destruct Hin.
Qed.

(** ** Facts about the attribute merge *)

Module AttrsFacts.
Import Attrs.

(** The values declared for [name], in the order the merge meets them: the
    HTML attribute (the last one of that name), then every directive that
    declares it as a host attribute, in declaration order. *)
Definition htmlValue (attrs : list AttrAst) (name : string) : option string :=
  option_map attr_value
    (find (fun a => String.eqb (attr_name a) name) (rev attrs)).










(** What is merged with the previous value of [name] depends on the own
    property alone: an inherited value counts as present, but it is found
    under a name that is neither [class] nor [style], where the new value
    wins. *)
Lemma merge_prevValue (result : JsObject string) (name value : string) :
  (if isPresentValue (plain_get result name)
   then mergeAttributeValue name (textOf (plain_get result name)) value
   else value)
  = match obj_get result name with
    | Some prev => mergeAttributeValue name prev value
    | None => value
    end.
Proof.
  unfold plain_get. destruct (obj_get result name) as [prev|]; [reflexivity|].
  destruct (existsb (String.eqb name) Object_prototype) eqn:E; [|reflexivity].
  cbn [isPresentValue]. unfold mergeAttributeValue.
  now rewrite (inherited_not_class_or_style _ E).
Qed.

(** One step of the loop over a directive's host attributes. *)
Definition mergeStep (d : CompileDirectiveMetadata) (result : JsObject string)
    (name : string) : JsObject string :=
  match obj_get (hostAttributes d) name with
  | Some value =>
      plain_set result name
        (match obj_get result name with
         | Some prev => mergeAttributeValue name prev value
         | None => value
         end)
  | None => result
  end.

Lemma mergeSteps (d : CompileDirectiveMetadata) (ks : list string) :
  forall result : JsObject string,
  fold_left
    (fun result name =>
       match obj_get (hostAttributes d) name with
       | Some value =>
           let prevValue := plain_get result name in
           plain_set result name
             (if isPresentValue prevValue
              then mergeAttributeValue name (textOf prevValue) value
              else value)
       | None => result
       end) ks result
  = fold_left (mergeStep d) ks result.
Proof.
  induction ks as [|k ks IH]; intros result; [reflexivity|].
  cbn [fold_left]. rewrite IH. f_equal. unfold mergeStep.
  destruct (obj_get (hostAttributes d) k); [|reflexivity].
  cbv zeta. now rewrite merge_prevValue.
Qed.

Lemma mergeDirective_steps (result : JsObject string) (d : CompileDirectiveMetadata) :
  mergeDirective result d = fold_left (mergeStep d) (Object_keys (hostAttributes d)) result.
Proof. apply mergeSteps. Qed.

Lemma mergeStep_other (d : CompileDirectiveMetadata) (result : JsObject string)
    (k name : string) :
  k <> name -> obj_get (mergeStep d result k) name = obj_get result name.
Proof.
  intros Hne. unfold mergeStep.
  destruct (obj_get (hostAttributes d) k); [now apply obj_get_plain_set_other | reflexivity].
Qed.

Lemma mergeDirective_keys (d : CompileDirectiveMetadata) (ks : list string) :
  NoDup ks ->
  forall (result : JsObject string) (name : string),
  name <> PROTO ->
  obj_get (fold_left (mergeStep d) ks result) name =
  if in_dec string_dec name ks then
    match obj_get (hostAttributes d) name with
    | Some value =>
        Some (match obj_get result name with
              | Some prev => mergeAttributeValue name prev value
              | None => value
              end)
    | None => obj_get result name
    end
  else obj_get result name.
Proof.
  induction 1 as [|k ks Hk Hnd IH]; intros result name Hname; [reflexivity|].
  cbn [fold_left]. rewrite IH by exact Hname.
  destruct (string_dec k name) as [->|Hne].
  - destruct (in_dec string_dec name ks) as [Hin|_]; [contradiction|].
    destruct (in_dec string_dec name (name :: ks)) as [_|Hn]; [|exfalso; apply Hn; now left].
    unfold mergeStep.
    destruct (obj_get (hostAttributes d) name);
      [now apply obj_get_plain_set_same | reflexivity].
  - rewrite (mergeStep_other d result k name Hne).
    destruct (in_dec string_dec name ks) as [Hin|Hnin];
      destruct (in_dec string_dec name (k :: ks)) as [Hin'|Hnin']; try reflexivity.
    + exfalso. apply Hnin'. now right.
    + destruct Hin' as [->|Hin']; [contradiction Hne; reflexivity | contradiction].
Qed.



Lemma readHtmlAttrs_fold (attrs : list AttrAst) (acc : JsObject string) (name : string) :
  name <> PROTO ->
  obj_get
    (fold_left (fun htmlAttrs ast => plain_set htmlAttrs (attr_name ast) (attr_value ast))
       attrs acc) name =
  match htmlValue attrs name with
  | Some v => Some v
  | None => obj_get acc name
  end.
Proof.
  intros Hname. unfold htmlValue.
  induction attrs as [|a attrs IH] using rev_ind; [reflexivity|].
  rewrite fold_left_app, rev_unit. cbn [fold_left find].
  destruct (String.eqb (attr_name a) name) eqn:E.
  - apply String.eqb_eq in E; subst name. now apply obj_get_plain_set_same.
  - apply String.eqb_neq in E. now rewrite obj_get_plain_set_other.
Qed.

Lemma readHtmlAttrs_get (attrs : list AttrAst) (name : string) :
  name <> PROTO ->
  obj_get (_readHtmlAttrs attrs) name = htmlValue attrs name.
Proof.
  intros Hname. unfold _readHtmlAttrs. rewrite readHtmlAttrs_fold by exact Hname.
  now destruct (htmlValue attrs name).
Qed.

Lemma fold_no_proto (A : Type) (f : JsObject string -> A -> JsObject string) :
  (forall o a, obj_get o PROTO = None -> obj_get (f o a) PROTO = None) ->
  forall (l : list A) (o : JsObject string),
    obj_get o PROTO = None -> obj_get (fold_left f l o) PROTO = None.
Proof.
  intros Hf l. induction l as [|a l IH]; intros o Ho; [exact Ho|].
  cbn [fold_left]. apply IH, Hf, Ho.
Qed.

(** An attribute named [__proto__] leaves no property behind. *)
Lemma readHtmlAttrs_no_proto (attrs : list AttrAst) :
  obj_get (_readHtmlAttrs attrs) PROTO = None.
Proof.
  unfold _readHtmlAttrs. apply fold_no_proto; [|reflexivity].
  intros o a Ho. now apply plain_set_no_proto.
Qed.

Lemma mergeDirective_no_proto (o : JsObject string) (d : CompileDirectiveMetadata) :
  obj_get o PROTO = None -> obj_get (mergeDirective o d) PROTO = None.
Proof.
  rewrite mergeDirective_steps. apply fold_no_proto. clear o.
  intros o name Ho. unfold mergeStep.
  destruct (obj_get (hostAttributes d) name); [now apply plain_set_no_proto | exact Ho].
Qed.


Lemma copy_get (d : JsObject string) (ks : list string) :
  forall (acc : JsObject string) (name : string),
  name <> PROTO ->
  obj_get
    (fold_left
       (fun result key =>
          match obj_get d key with
          | Some v => plain_set result key v
          | None => result
          end) ks acc) name =
  if in_dec string_dec name ks then
    match obj_get d name with
    | Some v => Some v
    | None => obj_get acc name
    end
  else obj_get acc name.
Proof.
  induction ks as [|k ks IH]; intros acc name Hname; [reflexivity|].
  cbn [fold_left]. rewrite IH by exact Hname.
  destruct (string_dec k name) as [->|Hne].
  - destruct (in_dec string_dec name (name :: ks)) as [_|Hn]; [|exfalso; apply Hn; now left].
    destruct (obj_get d name) as [v|] eqn:Hd.
    + rewrite obj_get_plain_set_same by exact Hname. now destruct (in_dec string_dec name ks).
    + now destruct (in_dec string_dec name ks).
  - assert (Hsame : obj_get
        match obj_get d k with
        | Some v => plain_set acc k v
        | None => acc
        end name = obj_get acc name).
    { destruct (obj_get d k); [now apply obj_get_plain_set_other | reflexivity]. }
    rewrite Hsame.
    destruct (in_dec string_dec name ks) as [Hin|Hnin];
      destruct (in_dec string_dec name (k :: ks)) as [Hin'|Hnin']; try reflexivity.
    + exfalso. apply Hnin'. now right.
    + destruct Hin' as [->|Hin']; [contradiction Hne; reflexivity | contradiction].
Qed.

Lemma fold_set_wf (A : Type) (f : JsObject string -> A -> JsObject string) :
  (forall o a, obj_wf o -> obj_wf (f o a)) ->
  forall (l : list A) (o : JsObject string), obj_wf o -> obj_wf (fold_left f l o).
Proof.
  intros Hf l. induction l as [|a l IH]; intros o Ho; [exact Ho|].
  cbn [fold_left]. apply IH, Hf, Ho.
Qed.

Lemma mergeDirective_wf (o : JsObject string) (d : CompileDirectiveMetadata) :
  obj_wf o -> obj_wf (mergeDirective o d).
Proof.
  rewrite mergeDirective_steps. apply fold_set_wf. clear o.
  intros o name Ho. unfold mergeStep.
  destruct (obj_get (hostAttributes d) name); [|exact Ho].
  now apply plain_set_wf.
Qed.

Lemma mergedObject_wf (h : JsObject string) (directives : list CompileDirectiveMetadata) :
  obj_wf (mergedObject h directives).
Proof.
  unfold mergedObject. apply fold_set_wf; [apply mergeDirective_wf|].
  apply fold_set_wf; [|constructor].
  intros o key Ho. destruct (obj_get h key); [now apply plain_set_wf | exact Ho].
Qed.


(** *** The sorted entry array *)

Definition name_le (x y : string * string) : Prop := String.leb (fst x) (fst y) = true.

Lemma sort_insert_perm (e : string * string) (l : list (string * string)) :
  Permutation (sort_insert e l) (e :: l).
Proof.
  induction l as [|x l IH]; simpl; [apply Permutation_refl|].
  destruct (String.leb (fst e) (fst x)); [apply Permutation_refl|].
  eapply Permutation_trans; [apply perm_skip, IH | apply perm_swap].
Qed.

Lemma ListWrapper_sort_perm (l : list (string * string)) :
  Permutation (ListWrapper_sort l) l.
Proof.
  induction l as [|e l IH]; simpl; [constructor|].
  eapply Permutation_trans; [apply sort_insert_perm | now apply perm_skip].
Qed.

Lemma sort_insert_sorted (e : string * string) (l : list (string * string)) :
  Sorted name_le l -> Sorted name_le (sort_insert e l).
Proof.
  induction l as [|x l IH]; intros Hs; simpl.
  - repeat constructor.
  - destruct (String.leb (fst e) (fst x)) eqn:E.
    + constructor; [exact Hs | constructor; exact E].
    + inversion Hs as [|? ? Hl Hhd]; subst.
      constructor; [now apply IH|].
      assert (Hxe : name_le x e).
      { unfold name_le. destruct (String.leb_total (fst e) (fst x)) as [H|H]; [congruence|exact H]. }
      destruct l as [|y l]; simpl; [now constructor|].
      destruct (String.leb (fst e) (fst y)); constructor; [exact Hxe|].
      now inversion Hhd.
Qed.

Lemma ListWrapper_sort_sorted (l : list (string * string)) :
  Sorted name_le (ListWrapper_sort l).
Proof.
  induction l as [|e l IH]; simpl; [constructor | now apply sort_insert_sorted].
Qed.

Lemma leb_lt (a b : string) : String.leb a b = true -> a <> b -> String_as_OT.lt a b.
Proof.
  unfold String.leb. intros Hle Hne. apply String_as_OT.cmp_lt. unfold String_as_OT.cmp.
  destruct (String.compare a b) eqn:E; [|reflexivity|discriminate].
  apply String.compare_eq_iff in E. contradiction.
Qed.

Lemma sorted_nodup_strict (l : list (string * string)) :
  Sorted name_le l -> NoDup (map fst l) -> StronglySorted String_as_OT.lt (map fst l).
Proof.
  intros Hs Hnd. apply Sorted_StronglySorted.
  { intros x y z. apply String_as_OT.lt_trans. }
  induction Hs as [|x l Hl IH Hhd]; simpl; [constructor|].
  inversion Hnd as [|? ? Hnotin Hnd']; subst.
  constructor; [now apply IH|].
  destruct Hhd as [|y l Hxy]; simpl; constructor.
  apply leb_lt; [exact Hxy|].
  intros Heq. apply Hnotin. simpl. now left.
Qed.

Lemma entryArray_wf (data : JsObject string) (suffix : list (string * string)) :
  (forall k v, In (k, v) suffix -> obj_get data k = Some v) ->
  forall acc,
  fold_left
    (fun entryArray name =>
       match obj_get data name with
       | Some v => entryArray ++ [(name, v)]
       | None => entryArray
       end) (map fst suffix) acc = acc ++ suffix.
Proof.
  induction suffix as [|[k v] suffix IH]; intros Hget acc; simpl.
  - now rewrite app_nil_r.
  - rewrite (Hget k v) by now left.
    rewrite IH by (intros k' v' Hin; apply Hget; now right).
    now rewrite <- app_assoc.
Qed.




(** A directive that declares the host attribute [class="b"]. *)
Definition dirWithHostClass : CompileDirectiveMetadata :=
  {| dir_type := {| type_name := "DirWithHostClass"; type_moduleUrl := "app.ts";
                    isHost := false; diDeps := [] |};
     isComponent := false; changeDetection := Default;
     hostAttributes := [("class", "b")];
     dir_viewQueries := []; entryComponents := [];
     template := {| encapsulation := Emulated; templateUrl := "";
                    ngContentSelectors := [] |} |}.


(** *** More on reading and merging attributes *)

Lemma readHtmlAttrs_wf (attrs : list AttrAst) : obj_wf (_readHtmlAttrs attrs).
Proof.
  unfold _readHtmlAttrs. apply fold_set_wf; [|constructor].
  intros o a Ho. now apply plain_set_wf.
Qed.

(** X13. [_readHtmlAttrs] keeps one own property per attribute name, with
    the value of the last attribute of that name, and drops an attribute
    named [__proto__]: a name is a key of the object exactly when some
    attribute has it and it is not [__proto__], no key occurs twice, and the
    own value of a key is the value of the last attribute that has the name.
    Reading a name from the object gives [undefined] exactly when no
    attribute has the name and [Object.prototype] has no property of that
    name either. *)
Theorem readHtmlAttrs_last_value_wins (attrs : list AttrAst) (name : string) :
  obj_get (_readHtmlAttrs attrs) name
  = (if String.eqb name PROTO then None
     else option_map attr_value
            (find (fun a => String.eqb (attr_name a) name) (rev attrs)))
  /\ NoDup (Object_keys (_readHtmlAttrs attrs))
  /\ (In name (Object_keys (_readHtmlAttrs attrs))
      <-> In name (map attr_name attrs) /\ name <> PROTO)
  /\ (plain_get (_readHtmlAttrs attrs) name = Undefined
      <-> ~ In name (map attr_name attrs) /\ ~ In name Object_prototype).
Proof.
  assert (Hfind : find (fun a => String.eqb (attr_name a) name) (rev attrs) = None
                  <-> ~ In name (map attr_name attrs)).
  { split.
    - intros Hnone Hin. apply in_map_iff in Hin as (a & Hname & Ha).
      apply in_rev in Ha. pose proof (find_none _ _ Hnone a Ha) as Hfalse.
      cbv beta in Hfalse. rewrite Hname, String.eqb_refl in Hfalse. discriminate.
    - intros Hnotin.
      destruct (find (fun a => String.eqb (attr_name a) name) (rev attrs)) as [a|] eqn:E;
        [|reflexivity].
      apply find_some in E as [Ha Hname]. apply String.eqb_eq in Hname. subst name.
      exfalso. apply Hnotin. apply in_map, in_rev. exact Ha. }
  assert (Hown : obj_get (_readHtmlAttrs attrs) name
                 = if String.eqb name PROTO then None
                   else option_map attr_value
                          (find (fun a => String.eqb (attr_name a) name) (rev attrs))).
  { destruct (String.eqb name PROTO) eqn:E.
    - apply String.eqb_eq in E. subst name. apply readHtmlAttrs_no_proto.
    - apply String.eqb_neq in E. now apply readHtmlAttrs_get. }
  assert (Hkey : In name (Object_keys (_readHtmlAttrs attrs))
                 <-> In name (map attr_name attrs) /\ name <> PROTO).
  { pose proof (obj_get_none _ (_readHtmlAttrs attrs) name) as Hnone.
    rewrite Hown in Hnone.
    destruct (String.eqb name PROTO) eqn:E.
    - apply String.eqb_eq in E. split.
      + intros Hin. exfalso. apply (proj1 Hnone eq_refl). exact Hin.
      + intros [_ Hne]. contradiction.
    - apply String.eqb_neq in E. split.
      + intros Hin. split; [|exact E].
        destruct (in_dec string_dec name (map attr_name attrs)) as [H|H]; [exact H|].
        exfalso. apply Hfind in H. rewrite H in Hnone. apply (proj1 Hnone eq_refl). exact Hin.
      + intros [Hin _].
        destruct (in_dec string_dec name (Object_keys (_readHtmlAttrs attrs))) as [H|H];
          [exact H|].
        apply Hnone in H.
        destruct (find (fun a => String.eqb (attr_name a) name) (rev attrs)) eqn:Ef;
          [discriminate|].
        exfalso. now apply (proj1 Hfind eq_refl). }
  split; [exact Hown|]. split; [apply readHtmlAttrs_wf|]. split; [exact Hkey|].
  assert (Hproto : existsb (String.eqb name) Object_prototype = true
                   <-> In name Object_prototype).
  { rewrite existsb_exists. split.
    - intros (x & Hin & Heq). apply String.eqb_eq in Heq. now subst x.
    - intros Hin. exists name. split; [exact Hin | apply String.eqb_refl]. }
  unfold plain_get. rewrite Hown.
  destruct (String.eqb name PROTO) eqn:E.
  - apply String.eqb_eq in E. subst name. cbn. split; [discriminate|].
    intros [_ H]. exfalso. apply H. cbn. tauto.
  - destruct (find (fun a => String.eqb (attr_name a) name) (rev attrs)) as [a|] eqn:Ef;
      cbn [option_map].
    + split; [discriminate|]. intros [H _]. apply Hfind in H. congruence.
    + destruct (existsb (String.eqb name) Object_prototype) eqn:Ep.
      * split; [discriminate|]. intros [_ H]. exfalso. now apply H, Hproto.
      * split; [|reflexivity]. intros _. split; [now apply Hfind|].
        intros H. apply Hproto in H. congruence.
Qed.

Lemma copy_wf (data : JsObject string) (suffix : JsObject string) :
  (forall k v, In (k, v) suffix -> obj_get data k = Some v) ->
  NoDup (map fst suffix) ->
  ~ In PROTO (map fst suffix) ->
  forall acc,
    (forall k, In k (map fst suffix) -> obj_get acc k = None) ->
    fold_left
      (fun result key =>
         match obj_get data key with
         | Some v => plain_set result key v
         | None => result
         end) (map fst suffix) acc = acc ++ suffix.
Proof.
  induction suffix as [|[k v] suffix IH]; intros Hget Hnd Hproto acc Hfresh; simpl.
  - now rewrite app_nil_r.
  - rewrite (Hget k v) by now left.
    inversion Hnd as [|? ? Hnotin Hnd']; subst.
    assert (Hk : k <> PROTO) by (intros ->; apply Hproto; now left).
    assert (Hset : plain_set acc k v = acc ++ [(k, v)]).
    { rewrite plain_set_other by exact Hk.
      assert (Hnone : obj_get acc k = None) by (apply Hfresh; now left).
      clear -Hnone. induction acc as [|[k0 v0] acc IHacc]; [reflexivity|].
      simpl in *. destruct (String.eqb k0 k); [discriminate|]. now rewrite IHacc. }
    rewrite Hset, IH.
    + now rewrite <- app_assoc.
    + intros k' v' Hin. apply Hget. now right.
    + exact Hnd'.
    + intros Hin. apply Hproto. now right.
    + intros k' Hin. rewrite <- Hset.
      rewrite obj_get_plain_set_other by (intros ->; contradiction).
      apply Hfresh. now right.
Qed.

Lemma mergedObject_no_directive (html : JsObject string) :
  obj_wf html -> obj_get html PROTO = None -> mergedObject html [] = html.
Proof.
  intros Hwf Hproto. unfold mergedObject, Object_keys. cbn [fold_left].
  rewrite (copy_wf html html); [reflexivity | | exact Hwf | | reflexivity].
  - intros k v. now apply obj_in_get.
  - now apply obj_get_none.
Qed.

Definition declaresHostAttributes (d : CompileDirectiveMetadata) : bool :=
  match hostAttributes d with [] => false | _ => true end.

(** X14. Directives that declare no host attribute take no part in the
    merge: the merged array of an element is the one of its directives that
    declare some. With no such directive it is the array of the HTML
    attributes as [_readHtmlAttrs] read them. *)
Theorem mergeHtmlAndDirectiveAttrs_ignores_plain_directives
    (declaredHtmlAttrs : JsObject string) (attrs : list AttrAst)
    (directives : list CompileDirectiveMetadata) :
  _mergeHtmlAndDirectiveAttrs declaredHtmlAttrs directives
  = _mergeHtmlAndDirectiveAttrs declaredHtmlAttrs (filter declaresHostAttributes directives)
  /\ (filter declaresHostAttributes directives = [] ->
      _mergeHtmlAndDirectiveAttrs (_readHtmlAttrs attrs) directives
      = mapToKeyValueArray (_readHtmlAttrs attrs)).
Proof.
  assert (Hfilter : forall result,
            fold_left mergeDirective directives result
            = fold_left mergeDirective (filter declaresHostAttributes directives) result).
  { induction directives as [|d ds IH]; intros result; [reflexivity|].
    cbn [fold_left filter]. unfold declaresHostAttributes at 1.
    destruct (hostAttributes d) as [|entry rest] eqn:Hd.
    - rewrite <- IH. unfold mergeDirective at 2. now rewrite Hd.
    - cbn [fold_left]. apply IH. }
  unfold _mergeHtmlAndDirectiveAttrs, mergedObject.
  split; [now rewrite Hfilter|].
  intros Hnone. rewrite Hfilter, Hnone.
  change (mapToKeyValueArray (mergedObject (_readHtmlAttrs attrs) [])
          = mapToKeyValueArray (_readHtmlAttrs attrs)).
  now rewrite mergedObject_no_directive
    by (apply readHtmlAttrs_wf || apply readHtmlAttrs_no_proto).
Qed.

(** *** The order of the keys is not observable

    [Object.keys] lists the own keys of an object in an order that is the
    engine's (names that read as array indices come first, in ascending
    order). The merge reads three kinds of objects through it: the HTML
    attributes, the host attributes of each directive, and the merged object
    itself. Here the merge is written over an arbitrary enumeration [keys]
    of the own keys, and shown to give the array of
    [_mergeHtmlAndDirectiveAttrs], which enumerates in insertion order. *)

Definition name_lt (x y : string * string) : Prop := String_as_OT.lt (fst x) (fst y).

Lemma StronglySorted_names (l : list (string * string)) :
  StronglySorted String_as_OT.lt (map fst l) -> StronglySorted name_lt l.
Proof.
  induction l as [|x l IH]; intros Hs; [constructor|].
  cbn [map] in Hs. apply StronglySorted_inv in Hs as [Hl Hx].
  constructor; [now apply IH|].
  apply Forall_forall. intros y Hy. rewrite Forall_forall in Hx.
  apply Hx. now apply in_map.
Qed.

(** Two lists with ascending names and the same entries are the same list. *)
Lemma sorted_perm_eq (l1 : list (string * string)) :
  forall l2,
    StronglySorted name_lt l1 -> StronglySorted name_lt l2 -> Permutation l1 l2 ->
    l1 = l2.
Proof.
  induction l1 as [|x l1 IH]; intros l2 H1 H2 Hp.
  - apply Permutation_nil in Hp. now subst.
  - destruct l2 as [|y l2]; [apply Permutation_sym, Permutation_nil in Hp; discriminate|].
    apply StronglySorted_inv in H1 as [H1 Hx]. apply StronglySorted_inv in H2 as [H2 Hy].
    rewrite Forall_forall in Hx, Hy.
    assert (Hxy : x = y).
    { assert (Hin_x : In x (y :: l2)) by (eapply Permutation_in; [exact Hp | now left]).
      assert (Hin_y : In y (x :: l1))
        by (eapply Permutation_in; [apply Permutation_sym; exact Hp | now left]).
      destruct Hin_x as [->|Hin_x]; [reflexivity|].
      destruct Hin_y as [->|Hin_y]; [reflexivity|].
      exfalso. pose proof (Hy x Hin_x) as Hlt1. pose proof (Hx y Hin_y) as Hlt2.
      unfold name_lt in Hlt1, Hlt2.
      exact (String_as_OT.lt_not_eq _ _ (String_as_OT.lt_trans _ _ _ Hlt1 Hlt2) eq_refl). }
    subst y. f_equal. apply IH; [exact H1 | exact H2|].
    eapply Permutation_cons_inv. exact Hp.
Qed.

Lemma ListWrapper_sort_perm_eq (l1 l2 : list (string * string)) :
  NoDup (map fst l1) -> Permutation l1 l2 -> ListWrapper_sort l1 = ListWrapper_sort l2.
Proof.
  intros Hnd Hp.
  assert (Hnd2 : NoDup (map fst l2))
    by (eapply Permutation_NoDup; [apply Permutation_map; exact Hp | exact Hnd]).
  apply sorted_perm_eq.
  - apply StronglySorted_names, sorted_nodup_strict; [apply ListWrapper_sort_sorted|].
    eapply Permutation_NoDup; [|exact Hnd].
    apply Permutation_map, Permutation_sym, ListWrapper_sort_perm.
  - apply StronglySorted_names, sorted_nodup_strict; [apply ListWrapper_sort_sorted|].
    eapply Permutation_NoDup; [|exact Hnd2].
    apply Permutation_map, Permutation_sym, ListWrapper_sort_perm.
  - eapply Permutation_trans; [apply ListWrapper_sort_perm|].
    eapply Permutation_trans; [exact Hp|]. apply Permutation_sym, ListWrapper_sort_perm.
Qed.

Lemma entryArray_flat_map (data : JsObject string) (ks : list string) :
  forall acc,
  fold_left
    (fun entryArray name =>
       match obj_get data name with
       | Some v => entryArray ++ [(name, v)]
       | None => entryArray
       end) ks acc
  = acc ++ flat_map (fun name => match obj_get data name with
                                 | Some v => [(name, v)]
                                 | None => []
                                 end) ks.
Proof.
  induction ks as [|k ks IH]; intros acc; cbn [fold_left flat_map].
  - now rewrite app_nil_r.
  - rewrite IH. destruct (obj_get data k); [now rewrite <- app_assoc | reflexivity].
Qed.

(** Two objects with the same own properties, in whatever order. *)
Definition same_properties (o1 o2 : JsObject string) : Prop :=
  forall name, obj_get o1 name = obj_get o2 name.

Lemma same_properties_perm (o1 o2 : JsObject string) :
  obj_wf o1 -> obj_wf o2 -> same_properties o1 o2 -> Permutation o1 o2.
Proof.
  intros H1 H2 Hsame. apply NoDup_Permutation.
  - eapply NoDup_map_inv. exact H1.
  - eapply NoDup_map_inv. exact H2.
  - intros [k v]. split; intros Hin.
    + apply obj_get_in. rewrite <- Hsame. now apply obj_in_get.
    + apply obj_get_in. rewrite Hsame. now apply obj_in_get.
Qed.

Section KeyOrder.

Variable keys : JsObject string -> list string.
Hypothesis keys_perm : forall o, Permutation (keys o) (Object_keys o).

Definition mapToKeyValueArray_by (data : JsObject string) : list (string * string) :=
  let entryArray :=
    fold_left
      (fun entryArray name =>
         match obj_get data name with
         | Some v => entryArray ++ [(name, v)]
         | None => entryArray
         end)
      (keys data) [] in
  ListWrapper_sort entryArray.

Definition mergeDirective_by (result : JsObject string)
    (directiveMeta : CompileDirectiveMetadata) : JsObject string :=
  fold_left
    (fun result name =>
       match obj_get (hostAttributes directiveMeta) name with
       | Some value =>
           let prevValue := plain_get result name in
           plain_set result name
             (if isPresentValue prevValue
              then mergeAttributeValue name (textOf prevValue) value
              else value)
       | None => result
       end)
    (keys (hostAttributes directiveMeta)) result.

Definition mergedObject_by (declaredHtmlAttrs : JsObject string)
    (directives : list CompileDirectiveMetadata) : JsObject string :=
  let result :=
    fold_left
      (fun result key =>
         match obj_get declaredHtmlAttrs key with
         | Some v => plain_set result key v
         | None => result
         end)
      (keys declaredHtmlAttrs) [] in
  fold_left mergeDirective_by directives result.

Definition mergeHtmlAndDirectiveAttrs_by (declaredHtmlAttrs : JsObject string)
    (directives : list CompileDirectiveMetadata) : list (string * string) :=
  mapToKeyValueArray_by (mergedObject_by declaredHtmlAttrs directives).

Lemma keys_in (o : JsObject string) (name : string) :
  In name (keys o) <-> In name (Object_keys o).
Proof.
  split; apply Permutation_in; [apply keys_perm | apply Permutation_sym, keys_perm].
Qed.

Lemma keys_NoDup (o : JsObject string) : obj_wf o -> NoDup (keys o).
Proof. intros H. eapply Permutation_NoDup; [apply Permutation_sym, keys_perm | exact H]. Qed.

Lemma in_dec_keys (A : Type) (o : JsObject string) (name : string) (x y : A) :
  (if in_dec string_dec name (keys o) then x else y)
  = if in_dec string_dec name (Object_keys o) then x else y.
Proof.
  destruct (in_dec string_dec name (keys o)) as [H|H];
    destruct (in_dec string_dec name (Object_keys o)) as [H'|H']; try reflexivity.
  - exfalso. now apply H', keys_in.
  - exfalso. now apply H, keys_in.
Qed.

Lemma mergeDirective_by_no_proto (o : JsObject string) (d : CompileDirectiveMetadata) :
  obj_get o PROTO = None -> obj_get (mergeDirective_by o d) PROTO = None.
Proof.
  unfold mergeDirective_by. rewrite mergeSteps. apply fold_no_proto. clear o.
  intros o name Ho. unfold mergeStep.
  destruct (obj_get (hostAttributes d) name); [now apply plain_set_no_proto | exact Ho].
Qed.

Lemma mergeDirective_by_wf (o : JsObject string) (d : CompileDirectiveMetadata) :
  obj_wf o -> obj_wf (mergeDirective_by o d).
Proof.
  unfold mergeDirective_by. rewrite mergeSteps. apply fold_set_wf. clear o.
  intros o name Ho. unfold mergeStep.
  destruct (obj_get (hostAttributes d) name); [|exact Ho].
  now apply plain_set_wf.
Qed.

Lemma mergeDirective_by_same (o1 o2 : JsObject string) (d : CompileDirectiveMetadata) :
  obj_wf (hostAttributes d) ->
  obj_get o1 PROTO = None -> obj_get o2 PROTO = None ->
  same_properties o1 o2 ->
  same_properties (mergeDirective_by o1 d) (mergeDirective o2 d).
Proof.
  intros Hwf Hp1 Hp2 Hsame name.
  destruct (string_dec name PROTO) as [->|Hname].
  - now rewrite mergeDirective_by_no_proto, mergeDirective_no_proto.
  - unfold mergeDirective_by.
    rewrite mergeSteps, mergeDirective_steps.
    rewrite (mergeDirective_keys d _ (keys_NoDup _ Hwf)) by exact Hname.
    rewrite (mergeDirective_keys d _ Hwf) by exact Hname.
    rewrite in_dec_keys, (Hsame name). reflexivity.
Qed.

Lemma mergedObject_by_same (declaredHtmlAttrs : JsObject string)
    (directives : list CompileDirectiveMetadata) :
  Forall (fun d => obj_wf (hostAttributes d)) directives ->
  obj_wf (mergedObject_by declaredHtmlAttrs directives)
  /\ same_properties (mergedObject_by declaredHtmlAttrs directives)
       (mergedObject declaredHtmlAttrs directives).
Proof.
  intros Hwf. unfold mergedObject_by, mergedObject.
  set (copy := fun (result : JsObject string) (key : string) =>
                 match obj_get declaredHtmlAttrs key with
                 | Some v => plain_set result key v
                 | None => result
                 end).
  assert (Hcopy_proto : forall ks, obj_get (fold_left copy ks []) PROTO = None).
  { intros ks. apply fold_no_proto; [|reflexivity].
    intros o key Ho. unfold copy.
    destruct (obj_get declaredHtmlAttrs key); [now apply plain_set_no_proto | exact Ho]. }
  assert (Hcopy_wf : forall ks, obj_wf (fold_left copy ks [])).
  { intros ks. apply fold_set_wf; [|constructor].
    intros o key Ho. unfold copy.
    destruct (obj_get declaredHtmlAttrs key); [now apply plain_set_wf | exact Ho]. }
  assert (Hcopy : same_properties (fold_left copy (keys declaredHtmlAttrs) [])
                    (fold_left copy (Object_keys declaredHtmlAttrs) [])).
  { intros name. destruct (string_dec name PROTO) as [->|Hname].
    - now rewrite !Hcopy_proto.
    - unfold copy. rewrite !copy_get by exact Hname. apply in_dec_keys. }
  generalize (Hcopy_proto (keys declaredHtmlAttrs))
             (Hcopy_proto (Object_keys declaredHtmlAttrs))
             (Hcopy_wf (keys declaredHtmlAttrs)) Hcopy.
  generalize (fold_left copy (keys declaredHtmlAttrs) []) as o1.
  generalize (fold_left copy (Object_keys declaredHtmlAttrs) []) as o2.
  clear Hcopy Hcopy_proto Hcopy_wf.
  induction Hwf as [|d ds Hd Hds IH]; intros o2 o1 Hp1 Hp2 Hwf1 Hsame; [now split|].
  cbn [fold_left]. apply IH.
  - now apply mergeDirective_by_no_proto.
  - now apply mergeDirective_no_proto.
  - now apply mergeDirective_by_wf.
  - now apply mergeDirective_by_same.
Qed.

(** X18. The merged attribute array does not depend on the order in which
    [Object.keys] lists the own keys of the HTML attributes, of the host
    attributes of a directive or of the merged object: with any enumeration
    of the keys in their place, the array is the same. *)
Theorem mergeHtmlAndDirectiveAttrs_any_key_order (declaredHtmlAttrs : JsObject string)
    (directives : list CompileDirectiveMetadata) :
  Forall (fun d => obj_wf (hostAttributes d)) directives ->
  mergeHtmlAndDirectiveAttrs_by declaredHtmlAttrs directives
  = _mergeHtmlAndDirectiveAttrs declaredHtmlAttrs directives.
Proof.
  intros Hwf.
  destruct (mergedObject_by_same declaredHtmlAttrs directives Hwf) as [Hwf1 Hsame].
  pose proof (mergedObject_wf declaredHtmlAttrs directives) as Hwf2.
  unfold mergeHtmlAndDirectiveAttrs_by, _mergeHtmlAndDirectiveAttrs,
    mapToKeyValueArray_by, mapToKeyValueArray.
  set (o1 := mergedObject_by declaredHtmlAttrs directives) in *.
  set (o2 := mergedObject declaredHtmlAttrs directives) in *.
  rewrite !entryArray_flat_map. cbn [app].
  assert (Hentries : forall o : JsObject string, obj_wf o ->
            flat_map (fun name => match obj_get o name with
                                  | Some v => [(name, v)]
                                  | None => []
                                  end) (Object_keys o) = o).
  { intros o Ho. pose proof (entryArray_flat_map o (Object_keys o) []) as H.
    cbn [app] in H. rewrite <- H.
    exact (entryArray_wf o o (fun k v => obj_in_get _ o k v Ho) []). }
  apply ListWrapper_sort_perm_eq.
  - eapply Permutation_NoDup; [|exact Hwf1].
    apply Permutation_map, Permutation_sym.
    eapply Permutation_trans; [apply Permutation_flat_map, keys_perm|].
    now rewrite Hentries.
  - eapply Permutation_trans; [apply Permutation_flat_map, keys_perm|].
    rewrite !Hentries by assumption.
    now apply same_properties_perm.
Qed.

End KeyOrder.


End AttrsFacts.

(** ** The output AST ([output/output_ast.ts], as far as it is built) *)

Inductive Identifiers :=
| EMPTY_ARRAY | EMPTY_MAP | QueryList | flattenNestedViewRenderNodes
| StaticNodeDebugInfo | RenderComponentType | ViewUtils | Injector | AppElement
| DebugAppView | AppView | SimpleChange | ValueUnwrapper.

(** What an [ExternalExpr] or [ExternalType] refers to: a well-known runtime
    identifier ([resolveIdentifier(Identifiers.X)]) or compile metadata. *)
Inductive ExternalReference :=
| resolveIdentifier (i : Identifiers)
| identifierOf (id : CompileIdentifierMetadata).

Inductive TypeModifier := TypeModifier_Const.
Inductive StmtModifier := StmtModifier_Final | StmtModifier_Private.
Inductive LiteralValue :=
| LitNull | LitString (s : string) | LitNumber (n : nat) | LitBool (b : bool).
Inductive BinaryOperator := Identical.

#[warnings="-register-all"]
Inductive OType :=
| DYNAMIC_TYPE | BOOL_TYPE | STRING_TYPE | NUMBER_TYPE
| ExternalType (value : ExternalReference) (typeParams : list OType)
    (modifiers : list TypeModifier)
| ArrayType (elementType : OType) (modifiers : list TypeModifier)
| MapType (valueType : OType) (modifiers : list TypeModifier).

Record FnParam := { param_name : string; param_type : option OType }.
Record ClassField := { field_name : string; field_type : option OType }.

#[warnings="-register-all"]
Inductive Expression :=
| ReadVarExpr (name : string)
| THIS_EXPR
| SUPER_EXPR
| ReadPropExpr (receiver : Expression) (name : string)
| ReadKeyExpr (receiver index : Expression) (type : option OType)
| WriteVarExpr (name : string) (value : Expression)
| WritePropExpr (receiver : Expression) (name : string) (value : Expression)
| InvokeMethodExpr (receiver : Expression) (name : string) (args : list Expression)
| InvokeFunctionExpr (fn : Expression) (args : list Expression)
| InstantiateExpr (classExpr : Expression) (args : list Expression) (type : option OType)
| LiteralExpr (value : LiteralValue)
| UNDEFINED
| ExternalExpr (value : ExternalReference) (typeParams : list OType)
| NotExpr (condition : Expression)
| BinaryOperatorExpr (operator : BinaryOperator) (lhs rhs : Expression)
| FunctionExpr (params : list FnParam) (statements : list Statement) (type : option OType)
| LiteralArrayExpr (entries : list Expression) (type : option OType)
| LiteralMapExpr (entries : list (string * Expression)) (type : option OType)
with Statement :=
| DeclareVarStmt (name : string) (value : Expression) (type : option OType)
    (modifiers : list StmtModifier)
| DeclareFunctionStmt (name : string) (params : list FnParam)
    (statements : list Statement) (type : option OType) (modifiers : list StmtModifier)
| ExpressionStatement (expr : Expression)
| ReturnStatement (value : Expression)
| ClassStmt (name : string) (parent : Expression) (fields : list ClassField)
    (getters : list ClassMethod) (constructorMethod : ClassMethod)
    (methods : list ClassMethod)
| IfStmt (condition : Expression) (trueCase : list Statement)
with ClassMethod :=
| MkClassMethod (name : option string) (params : list FnParam) (body : list Statement)
    (type : option OType).

Definition method_body (m : ClassMethod) : list Statement :=
  match m with MkClassMethod _ _ body _ => body end.
Definition method_params (m : ClassMethod) : list FnParam :=
  match m with MkClassMethod _ params _ _ => params end.

Definition NULL_EXPR : Expression := LiteralExpr LitNull.

(** [UNDEFINED] is JavaScript's [undefined] where the builder hands on a field
    that was never assigned; [x || y] on an expression that may be missing: *)
Definition or_else (x : option Expression) (y : Expression) : Expression :=
  match x with Some e => e | None => y end.
Definition variable (name : string) : Expression := ReadVarExpr name.
Definition literal_str (s : string) : Expression := LiteralExpr (LitString s).
Definition literal_num (n : nat) : Expression := LiteralExpr (LitNumber n).
Definition literal_bool (b : bool) : Expression := LiteralExpr (LitBool b).
Definition literalArr (values : list Expression) (type : option OType) : Expression :=
  LiteralArrayExpr values type.
Definition literalMap (entries : list (string * Expression)) (type : option OType)
  : Expression := LiteralMapExpr entries type.
Definition importExpr (id : ExternalReference) (typeParams : list OType) : Expression :=
  ExternalExpr id typeParams.
Definition importType (id : ExternalReference) (typeParams : list OType)
    (modifiers : list TypeModifier) : option OType :=
  Some (ExternalType id typeParams modifiers).
Definition prop (e : Expression) (name : string) : Expression := ReadPropExpr e name.
Definition key (e index : Expression) (type : option OType) : Expression :=
  ReadKeyExpr e index type.
Definition callMethod (e : Expression) (name : string) (args : list Expression)
  : Expression := InvokeMethodExpr e name args.
Definition callFn (e : Expression) (args : list Expression) : Expression :=
  InvokeFunctionExpr e args.
Definition instantiate (e : Expression) (args : list Expression) (type : option OType)
  : Expression := InstantiateExpr e args type.
Definition toStmt (e : Expression) : Statement := ExpressionStatement e.
Definition fn (params : list FnParam) (body : list Statement) (type : option OType)
  : Expression := FunctionExpr params body type.

(** [receiver.prop(name).set(value)] *)
Definition set_prop (receiver : Expression) (name : string) (value : Expression)
  : Expression := WritePropExpr receiver name value.

(** [o.variable(name).set(value).toDeclStmt(type, modifiers)] *)
Definition declare_var (name : string) (value : Expression) (type : option OType)
    (modifiers : list StmtModifier) : Statement :=
  DeclareVarStmt name value type modifiers.

(** Modelled from the spec: [compile_method.ts] is missing; a method buffer
    is "an ordered, append-only statement accumulator" with [add] and
    [finish]. *)
Definition CompileMethod := list Statement.
Definition addStmt (m : CompileMethod) (s : Statement) : CompileMethod := m ++ [s].
Definition addStmts (m : CompileMethod) (ss : list Statement) : CompileMethod := m ++ ss.
Definition finish (m : CompileMethod) : list Statement := m.
Definition isEmpty (m : CompileMethod) : bool :=
  match m with [] => true | _ => false end.

(** ** Compile nodes and compile views: what is fixed at construction *)

Record AnimationEntryCompileResult := { anim_name : string; anim_fnExp : Expression }.
Record CompilePipeMetadata := { pipe_name : string; pipe_pure : bool }.

(** The constructor arguments and derived expressions of a [CompileElement];
    [position] is where the element sits in its view's node list, which with
    the view's address identifies the object. *)
Record ElementData := {
  position : nat;
  el_component : option CompileDirectiveMetadata;
  el_directives : list CompileDirectiveMetadata;
  el_providers : list ProviderAst;
  el_hasViewContainer : bool;
  hasEmbeddedView : bool;
  el_references : list ReferenceAst;
  appElement : option Expression;
  injector : Expression
}.

(** [NullElement] is [CompileElement.createNull()]: no view, no render node.
    A node with no [ElementData] is a plain [CompileNode] (a text node). *)
Inductive CompileNode :=
| NullElement
| MkCompileNode (parent : CompileNode) (view : CompileView) (nodeIndex : nat)
    (renderNode : Expression) (sourceAst : TemplateAst) (element : option ElementData)
with CompileView :=
| MkCompileView (address : nat) (component : CompileDirectiveMetadata)
    (genConfig : CompilerConfig) (pipeMetas : list CompilePipeMetadata)
    (styles : Expression) (animations : list AnimationEntryCompileResult)
    (viewIndex : nat) (declarationElement : CompileNode)
    (templateVariableBindings : list (string * string)).

Definition isNull (n : CompileNode) : bool :=
  match n with NullElement => true | _ => false end.

Definition node_parent (n : CompileNode) : option CompileNode :=
  match n with MkCompileNode p _ _ _ _ _ => Some p | NullElement => None end.
Definition node_view (n : CompileNode) : option CompileView :=
  match n with MkCompileNode _ v _ _ _ _ => Some v | NullElement => None end.
Definition node_nodeIndex (n : CompileNode) : option nat :=
  match n with MkCompileNode _ _ i _ _ _ => Some i | NullElement => None end.
Definition node_renderNode (n : CompileNode) : option Expression :=
  match n with MkCompileNode _ _ _ r _ _ => Some r | NullElement => None end.
Definition node_sourceAst (n : CompileNode) : option TemplateAst :=
  match n with MkCompileNode _ _ _ _ a _ => Some a | NullElement => None end.
Definition node_element (n : CompileNode) : option ElementData :=
  match n with MkCompileNode _ _ _ _ _ e => e | NullElement => None end.

(** [node.component] *)
Definition node_component (n : CompileNode) : option CompileDirectiveMetadata :=
  match node_element n with Some e => el_component e | None => None end.
(** [node instanceof CompileElement && node.hasViewContainer] *)
Definition node_hasViewContainer (n : CompileNode) : bool :=
  match node_element n with Some e => el_hasViewContainer e | None => false end.
(** [node instanceof CompileElement && node.hasEmbeddedView] *)
Definition node_hasEmbeddedView (n : CompileNode) : bool :=
  match node_element n with Some e => hasEmbeddedView e | None => false end.
Definition node_appElement (n : CompileNode) : option Expression :=
  match node_element n with Some e => appElement e | None => None end.

Definition address (v : CompileView) : nat :=
  match v with MkCompileView a _ _ _ _ _ _ _ _ => a end.
Definition component (v : CompileView) : CompileDirectiveMetadata :=
  match v with MkCompileView _ c _ _ _ _ _ _ _ => c end.
Definition genConfig (v : CompileView) : CompilerConfig :=
  match v with MkCompileView _ _ g _ _ _ _ _ _ => g end.
Definition pipeMetas (v : CompileView) : list CompilePipeMetadata :=
  match v with MkCompileView _ _ _ p _ _ _ _ _ => p end.
Definition styles (v : CompileView) : Expression :=
  match v with MkCompileView _ _ _ _ s _ _ _ _ => s end.
Definition animations (v : CompileView) : list AnimationEntryCompileResult :=
  match v with MkCompileView _ _ _ _ _ a _ _ _ => a end.
Definition viewIndex (v : CompileView) : nat :=
  match v with MkCompileView _ _ _ _ _ _ i _ _ => i end.
Definition declarationElement (v : CompileView) : CompileNode :=
  match v with MkCompileView _ _ _ _ _ _ _ d _ => d end.
Definition templateVariableBindings (v : CompileView) : list (string * string) :=
  match v with MkCompileView _ _ _ _ _ _ _ _ b => b end.

(** [v === w] on views: the same object, that is the same address. *)
Definition view_same (v w : CompileView) : bool := Nat.eqb (address v) (address w).

(** [x === w] where [x] may be [null]. *)
Definition view_is (x : option CompileView) (w : CompileView) : bool :=
  match x with Some v => view_same v w | None => false end.

Definition getViewType (component : CompileDirectiveMetadata) (embeddedTemplateIndex : nat)
  : ViewType :=
  if (0 <? embeddedTemplateIndex)%nat then EMBEDDED
  else if isHost (dir_type component) then HOST
  else COMPONENT.

Definition viewType (v : CompileView) : ViewType :=
  getViewType (component v) (viewIndex v).

Definition className (v : CompileView) : string :=
  "_View_" +++ type_name (dir_type (component v)) +++ string_of_nat (viewIndex v).

Definition classType (v : CompileView) : option OType :=
  importType (identifierOf {| id_name := className v; id_moduleUrl := None |}) [] [].

(** ** Query values ([compile_query.ts]) *)

#[warnings="-register-all"]
Inductive QueryValue :=
| QueryExpr (e : Expression)
| QueryNested (v : ViewQueryValues)
with ViewQueryValues :=
| MkViewQueryValues (view : option CompileView) (values : list QueryValue).

Definition vqv_view (v : ViewQueryValues) : option CompileView :=
  match v with MkViewQueryValues view _ => view end.
Definition vqv_values (v : ViewQueryValues) : list QueryValue :=
  match v with MkViewQueryValues _ values => values end.

Record CompileQuery := {
  meta : CompileQueryMetadata;
  queryList : Expression;
  ownerDirectiveExpression : option Expression;
  query_view : CompileView;
  _values : ViewQueryValues
}.

(** ** The mutable state of a compilation *)

(** The method buffers of a [CompileView], by the name of the field. *)
Inductive MethodName :=
| createMethod | animationBindingsMethod | injectorGetMethod
| updateContentQueriesMethod | dirtyParentQueriesMethod | updateViewQueriesMethod
| detectChangesInInputsMethod | detectChangesRenderPropertiesMethod
| afterContentLifecycleCallbacksMethod | afterViewLifecycleCallbacksMethod
| destroyMethod | detachMethod.

Definition MethodName_eqb (a b : MethodName) : bool :=
  match a, b with
  | createMethod, createMethod
  | animationBindingsMethod, animationBindingsMethod
  | injectorGetMethod, injectorGetMethod
  | updateContentQueriesMethod, updateContentQueriesMethod
  | dirtyParentQueriesMethod, dirtyParentQueriesMethod
  | updateViewQueriesMethod, updateViewQueriesMethod
  | detectChangesInInputsMethod, detectChangesInInputsMethod
  | detectChangesRenderPropertiesMethod, detectChangesRenderPropertiesMethod
  | afterContentLifecycleCallbacksMethod, afterContentLifecycleCallbacksMethod
  | afterViewLifecycleCallbacksMethod, afterViewLifecycleCallbacksMethod
  | destroyMethod, destroyMethod
  | detachMethod, detachMethod => true
  | _, _ => false
  end.

(** The fields of a [CompileView] that hold generated code. [locals] is a
    [Map] from names to expressions, [viewQueries] a [Map] from a selector's
    reference to the addresses of the queries registered for it. *)
Record ViewBuffers := {
  fields : list ClassField;
  getters : list ClassMethod;
  methods : MethodName -> CompileMethod;
  eventHandlerMethods : list ClassMethod;
  disposables : list Expression;
  subscriptions : list Expression;
  locals : JsObject Expression;
  literalArrayCount : nat;
  literalMapCount : nat;
  pipeCount : nat;
  viewQueries : JsObject (list nat)
}.

Definition emptyBuffers : ViewBuffers :=
  {| fields := []; getters := []; methods := fun _ => [];
     eventHandlerMethods := []; disposables := []; subscriptions := [];
     locals := []; literalArrayCount := 0; literalMapCount := 0; pipeCount := 0;
     viewQueries := [] |}.

Definition with_fields (b : ViewBuffers) (x : list ClassField) : ViewBuffers :=
  {| fields := x; getters := getters b; methods := methods b;
     eventHandlerMethods := eventHandlerMethods b; disposables := disposables b;
     subscriptions := subscriptions b; locals := locals b;
     literalArrayCount := literalArrayCount b; literalMapCount := literalMapCount b;
     pipeCount := pipeCount b; viewQueries := viewQueries b |}.

Definition with_methods (b : ViewBuffers) (x : MethodName -> CompileMethod) : ViewBuffers :=
  {| fields := fields b; getters := getters b; methods := x;
     eventHandlerMethods := eventHandlerMethods b; disposables := disposables b;
     subscriptions := subscriptions b; locals := locals b;
     literalArrayCount := literalArrayCount b; literalMapCount := literalMapCount b;
     pipeCount := pipeCount b; viewQueries := viewQueries b |}.

Definition with_locals (b : ViewBuffers) (x : JsObject Expression) : ViewBuffers :=
  {| fields := fields b; getters := getters b; methods := methods b;
     eventHandlerMethods := eventHandlerMethods b; disposables := disposables b;
     subscriptions := subscriptions b; locals := x;
     literalArrayCount := literalArrayCount b; literalMapCount := literalMapCount b;
     pipeCount := pipeCount b; viewQueries := viewQueries b |}.

Definition with_literalArrayCount (b : ViewBuffers) (x : nat) : ViewBuffers :=
  {| fields := fields b; getters := getters b; methods := methods b;
     eventHandlerMethods := eventHandlerMethods b; disposables := disposables b;
     subscriptions := subscriptions b; locals := locals b;
     literalArrayCount := x; literalMapCount := literalMapCount b;
     pipeCount := pipeCount b; viewQueries := viewQueries b |}.

Definition with_literalMapCount (b : ViewBuffers) (x : nat) : ViewBuffers :=
  {| fields := fields b; getters := getters b; methods := methods b;
     eventHandlerMethods := eventHandlerMethods b; disposables := disposables b;
     subscriptions := subscriptions b; locals := locals b;
     literalArrayCount := literalArrayCount b; literalMapCount := x;
     pipeCount := pipeCount b; viewQueries := viewQueries b |}.

Definition with_viewQueries (b : ViewBuffers) (x : JsObject (list nat)) : ViewBuffers :=
  {| fields := fields b; getters := getters b; methods := methods b;
     eventHandlerMethods := eventHandlerMethods b; disposables := disposables b;
     subscriptions := subscriptions b; locals := locals b;
     literalArrayCount := literalArrayCount b; literalMapCount := literalMapCount b;
     pipeCount := pipeCount b; viewQueries := x |}.

(** [b.method.addStmt(s)], [b.method.addStmts(ss)], [b.fields.push(f)] *)
Definition method_addStmts (b : ViewBuffers) (m : MethodName) (ss : list Statement)
  : ViewBuffers :=
  with_methods b
    (fun m' => if MethodName_eqb m m' then addStmts (methods b m') ss else methods b m').

Definition method_addStmt (b : ViewBuffers) (m : MethodName) (s : Statement)
  : ViewBuffers :=
  with_methods b
    (fun m' => if MethodName_eqb m m' then addStmt (methods b m') s else methods b m').

Definition fields_push (b : ViewBuffers) (f : ClassField) : ViewBuffers :=
  with_fields b (fields b ++ [f]).

Definition upd {A : Type} (f : nat -> A) (a : nat) (x : A) : nat -> A :=
  fun a' => if Nat.eqb a a' then x else f a'.

Section ViewCompiler.

Set Default Proof Using "Type".

(** *** Code that is not in the sources, as parameters *)

(** [constants.ts]: the well-known expressions and variable names. *)
Variables ViewProperties_renderer ViewProperties_projectableNodes
  ViewProperties_viewUtils : Expression.
Variable EventHandlerVars_event : string.
Variables ViewConstructorVars_viewUtils ViewConstructorVars_parentInjector
  ViewConstructorVars_declarationEl : string.
Variables InjectMethodVars_token InjectMethodVars_requestNodeIndex
  InjectMethodVars_notFoundResult : string.
Variables DetectChangesVars_throwOnChange DetectChangesVars_changes
  DetectChangesVars_changed DetectChangesVars_valUnwrapper : string.
Variable ViewTypeEnum_fromValue : ViewType -> Expression.
Variable ChangeDetectorStatusEnum_fromValue : ChangeDetectorStatus -> Expression.
Variable ViewEncapsulationEnum_fromValue : ViewEncapsulation -> Expression.

(** [util.ts], [identifiers.ts], [output_ast.ts], [private_import_core.ts] *)
Variable getPropertyInView : Expression -> CompileView -> CompileView -> Expression.
Variable getViewFactoryName : CompileDirectiveMetadata -> nat -> string.
Variable createFlatArray : list Expression -> Expression.
Variable createDiTokenExpression : CompileTokenMetadata -> Expression.
Variable identifierToken : CompileIdentifierMetadata -> CompileTokenMetadata.
Variable replaceVarInExpression_this : Expression -> Expression -> Expression.
Variable findReadVarNames : list Statement -> list string.
Variable isDefaultChangeDetectionStrategy : ChangeDetectionStrategy -> bool.

(** The state that the classes missing from the sources keep for themselves
    (the providers, instances and queries of a [CompileElement]). *)
Variable ElementPrivate : Type.

(** The generated code of a compilation: the buffers of every view (by the
    view's address), the [CompileQuery] objects (by address) and the private
    state above. The missing methods act on this part of the state only. *)
Record Gen := {
  buffers : nat -> ViewBuffers;
  queries : list CompileQuery;
  elementPrivate : ElementPrivate
}.

(** The state of a compilation. [views] are the [CompileView] objects in the
    order they were constructed, a view's address being its place there;
    [nodes] and [rootNodesOrAppElements] are the fields of the view at an
    address; [embeddedView] and [contentNodesByNgContentIndex] are the fields
    of the element at a view address and a position. *)
Record Store := {
  views : list CompileView;
  nodes : nat -> list CompileNode;
  rootNodesOrAppElements : nat -> list Expression;
  embeddedView : nat -> nat -> option CompileView;
  contentNodesByNgContentIndex : nat -> nat -> nat -> list Expression;
  gen : Gen
}.

Definition with_gen (st : Store) (g : Gen) : Store :=
  {| views := views st; nodes := nodes st;
     rootNodesOrAppElements := rootNodesOrAppElements st;
     embeddedView := embeddedView st;
     contentNodesByNgContentIndex := contentNodesByNgContentIndex st; gen := g |}.

Definition with_buffers (g : Gen) (v : CompileView) (b : ViewBuffers) : Gen :=
  {| buffers := upd (buffers g) (address v) b; queries := queries g;
     elementPrivate := elementPrivate g |}.

Definition buffers_of (g : Gen) (v : CompileView) : ViewBuffers := buffers g (address v).

(** [util.ts]: [createPureProxy(fn, argCount, pureProxyProp, view)]. *)
Variable createPureProxy : Expression -> nat -> Expression -> CompileView -> Gen -> Gen.

(** [compile_method.ts]: [view.createMethod.resetDebugInfoExpr(nodeIndex, ast)]. *)
Variable resetDebugInfoExpr : CompileView -> nat -> TemplateAst -> Expression.

(** [compile_element.ts]: the derived fields and the methods of
    [CompileElement]; each method is given the element and the state and
    returns the generated code after it. *)
Variable CompileElement_appElement :
  CompileView -> nat -> option CompileDirectiveMetadata -> bool -> bool -> option Expression.
Variable CompileElement_injector : CompileView -> nat -> Expression.
Variable CompileElement_new : CompileNode -> Store -> Gen.
Variable createComponentFactoryResolver :
  CompileNode -> list CompileIdentifierMetadata -> Store -> Gen.
Variable setComponentView : CompileNode -> Expression -> Store -> Gen.
Variable getComponent : CompileNode -> Store -> Expression.
Variable beforeChildren : CompileNode -> Store -> Gen.
Variable afterChildren_el : CompileNode -> nat -> Store -> Gen.
Variable setEmbeddedView_gen : CompileNode -> CompileView -> Store -> Gen.
Variable getProviderTokens : CompileNode -> Store -> list Expression.
Variable referenceTokens : CompileNode -> JsObject (option CompileTokenMetadata).

(** *** [CompileView]: locals and literals ([compile_view.ts]) *)

(** The loop of [getLocal]: the first view of the declaration chain, from
    [currView] outward, whose [locals] bind [name], with the binding. *)
Fixpoint getLocal_loop (g : Gen) (currView : CompileView) (name : string)
  {struct currView} : option (Expression * CompileView) :=
  match obj_get (locals (buffers_of g currView)) name with
  | Some result => Some (result, currView)
  | None =>
      match currView with
      | MkCompileView _ _ _ _ _ _ _ declEl _ =>
          match declEl with
          | MkCompileNode _ v _ _ _ _ => getLocal_loop g v name
          | NullElement => None
          end
      end
  end.

Definition getLocal (this : CompileView) (name : string) (g : Gen) : option Expression :=
  if String.eqb name EventHandlerVars_event then Some (ReadVarExpr EventHandlerVars_event)
  else
    match getLocal_loop g this name with
    | Some (result, currView) => Some (getPropertyInView result this currView)
    | None => None
    end.

Definition proxyParamName (i : nat) : string := "p" +++ string_of_nat i.

Definition createLiteralArray (this : CompileView) (values : list Expression) (g : Gen)
  : Expression * Gen :=
  match values with
  | [] => (importExpr (resolveIdentifier EMPTY_ARRAY) [], g)
  | _ =>
      let b := buffers_of g this in
      let proxyExpr := prop THIS_EXPR ("_arr_" +++ string_of_nat (literalArrayCount b)) in
      let g1 := with_buffers g this (with_literalArrayCount b (S (literalArrayCount b))) in
      let indices := seq 0 (List.length values) in
      let proxyParams :=
        map (fun i => {| param_name := proxyParamName i; param_type := None |}) indices in
      let proxyReturnEntries := map (fun i => variable (proxyParamName i)) indices in
      let g2 :=
        createPureProxy
          (fn proxyParams [ReturnStatement (literalArr proxyReturnEntries None)]
             (Some (ArrayType DYNAMIC_TYPE [])))
          (List.length values) proxyExpr this g1 in
      (callFn proxyExpr values, g2)
  end.

Definition createLiteralMap (this : CompileView) (entries : list (string * Expression))
    (g : Gen) : Expression * Gen :=
  match entries with
  | [] => (importExpr (resolveIdentifier EMPTY_MAP) [], g)
  | _ =>
      let b := buffers_of g this in
      let proxyExpr := prop THIS_EXPR ("_map_" +++ string_of_nat (literalMapCount b)) in
      let g1 := with_buffers g this (with_literalMapCount b (S (literalMapCount b))) in
      let indexed := combine (seq 0 (List.length entries)) entries in
      let proxyParams :=
        map (fun ie => {| param_name := proxyParamName (fst ie); param_type := None |})
          indexed in
      let proxyReturnEntries :=
        map (fun ie => (fst (snd ie), variable (proxyParamName (fst ie)))) indexed in
      let values := map (fun ie => snd (snd ie)) indexed in
      let g2 :=
        createPureProxy
          (fn proxyParams [ReturnStatement (literalMap proxyReturnEntries None)]
             (Some (MapType DYNAMIC_TYPE [])))
          (List.length entries) proxyExpr this g1 in
      (callFn proxyExpr values, g2)
  end.

(** *** [CompileQuery] ([compile_query.ts]) *)

(** [el.embeddedView]; the null element has none. *)
Definition node_embeddedView (st : Store) (el : CompileNode) : option CompileView :=
  match el with
  | MkCompileNode _ v _ _ _ (Some e) => embeddedView st (address v) (position e)
  | _ => None
  end.

(** The first loop of [addValue]: from [currentView] up the declaration
    elements until the query's view (or no view) is reached; [unshift] puts
    each element in front, so the path reads from the query's view inward. *)
Fixpoint elPath_loop (this_view currentView : CompileView) (elPath : list CompileNode)
  {struct currentView} : list CompileNode :=
  if view_same currentView this_view then elPath
  else
    match currentView with
    | MkCompileView _ _ _ _ _ _ _ parentEl _ =>
        match parentEl with
        | MkCompileNode _ v _ _ _ _ => elPath_loop this_view v (parentEl :: elPath)
        | NullElement => parentEl :: elPath
        end
    end.

(** [last.view === el.embeddedView], where either may be [undefined]. *)
Definition same_view_opt (a b : option CompileView) : bool :=
  match a, b with
  | Some v, Some w => view_same v w
  | None, None => true
  | _, _ => false
  end.

(** [elPath.forEach(...)] followed by [viewValues.values.push(value)]: the
    cursor [viewValues] moves into the last entry when that is the subtree of
    the element's embedded view, and into a new last entry otherwise. *)
Fixpoint pushValue (embeddedViews : list (option CompileView)) (value : Expression)
    (viewValues : ViewQueryValues) : ViewQueryValues :=
  match embeddedViews with
  | [] => MkViewQueryValues (vqv_view viewValues) (vqv_values viewValues ++ [QueryExpr value])
  | ev :: rest =>
      let values := vqv_values viewValues in
      match last (map Some values) None with
      | Some (QueryNested lastValues) =>
          if same_view_opt (vqv_view lastValues) ev then
            MkViewQueryValues (vqv_view viewValues)
              (removelast values ++ [QueryNested (pushValue rest value lastValues)])
          else
            MkViewQueryValues (vqv_view viewValues)
              (values ++ [QueryNested (pushValue rest value (MkViewQueryValues ev []))])
      | _ =>
          MkViewQueryValues (vqv_view viewValues)
            (values ++ [QueryNested (pushValue rest value (MkViewQueryValues ev []))])
      end
  end.

Definition with_values (q : CompileQuery) (v : ViewQueryValues) : CompileQuery :=
  {| meta := meta q; queryList := queryList q;
     ownerDirectiveExpression := ownerDirectiveExpression q;
     query_view := query_view q; _values := v |}.

Definition elPath (q : CompileQuery) (view : CompileView) : list CompileNode :=
  elPath_loop (query_view q) view [].

(** [addValue] changes the query and the originating view's
    [dirtyParentQueriesMethod]; it returns the query and the state after. *)
Definition addValue (q : CompileQuery) (value : Expression) (view : CompileView)
    (st : Store) : CompileQuery * Store :=
  let elPath := elPath q view in
  let queryListForDirtyExpr := getPropertyInView (queryList q) view (query_view q) in
  let q' := with_values q (pushValue (map (node_embeddedView st) elPath) value (_values q)) in
  match elPath with
  | [] => (q', st)
  | _ =>
      (q', with_gen st
             (with_buffers (gen st) view
                (method_addStmt (buffers_of (gen st) view) dirtyParentQueriesMethod
                   (toStmt (callMethod queryListForDirtyExpr "setDirty" [])))))
  end.

Definition is_nested (value : QueryValue) : bool :=
  match value with QueryNested _ => true | QueryExpr _ => false end.

Definition _isStatic (q : CompileQuery) : bool :=
  negb (existsb is_nested (vqv_values (_values q))).

Definition mapNestedViews (declarationAppElement : Expression) (view : CompileView)
    (expressions : list Expression) : Expression :=
  let adjustedExpressions :=
    map (replaceVarInExpression_this (variable "nestedView")) expressions in
  callMethod declarationAppElement "mapNestedViews"
    [variable (className view);
     fn [{| param_name := "nestedView"; param_type := classType view |}]
       [ReturnStatement (literalArr adjustedExpressions None)] (Some DYNAMIC_TYPE)].

(** Modelled from the spec: [ListWrapper.flatten] of [facade/collection] is
    missing; it "flattens ... into an ordered sequence". Every entry mapped
    by [createQueryValues] is one expression, so there is no array to splice
    and the sequence is the mapped list. *)
Definition ListWrapper_flatten (l : list Expression) : list Expression := l.

(** [values.map(f)] where [f] may raise: [None] as soon as one call does. *)
Fixpoint map_or_raise {A B : Type} (f : A -> option B) (l : list A) : option (list B) :=
  match l with
  | [] => Some []
  | x :: rest =>
      match f x with
      | Some y => option_map (cons y) (map_or_raise f rest)
      | None => None
      end
  end.

(** The function mapped by [createQueryValues], over the recursive call.
    [None] stands for the [TypeError] of a subtree without a view, or of a
    view whose declaration element has no app element. *)
Definition expandEntry (createQueryValues : ViewQueryValues -> option (list Expression))
    (entry : QueryValue) : option Expression :=
  match entry with
  | QueryNested sub =>
      match vqv_view sub, createQueryValues sub with
      | Some v, Some exprs =>
          match node_appElement (declarationElement v) with
          | Some appEl => Some (mapNestedViews appEl v exprs)
          | None => None
          end
      | _, _ => None
      end
  | QueryExpr e => Some e
  end.

Fixpoint createQueryValues (viewValues : ViewQueryValues) : option (list Expression) :=
  match viewValues with
  | MkViewQueryValues _ values =>
      option_map ListWrapper_flatten (map_or_raise (expandEntry createQueryValues) values)
  end.

(** The statements of [afterChildren], before they are placed. *)
Definition updateStmts (q : CompileQuery) (values : list Expression) : list Statement :=
  [toStmt (callMethod (queryList q) "reset" [literalArr values None])]
  ++ match ownerDirectiveExpression q with
     | Some owner =>
         let valueExpr :=
           if first (meta q) then prop (queryList q) "first" else queryList q in
         [toStmt (set_prop owner (propertyName (meta q)) valueExpr)]
     | None => []
     end
  ++ (if first (meta q) then []
      else [toStmt (callMethod (queryList q) "notifyOnChanges" [])]).

(** [afterChildren] on two distinct method buffers, returned after the call. *)
Definition afterChildren (q : CompileQuery) (targetStaticMethod targetDynamicMethod : CompileMethod)
  : option (CompileMethod * CompileMethod) :=
  match createQueryValues (_values q) with
  | None => None
  | Some values =>
      let updateStmts := updateStmts q values in
      if first (meta q) && _isStatic q
      then Some (addStmts targetStaticMethod updateStmts, targetDynamicMethod)
      else Some (targetStaticMethod,
                 addStmt targetDynamicMethod
                   (IfStmt (prop (queryList q) "dirty") updateStmts))
  end.

Definition createQueryList (query : CompileQueryMetadata) (directiveInstance : option Expression)
    (propertyName : string) (compileView : CompileView) (g : Gen) : Expression * Gen :=
  let b := buffers_of g compileView in
  let b1 :=
    fields_push b
      {| field_name := propertyName;
         field_type := importType (resolveIdentifier QueryList) [DYNAMIC_TYPE] [] |} in
  let expr := prop THIS_EXPR propertyName in
  let b2 :=
    method_addStmt b1 createMethod
      (toStmt
         (set_prop THIS_EXPR propertyName
            (instantiate (importExpr (resolveIdentifier QueryList) [DYNAMIC_TYPE]) [] None))) in
  (expr, with_buffers g compileView b2).

Definition addQueryToTokenMap (map : JsObject (list nat)) (query : nat)
    (meta : CompileQueryMetadata) : JsObject (list nat) :=
  fold_left
    (fun map selector =>
       match obj_get map (token_reference selector) with
       | Some entry => obj_set map (token_reference selector) (entry ++ [query])
       | None => obj_set map (token_reference selector) [query]
       end)
    (selectors meta) map.

(** *** Constructing a [CompileView] ([compile_view.ts]) *)

Definition with_queries (g : Gen) (qs : list CompileQuery) : Gen :=
  {| buffers := buffers g; queries := qs; elementPrivate := elementPrivate g |}.

(** [new CompileQuery(meta, queryList, owner, view)], placed in the heap;
    the result is its address. *)
Definition new_CompileQuery (meta : CompileQueryMetadata) (queryList : Expression)
    (owner : option Expression) (view : CompileView) (g : Gen) : nat * Gen :=
  (List.length (queries g),
   with_queries g
     (queries g ++
      [{| meta := meta; queryList := queryList; ownerDirectiveExpression := owner;
          query_view := view; _values := MkViewQueryValues (Some view) [] |}])).

(** Modelled from the spec: [CompileElement.setEmbeddedView] is missing; the
    element is "mutated ... to record the owned embedded view". What else it
    generates is [setEmbeddedView_gen]. *)
Definition setEmbeddedView (el : CompileNode) (embedded : CompileView) (st : Store) : Store :=
  let st' :=
    match el with
    | MkCompileNode _ v _ _ _ (Some e) =>
        {| views := views st; nodes := nodes st;
           rootNodesOrAppElements := rootNodesOrAppElements st;
           embeddedView :=
             upd (embeddedView st) (address v)
               (upd (embeddedView st (address v)) (position e) (Some embedded));
           contentNodesByNgContentIndex := contentNodesByNgContentIndex st;
           gen := gen st |}
    | _ => st
    end in
  with_gen st' (setEmbeddedView_gen el embedded st').

(** The view queries of the constructor: the component's [viewQueries], then
    the view queries among the constructor dependencies. *)
Definition declareViewQueries (this : CompileView) (g : Gen) : Gen :=
  let directiveInstance := prop THIS_EXPR "context" in
  let step1 :=
    fold_left
      (fun (acc : Gen * JsObject (list nat)) (iq : nat * CompileQueryMetadata) =>
         let '(g, viewQueries) := acc in
         let '(queryIndex, queryMeta) := iq in
         let propName :=
           "_viewQuery_" +++ token_name (selector0 queryMeta) +++ "_"
           +++ string_of_nat queryIndex in
         let '(queryList, g1) :=
           createQueryList queryMeta (Some directiveInstance) propName this g in
         let '(query, g2) :=
           new_CompileQuery queryMeta queryList (Some directiveInstance) this g1 in
         (g2, addQueryToTokenMap viewQueries query queryMeta))
      (combine (seq 0 (List.length (dir_viewQueries (component this))))
         (dir_viewQueries (component this)))
      (g, []) in
  let step2 :=
    fold_left
      (fun (acc : Gen * JsObject (list nat) * nat) (dep : CompileDiDependencyMetadata) =>
         let '(g, viewQueries, constructorViewQueryCount) := acc in
         match dep_viewQuery dep with
         | Some viewQuery =>
             let queryList :=
               key (prop (prop THIS_EXPR "declarationAppElement")
                      "componentConstructorViewQueries")
                 (literal_num constructorViewQueryCount) None in
             let '(query, g1) := new_CompileQuery viewQuery queryList None this g in
             (g1, addQueryToTokenMap viewQueries query viewQuery,
              S constructorViewQueryCount)
         | None => acc
         end)
      (diDeps (dir_type (component this)))
      (fst step1, snd step1, 0) in
  let '(g', viewQueries, _) := step2 in
  with_buffers g' this (with_viewQueries (buffers_of g' this) viewQueries).

(** [new CompileView(...)]: the object gets the next address and empty
    fields. A component's or host's own view is its [componentView]; an
    embedded view reads it off its declaration element's view, which the
    constructor needs to exist. *)
Definition new_CompileView (component : CompileDirectiveMetadata)
    (genConfig : CompilerConfig) (pipeMetas : list CompilePipeMetadata)
    (styles : Expression) (animations : list AnimationEntryCompileResult)
    (viewIndex : nat) (declarationElement : CompileNode)
    (templateVariableBindings : list (string * string)) (st : Store)
  : CompileView * Store :=
  let this :=
    MkCompileView (List.length (views st)) component genConfig pipeMetas styles
      animations viewIndex declarationElement templateVariableBindings in
  let a := address this in
  let g0 := with_buffers (gen st) this emptyBuffers in
  let g1 :=
    if ViewType_eqb (viewType this) COMPONENT then declareViewQueries this g0 else g0 in
  let g2 :=
    fold_left
      (fun g entry =>
         with_buffers g this
           (with_locals (buffers_of g this)
              (obj_set (locals (buffers_of g this)) (snd entry)
                 (prop (prop THIS_EXPR "context") (fst entry)))))
      templateVariableBindings g1 in
  let st1 :=
    {| views := views st ++ [this];
       nodes := upd (nodes st) a [];
       rootNodesOrAppElements := upd (rootNodesOrAppElements st) a [];
       embeddedView := upd (embeddedView st) a (fun _ => None);
       contentNodesByNgContentIndex :=
         upd (contentNodesByNgContentIndex st) a (fun _ _ => []);
       gen := g2 |} in
  match declarationElement with
  | NullElement => (this, st1)
  | _ => (this, setEmbeddedView declarationElement this st1)
  end.

(** *** The builder ([view_builder.ts]) *)

Inductive Dependency :=
| ViewFactoryDependency (comp placeholder : CompileIdentifierMetadata)
| ComponentFactoryDependency (comp placeholder : CompileIdentifierMetadata).

Definition parentRenderNodeVar : Expression := variable "parentRenderNode".
Definition rootSelectorVar : Expression := variable "rootSelector".

(** The state a [ViewBuilderVisitor] works on: the compilation state, its
    own [nestedViewCount], and the [targetDependencies] array it shares with
    its caller. The visitor's [view] never changes and is an argument. *)
Record Builder := {
  store : Store;
  nestedViewCount : nat;
  targetDependencies : list Dependency
}.

Definition with_store (b : Builder) (st : Store) : Builder :=
  {| store := st; nestedViewCount := nestedViewCount b;
     targetDependencies := targetDependencies b |}.

Definition _isRootNode (this_view : CompileView) (parent : CompileNode) : bool :=
  negb (view_is (node_view parent) this_view).

Definition _isNgContainer (node : CompileNode) (view : option CompileView) : bool :=
  match node with
  | NullElement => false
  | MkCompileNode _ v _ _ ast _ =>
      match ast_name ast with
      | Some n => String.eqb n NG_CONTAINER_TAG
      | None => false
      end
      && same_view_opt (Some v) view
  end.

(** The loop of [_getOuterContainerOrSelf]; the null element has no parent to
    look at and is never passed. *)
Fixpoint outerContainerOrSelf_loop (view : option CompileView) (node : CompileNode)
  : CompileNode :=
  match node with
  | NullElement => NullElement
  | MkCompileNode parent _ _ _ _ _ =>
      if _isNgContainer parent view then outerContainerOrSelf_loop view parent else node
  end.

Definition _getOuterContainerOrSelf (node : CompileNode) : CompileNode :=
  outerContainerOrSelf_loop (node_view node) node.

Fixpoint outerContainerParentOrSelf_loop (view : option CompileView) (el : CompileNode)
  : CompileNode :=
  match el with
  | NullElement => NullElement
  | MkCompileNode parent _ _ _ _ _ =>
      if _isNgContainer el view then outerContainerParentOrSelf_loop view parent else el
  end.

Definition _getOuterContainerParentOrSelf (el : CompileNode) : CompileNode :=
  outerContainerParentOrSelf_loop (node_view el) el.

(** State updates of the builder. *)
Definition nodes_push (st : Store) (v : CompileView) (n : CompileNode) : Store :=
  {| views := views st; nodes := upd (nodes st) (address v) (nodes st (address v) ++ [n]);
     rootNodesOrAppElements := rootNodesOrAppElements st;
     embeddedView := embeddedView st;
     contentNodesByNgContentIndex := contentNodesByNgContentIndex st; gen := gen st |}.

Definition rootNodes_push (st : Store) (v : CompileView) (e : Expression) : Store :=
  {| views := views st; nodes := nodes st;
     rootNodesOrAppElements :=
       upd (rootNodesOrAppElements st) (address v)
         (rootNodesOrAppElements st (address v) ++ [e]);
     embeddedView := embeddedView st;
     contentNodesByNgContentIndex := contentNodesByNgContentIndex st; gen := gen st |}.

(** Modelled from the spec: [CompileElement.addContentNode] is missing; the
    element holds "a map from content-projection index to the list of
    projected node references", and the node goes last in its list. *)
Definition addContentNode (parent : CompileNode) (ngContentIndex : nat) (e : Expression)
    (st : Store) : Store :=
  match parent with
  | MkCompileNode _ v _ _ _ (Some ed) =>
      let a := address v in
      let p := position ed in
      let buckets := contentNodesByNgContentIndex st a p in
      {| views := views st; nodes := nodes st;
         rootNodesOrAppElements := rootNodesOrAppElements st;
         embeddedView := embeddedView st;
         contentNodesByNgContentIndex :=
           upd (contentNodesByNgContentIndex st) a
             (upd (contentNodesByNgContentIndex st a) p
                (upd buckets ngContentIndex (buckets ngContentIndex ++ [e])));
         gen := gen st |}
  | _ => st
  end.

Definition field_push (st : Store) (v : CompileView) (f : ClassField) : Store :=
  with_gen st (with_buffers (gen st) v (fields_push (buffers_of (gen st) v) f)).

Definition createMethod_addStmt (st : Store) (v : CompileView) (s : Statement) : Store :=
  with_gen st
    (with_buffers (gen st) v (method_addStmt (buffers_of (gen st) v) createMethod s)).

Definition _addRootNodeAndProject (this_view : CompileView) (node : CompileNode) (st : Store)
  : Store :=
  let projectedNode := _getOuterContainerOrSelf node in
  match node, projectedNode with
  | MkCompileNode _ _ _ renderNode _ _, MkCompileNode parent _ _ _ projectedAst _ =>
      let ngContentIndex := ast_ngContentIndex projectedAst in
      let vcAppEl := if node_hasViewContainer node then node_appElement node else None in
      if _isRootNode this_view parent then
        if negb (ViewType_eqb (viewType this_view) COMPONENT)
        then rootNodes_push st this_view (or_else vcAppEl renderNode)
        else st
      else
        match node_component parent, ngContentIndex with
        | Some _, Some i => addContentNode parent i (or_else vcAppEl renderNode) st
        | _, _ => st
        end
  | _, _ => st
  end.

Definition _getParentRenderNode (this_view : CompileView) (parent : CompileNode) : Expression :=
  let parent := _getOuterContainerParentOrSelf parent in
  if _isRootNode this_view parent then
    if ViewType_eqb (viewType this_view) COMPONENT then parentRenderNodeVar else NULL_EXPR
  else
    match node_component parent with
    | Some c =>
        if negb (ViewEncapsulation_eqb (encapsulation (template c)) Native)
        then NULL_EXPR
        else or_else (node_renderNode parent) UNDEFINED
    | None => or_else (node_renderNode parent) UNDEFINED
    end.

Definition _visitText (ast : TemplateAst) (value : string) (parent : CompileNode)
    (view : CompileView) (b : Builder) : Builder :=
  let st := store b in
  let n := List.length (nodes st (address view)) in
  let fieldName := "_text_" +++ string_of_nat n in
  let st1 :=
    field_push st view
      {| field_name := fieldName;
         field_type := importType (identifierOf (renderText (renderTypes (genConfig view)))) [] [] |} in
  let renderNode := prop THIS_EXPR fieldName in
  let compileNode := MkCompileNode parent view n renderNode ast None in
  let createRenderNode :=
    toStmt
      (set_prop THIS_EXPR fieldName
         (callMethod ViewProperties_renderer "createText"
            [_getParentRenderNode view parent; literal_str value;
             resetDebugInfoExpr view n ast])) in
  let st2 := nodes_push st1 view compileNode in
  let st3 := createMethod_addStmt st2 view createRenderNode in
  with_store b (_addRootNodeAndProject view compileNode st3).

(** [parentRenderNode !== o.NULL_EXPR]: a render node is a property read,
    so only the null literal is the null expression. *)
Definition is_NULL_EXPR (e : Expression) : bool :=
  match e with LiteralExpr LitNull => true | _ => false end.

Definition visitNgContent (index : nat) (ngContentIndex : option nat) (parent : CompileNode)
    (view : CompileView) (b : Builder) : Builder :=
  let st := store b in
  let parentRenderNode := _getParentRenderNode view parent in
  let nodesExpression :=
    key ViewProperties_projectableNodes (literal_num index)
      (option_map (fun t => ArrayType t [])
         (importType (identifierOf (renderNode (renderTypes (genConfig view)))) [] [])) in
  if negb (is_NULL_EXPR parentRenderNode) then
    with_store b
      (createMethod_addStmt st view
         (toStmt
            (callMethod ViewProperties_renderer "projectNodes"
               [parentRenderNode;
                callFn (importExpr (resolveIdentifier flattenNestedViewRenderNodes) [])
                  [nodesExpression]])))
  else if _isRootNode view parent then
    if negb (ViewType_eqb (viewType view) COMPONENT)
    then with_store b (rootNodes_push st view nodesExpression)
    else b
  else
    match node_component parent, ngContentIndex with
    | Some _, Some i => with_store b (addContentNode parent i nodesExpression st)
    | _, _ => b
    end.

(** The loop of [visitElement] over the merged attributes. *)
Definition setAttributeStmts (astName : string) (renderNode : Expression)
    (attrNameAndValues : list (string * string)) : list Statement :=
  flat_map
    (fun entry =>
       if negb (String.eqb astName NG_CONTAINER_TAG) then
         [toStmt
            (callMethod ViewProperties_renderer "setElementAttribute"
               [renderNode; literal_str (fst entry); literal_str (snd entry)])]
       else [])
    attrNameAndValues.

(** The attribute statements of [visitElement]: the HTML attributes read,
    merged with the host attributes of the directives, one statement per
    entry of the merged array in its order. *)
Definition elementAttributeStmts (name : string) (attrs : list AttrAst)
    (directives : list CompileDirectiveMetadata) (renderNode : Expression)
  : list Statement :=
  let htmlAttrs := Attrs._readHtmlAttrs attrs in
  let attrNameAndValues := Attrs._mergeHtmlAndDirectiveAttrs htmlAttrs directives in
  setAttributeStmts name renderNode attrNameAndValues.

Definition with_gen_b (b : Builder) (f : Store -> Gen) : Builder :=
  with_store b (with_gen (store b) (f (store b))).

Definition deps_push (b : Builder) (d : Dependency) : Builder :=
  {| store := store b; nestedViewCount := nestedViewCount b;
     targetDependencies := targetDependencies b ++ [d] |}.

(** [visitElement] up to the visit of the children: the element, the
    component view variable when the element hosts a component, and the
    state. *)
Definition visitElement_before (ast : TemplateAst) (name : string) (attrs : list AttrAst)
    (references : list ReferenceAst) (directiveAsts : list DirectiveAst)
    (providers : list ProviderAst) (hasViewContainer : bool)
    (parent : CompileNode) (view : CompileView) (b : Builder)
  : CompileNode * option Expression * Builder :=
  let st := store b in
  let nodeIndex := List.length (nodes st (address view)) in
  let debugContextExpr := resetDebugInfoExpr view nodeIndex ast in
  let createRenderNodeExpr :=
    if Nat.eqb nodeIndex 0 && ViewType_eqb (viewType view) HOST then
      callMethod THIS_EXPR "selectOrCreateHostElement"
        [literal_str name; rootSelectorVar; debugContextExpr]
    else if String.eqb name NG_CONTAINER_TAG then
      callMethod ViewProperties_renderer "createTemplateAnchor"
        [_getParentRenderNode view parent; debugContextExpr]
    else
      callMethod ViewProperties_renderer "createElement"
        [_getParentRenderNode view parent; literal_str name; debugContextExpr] in
  let fieldName := "_el_" +++ string_of_nat nodeIndex in
  let st1 :=
    field_push st view
      {| field_name := fieldName;
         field_type :=
           importType (identifierOf (renderElement (renderTypes (genConfig view)))) [] [] |} in
  let st2 :=
    createMethod_addStmt st1 view (toStmt (set_prop THIS_EXPR fieldName createRenderNodeExpr)) in
  let renderNode := prop THIS_EXPR fieldName in
  let directives := map directive directiveAsts in
  let component := find isComponent directives in
  let st3 :=
    fold_left (fun st s => createMethod_addStmt st view s)
      (elementAttributeStmts name attrs directives renderNode) st2 in
  let compileElement :=
    MkCompileNode parent view nodeIndex renderNode ast
      (Some {| position := List.length (nodes st3 (address view));
               el_component := component; el_directives := directives;
               el_providers := providers; el_hasViewContainer := hasViewContainer;
               hasEmbeddedView := false; el_references := references;
               appElement :=
                 CompileElement_appElement view nodeIndex component hasViewContainer false;
               injector := CompileElement_injector view nodeIndex |}) in
  let st4 := with_gen st3 (CompileElement_new compileElement st3) in
  let b5 := with_store b (nodes_push st4 view compileElement) in
  let '(compViewExpr, b6) :=
    match component with
    | Some component =>
        let nestedComponentIdentifier :=
          {| id_name := getViewFactoryName component 0; id_moduleUrl := None |} in
        let b61 :=
          deps_push b5
            (ViewFactoryDependency (type_identifier (dir_type component))
               nestedComponentIdentifier) in
        let entryComponentIdentifiers :=
          map (fun entryComponent =>
                 {| id_name := id_name entryComponent; id_moduleUrl := None |})
            (entryComponents component) in
        let b62 :=
          fold_left
            (fun b entryComponent =>
               deps_push b
                 (ComponentFactoryDependency entryComponent
                    {| id_name := id_name entryComponent; id_moduleUrl := None |}))
            (entryComponents component) b61 in
        let b63 :=
          with_gen_b b62
            (createComponentFactoryResolver compileElement entryComponentIdentifiers) in
        let compViewName := "compView_" +++ string_of_nat nodeIndex in
        let b64 := with_gen_b b63 (setComponentView compileElement (variable compViewName)) in
        let b65 :=
          with_store b64
            (createMethod_addStmt (store b64) view
               (declare_var compViewName
                  (callFn (importExpr (identifierOf nestedComponentIdentifier) [])
                     [ViewProperties_viewUtils;
                      CompileElement_injector view nodeIndex;
                      or_else (node_appElement compileElement) UNDEFINED])
                  None [])) in
        (Some (variable compViewName), b65)
    | None => (None, b5)
    end in
  let b7 := with_gen_b b6 (beforeChildren compileElement) in
  (compileElement, compViewExpr, with_store b7 (_addRootNodeAndProject view compileElement (store b7))).

(** Modelled from the spec: [contentNodesByNgContentIndex] of
    [compile_element.ts] is missing; the element of a component holds one
    list of projected nodes per content-projection slot of the component. *)
Definition contentNodeBuckets (el : CompileNode) (st : Store) : list (list Expression) :=
  match el with
  | MkCompileNode _ v _ _ _ (Some ed) =>
      match el_component ed with
      | Some c =>
          map (contentNodesByNgContentIndex st (address v) (position ed))
            (seq 0 (List.length (ngContentSelectors (template c))))
      | None => []
      end
  | _ => []
  end.

(** [visitElement] after the visit of the children. *)
Definition visitElement_after (compileElement : CompileNode) (nodeIndex : nat)
    (compViewExpr : option Expression) (view : CompileView) (b : Builder) : Builder :=
  let b1 :=
    with_gen_b b
      (afterChildren_el compileElement
         (List.length (nodes (store b) (address view)) - nodeIndex - 1)) in
  match compViewExpr with
  | Some compViewExpr =>
      let codeGenContentNodes :=
        if isHost (dir_type (component view)) then ViewProperties_projectableNodes
        else literalArr (map createFlatArray (contentNodeBuckets compileElement (store b1))) None in
      with_store b1
        (createMethod_addStmt (store b1) view
           (toStmt
              (callMethod compViewExpr "create"
                 [getComponent compileElement (store b1); codeGenContentNodes; NULL_EXPR])))
  | None => b1
  end.

(** [visitEmbeddedTemplate] up to the construction of the embedded view. *)
Definition visitEmbeddedTemplate_before (ast : TemplateAst) (variables : list VariableAst)
    (references : list ReferenceAst) (directiveAsts : list DirectiveAst)
    (providers : list ProviderAst) (hasViewContainer : bool)
    (parent : CompileNode) (view : CompileView) (b : Builder)
  : CompileNode * CompileView * Builder :=
  let st := store b in
  let nodeIndex := List.length (nodes st (address view)) in
  let fieldName := "_anchor_" +++ string_of_nat nodeIndex in
  let st1 :=
    field_push st view
      {| field_name := fieldName;
         field_type :=
           importType (identifierOf (renderComment (renderTypes (genConfig view)))) [] [] |} in
  let st2 :=
    createMethod_addStmt st1 view
      (toStmt
         (set_prop THIS_EXPR fieldName
            (callMethod ViewProperties_renderer "createTemplateAnchor"
               [_getParentRenderNode view parent; resetDebugInfoExpr view nodeIndex ast]))) in
  let renderNode := prop THIS_EXPR fieldName in
  let templateVariableBindings :=
    map (fun varAst =>
           (if (0 <? String.length (var_value varAst))%nat then var_value varAst
            else IMPLICIT_TEMPLATE_VAR,
            var_name varAst))
      variables in
  let directives := map directive directiveAsts in
  let compileElement :=
    MkCompileNode parent view nodeIndex renderNode ast
      (Some {| position := List.length (nodes st2 (address view));
               el_component := None; el_directives := directives;
               el_providers := providers; el_hasViewContainer := hasViewContainer;
               hasEmbeddedView := true; el_references := references;
               appElement :=
                 CompileElement_appElement view nodeIndex None hasViewContainer true;
               injector := CompileElement_injector view nodeIndex |}) in
  let st3 := with_gen st2 (CompileElement_new compileElement st2) in
  let st4 := nodes_push st3 view compileElement in
  let count := S (nestedViewCount b) in
  let '(embedded, st5) :=
    new_CompileView (component view) (genConfig view) (pipeMetas view) NULL_EXPR
      (animations view) (viewIndex view + count) compileElement templateVariableBindings
      st4 in
  (compileElement, embedded,
   {| store := st5; nestedViewCount := count; targetDependencies := targetDependencies b |}).

(** [visitEmbeddedTemplate] after [buildView] of the embedded view. *)
Definition visitEmbeddedTemplate_after (compileElement : CompileNode) (view : CompileView)
    (b : Builder) : Builder :=
  let b1 := with_gen_b b (beforeChildren compileElement) in
  let b2 := with_store b1 (_addRootNodeAndProject view compileElement (store b1)) in
  with_gen_b b2 (afterChildren_el compileElement 0).

(** [buildView] over a visit function: a new visitor for [view], every
    template node visited in order under the parent of the view's declaration
    element (the null element for the top-level view). The result holds the
    visitor's [nestedViewCount], which [buildView] returns. *)
Definition buildView_with (visit : TemplateAst -> CompileNode -> CompileView -> Builder -> Builder)
    (view : CompileView) (template : list TemplateAst)
    (targetDependencies : list Dependency) (st : Store) : Builder :=
  let parent :=
    match declarationElement view with
    | NullElement => NullElement
    | MkCompileNode p _ _ _ _ _ => p
    end in
  fold_left (fun b ast => visit ast parent view b) template
    {| store := st; nestedViewCount := 0; targetDependencies := targetDependencies |}.

(** [ast.visit(visitor, parent)] for the visitor of [view]. *)
Fixpoint visit (ast : TemplateAst) (parent : CompileNode) (view : CompileView) (b : Builder)
  {struct ast} : Builder :=
  match ast with
  | TextAst value _ => _visitText ast value parent view b
  | BoundTextAst _ _ => _visitText ast "" parent view b
  | NgContentAst index ngContentIndex => visitNgContent index ngContentIndex parent view b
  | ElementAst name attrs _ _ references directives providers hasViewContainer children _ =>
      let '(compileElement, compViewExpr, b1) :=
        visitElement_before ast name attrs references directives providers
          hasViewContainer parent view b in
      let b2 := fold_left (fun b child => visit child compileElement view b) children b1 in
      visitElement_after compileElement (List.length (nodes (store b) (address view)))
        compViewExpr view b2
  | EmbeddedTemplateAst _ _ references variables directives providers hasViewContainer
      children _ =>
      let '(compileElement, embedded, b1) :=
        visitEmbeddedTemplate_before ast variables references directives providers
          hasViewContainer parent view b in
      let inner :=
        buildView_with visit embedded children (targetDependencies b1) (store b1) in
      visitEmbeddedTemplate_after compileElement view
        {| store := store inner;
           nestedViewCount := nestedViewCount b1 + nestedViewCount inner;
           targetDependencies := targetDependencies inner |}
  | AttrNode _ | DirectiveNode _ | EventNode _ | ReferenceNode _ | VariableNode _
  | DirectivePropertyNode _ | ElementPropertyNode _ => b
  end.

Definition templateVisitAll (asts : list TemplateAst) (parent : CompileNode)
    (view : CompileView) (b : Builder) : Builder :=
  fold_left (fun b ast => visit ast parent view b) asts b.

Definition buildView (view : CompileView) (template : list TemplateAst)
    (targetDependencies : list Dependency) (st : Store) : Builder :=
  buildView_with visit view template targetDependencies st.

(** *** Finishing a view ([compile_view.ts], [view_builder.ts]) *)

Inductive Result (A : Type) :=
| Ok (a : A)
| TypeError
| OutOfFuel.
Arguments Ok {A} a.
Arguments TypeError {A}.
Arguments OutOfFuel {A}.

Definition with_method (b : ViewBuffers) (m : MethodName) (body : CompileMethod)
  : ViewBuffers :=
  with_methods b (fun m' => if MethodName_eqb m m' then body else methods b m').

(** [afterNodes]: every query of every entry of [viewQueries], in the
    order of the map, has [afterChildren] called on the view's create method
    and update-view-queries method. *)
Definition afterNodes (this : CompileView) (g : Gen) : option Gen :=
  fold_left
    (fun (acc : option Gen) (query : nat) =>
       match acc with
       | None => None
       | Some g =>
           match nth_error (queries g) query with
           | None => None
           | Some q =>
               let b := buffers_of g this in
               match afterChildren q (methods b createMethod) (methods b updateViewQueriesMethod) with
               | None => None
               | Some (static, dynamic) =>
                   Some (with_buffers g this
                           (with_method (with_method b createMethod static)
                              updateViewQueriesMethod dynamic))
               end
           end
       end)
    (List.concat (map snd (viewQueries (buffers_of g this)))) (Some g).

Definition createStaticNodeDebugInfo (st : Store) (node : CompileNode) : Expression :=
  let providerTokens :=
    match node_element node with Some _ => getProviderTokens node st | None => [] end in
  let componentToken :=
    match node_component node with
    | Some c => createDiTokenExpression (identifierToken (type_identifier (dir_type c)))
    | None => NULL_EXPR
    end in
  let varTokenEntries :=
    match node_element node with
    | Some _ =>
        flat_map
          (fun varName =>
             match obj_get (referenceTokens node) varName with
             | Some (Some token) => [(varName, createDiTokenExpression token)]
             | Some None => [(varName, NULL_EXPR)]
             | None => []
             end)
          (Object_keys (referenceTokens node))
    | None => []
    end in
  instantiate (importExpr (resolveIdentifier StaticNodeDebugInfo) [])
    [literalArr providerTokens (Some (ArrayType DYNAMIC_TYPE [TypeModifier_Const]));
     componentToken;
     literalMap varTokenEntries (Some (MapType DYNAMIC_TYPE [TypeModifier_Const]))]
    (importType (resolveIdentifier StaticNodeDebugInfo) [] [TypeModifier_Const]).

Definition getContextType (view : CompileView) : OType :=
  if ViewType_eqb (viewType view) COMPONENT
  then ExternalType (identifierOf (type_identifier (dir_type (component view)))) [] []
  else DYNAMIC_TYPE.

Definition getChangeDetectionMode (view : CompileView) : ChangeDetectorStatus :=
  if ViewType_eqb (viewType view) COMPONENT then
    if isDefaultChangeDetectionStrategy (changeDetection (component view))
    then CheckAlways else CheckOnce
  else CheckAlways.

Definition addReturnValuefNotEmpty (statements : list Statement) (value : Expression)
  : list Statement :=
  match statements with
  | [] => statements
  | _ => statements ++ [ReturnStatement value]
  end.

(** [None] is the [TypeError] of a host view without a first node. *)
Definition generateCreateMethod (view : CompileView) (st : Store) : option (list Statement) :=
  let b := buffers_of (gen st) view in
  let parentRenderNodeStmts :=
    if ViewType_eqb (viewType view) COMPONENT then
      [declare_var "parentRenderNode"
         (callMethod ViewProperties_renderer "createViewRoot"
            [prop (prop THIS_EXPR "declarationAppElement") "nativeElement"])
         (importType (identifierOf (renderNode (renderTypes (genConfig view)))) [] [])
         [StmtModifier_Final]]
    else [] in
  let resultExpr :=
    if ViewType_eqb (viewType view) HOST then
      match nth_error (nodes st (address view)) 0 with
      | Some node0 => Some (or_else (node_appElement node0) UNDEFINED)
      | None => None
      end
    else Some NULL_EXPR in
  match resultExpr with
  | None => None
  | Some resultExpr =>
      Some
        (parentRenderNodeStmts ++ finish (methods b createMethod)
         ++ [toStmt
               (callMethod THIS_EXPR "init"
                  [createFlatArray (rootNodesOrAppElements st (address view));
                   literalArr
                     (map (fun node => or_else (node_renderNode node) UNDEFINED)
                        (nodes st (address view))) None;
                   literalArr (disposables b) None;
                   literalArr (subscriptions b) None]);
             ReturnStatement resultExpr])
  end.

Definition generateDetectChangesMethod (view : CompileView) (st : Store) : list Statement :=
  let b := buffers_of (gen st) view in
  let m := methods b in
  if isEmpty (m animationBindingsMethod) && isEmpty (m detectChangesInInputsMethod)
     && isEmpty (m updateContentQueriesMethod)
     && isEmpty (m afterContentLifecycleCallbacksMethod)
     && isEmpty (m detectChangesRenderPropertiesMethod)
     && isEmpty (m updateViewQueriesMethod)
     && isEmpty (m afterViewLifecycleCallbacksMethod)
  then []
  else
    let throwOnChange := variable DetectChangesVars_throwOnChange in
    let afterContentStmts :=
      finish (m updateContentQueriesMethod) ++ finish (m afterContentLifecycleCallbacksMethod) in
    let afterViewStmts :=
      finish (m updateViewQueriesMethod) ++ finish (m afterViewLifecycleCallbacksMethod) in
    let stmts :=
      finish (m animationBindingsMethod) ++ finish (m detectChangesInInputsMethod)
      ++ [toStmt (callMethod THIS_EXPR "detectContentChildrenChanges" [throwOnChange])]
      ++ match afterContentStmts with
         | [] => []
         | _ => [IfStmt (NotExpr throwOnChange) afterContentStmts]
         end
      ++ finish (m detectChangesRenderPropertiesMethod)
      ++ [toStmt (callMethod THIS_EXPR "detectViewChildrenChanges" [throwOnChange])]
      ++ match afterViewStmts with
         | [] => []
         | _ => [IfStmt (NotExpr throwOnChange) afterViewStmts]
         end in
    let readVars := findReadVarNames stmts in
    let has name := existsb (String.eqb name) readVars in
    let varStmts :=
      (if has DetectChangesVars_changed
       then [declare_var DetectChangesVars_changed (literal_bool true) (Some BOOL_TYPE) []]
       else [])
      ++ (if has DetectChangesVars_changes
          then [declare_var DetectChangesVars_changes NULL_EXPR
                  (Some (MapType (ExternalType (resolveIdentifier SimpleChange) [] []) []))
                  []]
          else [])
      ++ (if has DetectChangesVars_valUnwrapper
          then [declare_var DetectChangesVars_valUnwrapper
                  (instantiate (importExpr (resolveIdentifier ValueUnwrapper) []) [] None)
                  None [StmtModifier_Final]]
          else []) in
    varStmts ++ stmts.

Definition viewConstructorParams : list FnParam :=
  [{| param_name := ViewConstructorVars_viewUtils;
      param_type := importType (resolveIdentifier ViewUtils) [] [] |};
   {| param_name := ViewConstructorVars_parentInjector;
      param_type := importType (resolveIdentifier Injector) [] [] |};
   {| param_name := ViewConstructorVars_declarationEl;
      param_type := importType (resolveIdentifier AppElement) [] [] |}].

Definition createViewClass (view : CompileView) (renderCompTypeVar : string)
    (nodeDebugInfosVar : Expression) (st : Store) : option Statement :=
  let b := buffers_of (gen st) view in
  let viewConstructorArgs := viewConstructorParams in
  let superConstructorArgs :=
    [variable (className view); variable renderCompTypeVar;
     ViewTypeEnum_fromValue (viewType view);
     variable ViewConstructorVars_viewUtils; variable ViewConstructorVars_parentInjector;
     variable ViewConstructorVars_declarationEl;
     ChangeDetectorStatusEnum_fromValue (getChangeDetectionMode view)]
    ++ (if genDebugInfo (genConfig view) then [nodeDebugInfosVar] else []) in
  let viewConstructor :=
    MkClassMethod None viewConstructorArgs
      [toStmt (callFn SUPER_EXPR superConstructorArgs)] None in
  match generateCreateMethod view st with
  | None => None
  | Some createBody =>
      let viewMethods :=
        [MkClassMethod (Some "createInternal")
           [{| param_name := "rootSelector"; param_type := Some STRING_TYPE |}]
           createBody (importType (resolveIdentifier AppElement) [] []);
         MkClassMethod (Some "injectorGetInternal")
           [{| param_name := InjectMethodVars_token; param_type := Some DYNAMIC_TYPE |};
            {| param_name := InjectMethodVars_requestNodeIndex;
               param_type := Some NUMBER_TYPE |};
            {| param_name := InjectMethodVars_notFoundResult;
               param_type := Some DYNAMIC_TYPE |}]
           (addReturnValuefNotEmpty (finish (methods b injectorGetMethod))
              (variable InjectMethodVars_notFoundResult))
           (Some DYNAMIC_TYPE);
         MkClassMethod (Some "detectChangesInternal")
           [{| param_name := DetectChangesVars_throwOnChange;
               param_type := Some BOOL_TYPE |}]
           (generateDetectChangesMethod view st) None;
         MkClassMethod (Some "dirtyParentQueriesInternal") []
           (finish (methods b dirtyParentQueriesMethod)) None;
         MkClassMethod (Some "destroyInternal") [] (finish (methods b destroyMethod)) None;
         MkClassMethod (Some "detachInternal") [] (finish (methods b detachMethod)) None]
        ++ eventHandlerMethods b in
      let superClass := if genDebugInfo (genConfig view) then DebugAppView else AppView in
      Some
        (ClassStmt (className view)
           (importExpr (resolveIdentifier superClass) [getContextType view])
           (fields b) (getters b) viewConstructor
           (filter (fun method => (0 <? List.length (method_body method))%nat) viewMethods))
  end.

Definition createViewFactory (view : CompileView) (viewClassName : string)
    (constructorParams : list FnParam) (renderCompTypeVar : string) : Statement :=
  let viewFactoryArgs := viewConstructorParams in
  let c := component view in
  let templateUrlInfo :=
    if String.eqb (templateUrl (template c)) (type_moduleUrl (dir_type c)) then
      type_moduleUrl (dir_type c) +++ " class " +++ type_name (dir_type c)
      +++ " - inline template"
    else templateUrl (template c) in
  let initRenderCompTypeStmts :=
    if Nat.eqb (viewIndex view) 0 then
      let animationsExpr :=
        literalMap (map (fun entry => (anim_name entry, anim_fnExp entry)) (animations view))
          None in
      [IfStmt (BinaryOperatorExpr Identical (variable renderCompTypeVar) NULL_EXPR)
         [toStmt
            (WriteVarExpr renderCompTypeVar
               (callMethod (variable ViewConstructorVars_viewUtils)
                  "createRenderComponentType"
                  [if genDebugInfo (genConfig view) then literal_str templateUrlInfo
                   else literal_str "";
                   literal_num (List.length (ngContentSelectors (template c)));
                   ViewEncapsulationEnum_fromValue (encapsulation (template c));
                   styles view;
                   animationsExpr]))]]
    else [] in
  DeclareFunctionStmt (getViewFactoryName c (viewIndex view)) viewFactoryArgs
    (initRenderCompTypeStmts
     ++ [ReturnStatement
           (instantiate (variable viewClassName)
              (map (fun param => variable (param_name param)) constructorParams) None)])
    (Some (ExternalType (resolveIdentifier AppView) [getContextType view] []))
    [StmtModifier_Final].

Definition createViewTopLevelStmts (view : CompileView) (targetStatements : list Statement)
    (st : Store) : option (list Statement) :=
  let typeName := type_name (dir_type (component view)) in
  let nodeDebugInfosName := "nodeDebugInfos_" +++ typeName +++ string_of_nat (viewIndex view) in
  let nodeDebugInfosVar :=
    if genDebugInfo (genConfig view) then variable nodeDebugInfosName else NULL_EXPR in
  let targetStatements1 :=
    if genDebugInfo (genConfig view) then
      targetStatements
      ++ [declare_var nodeDebugInfosName
            (literalArr (map (createStaticNodeDebugInfo st) (nodes st (address view)))
               (Some (ArrayType (ExternalType (resolveIdentifier StaticNodeDebugInfo) [] [])
                        [TypeModifier_Const])))
            None [StmtModifier_Final]]
    else targetStatements in
  let renderCompTypeVar := "renderType_" +++ typeName in
  let targetStatements2 :=
    if Nat.eqb (viewIndex view) 0 then
      targetStatements1
      ++ [declare_var renderCompTypeVar NULL_EXPR
            (importType (resolveIdentifier RenderComponentType) [] []) []]
    else targetStatements1 in
  match createViewClass view renderCompTypeVar nodeDebugInfosVar st with
  | None => None
  | Some viewClass =>
      Some
        (targetStatements2
         ++ [viewClass;
             createViewFactory view (className view) viewConstructorParams renderCompTypeVar])
  end.

(** [finishView]: the recursion follows the embedded views recorded on the
    nodes, so it is bounded by [fuel]; a node that says it has an embedded
    view and holds none is a [TypeError]. *)
Fixpoint finishView (fuel : nat) (view : CompileView) (targetStatements : list Statement)
    (st : Store) : Result (Store * list Statement) :=
  match fuel with
  | 0 => OutOfFuel
  | S fuel =>
      match afterNodes view (gen st) with
      | None => TypeError
      | Some g =>
          let st1 := with_gen st g in
          match createViewTopLevelStmts view targetStatements st1 with
          | None => TypeError
          | Some targetStatements1 =>
              fold_left
                (fun (acc : Result (Store * list Statement)) (node : CompileNode) =>
                   match acc with
                   | Ok (st, targetStatements) =>
                       if node_hasEmbeddedView node then
                         match node_embeddedView st node with
                         | Some embedded => finishView fuel embedded targetStatements st
                         | None => TypeError
                         end
                       else acc
                   | _ => acc
                   end)
                (nodes st1 (address view)) (Ok (st1, targetStatements1))
          end
      end
  end.

(** ** Properties of the view model *)

(** The views of the declaration chain of [v], from [v] outward. *)
Fixpoint declarationChain (v : CompileView) : list CompileView :=
  v :: match v with
       | MkCompileView _ _ _ _ _ _ _ declEl _ =>
           match declEl with
           | MkCompileNode _ w _ _ _ _ => declarationChain w
           | NullElement => []
           end
       end.

(** [getLocal] in the words of its description: the reserved event name
    first; otherwise the nearest view of the chain that binds the name, its
    binding rewritten for access from [this]; otherwise nothing. *)
Definition getLocal_spec (this : CompileView) (name : string) (g : Gen) : option Expression :=
  if String.eqb name EventHandlerVars_event then Some (ReadVarExpr EventHandlerVars_event)
  else
    match
      find (fun v => isPresent (obj_get (locals (buffers_of g v)) name))
        (declarationChain this)
    with
    | Some v =>
        option_map (fun result => getPropertyInView result this v)
          (obj_get (locals (buffers_of g v)) name)
    | None => None
    end.

Lemma getLocal_loop_find (g : Gen) (name : string) (v : CompileView) :
  getLocal_loop g v name =
  match
    find (fun w => isPresent (obj_get (locals (buffers_of g w)) name)) (declarationChain v)
  with
  | Some w => option_map (fun result => (result, w)) (obj_get (locals (buffers_of g w)) name)
  | None => None
  end.
Proof.
  revert v.
  fix IH 1. intros [a c gc pm sty an vi declEl tvb].
  cbn [getLocal_loop declarationChain find].
  destruct (obj_get (locals (buffers_of g (MkCompileView a c gc pm sty an vi declEl tvb))) name)
    as [r|] eqn:E; cbn [isPresent].
  - rewrite E. reflexivity.
  - destruct declEl as [|p w i rn ast e]; [reflexivity|]. apply IH.
Qed.

(** C6. [getLocal] returns the reserved event expression for the reserved
    event name whatever the views of the chain bind, and for every other name
    the binding of the nearest view of the declaration chain that has one,
    rewritten by [getPropertyInView] from this view to that view; when no
    view of the chain binds the name the result is [None], and no case
    raises. *)
Theorem getLocal_resolves (this : CompileView) (name : string) (g : Gen) :
  getLocal this EventHandlerVars_event g = Some (ReadVarExpr EventHandlerVars_event)
  /\ getLocal this name g = getLocal_spec this name g.
Proof.
  split.
  - unfold getLocal. now rewrite String.eqb_refl.
  - unfold getLocal, getLocal_spec. destruct (String.eqb name EventHandlerVars_event);
      [reflexivity|].
    rewrite getLocal_loop_find.
    destruct (find _ (declarationChain this)) as [w|]; [|reflexivity].
    now destruct (obj_get (locals (buffers_of g w)) name).
Qed.

(** C10. For no values, [createLiteralArray] and [createLiteralMap] return
    the shared [EMPTY_ARRAY] and [EMPTY_MAP] expressions and leave the state
    as it is: no proxy field, no counter step. For one value or more they
    name the proxy after the view's counter, step the counter by one, hand
    the proxy to [createPureProxy] and return the call of the proxy. *)
Theorem createLiteral_empty_is_shared (this : CompileView) (g : Gen) :
  createLiteralArray this [] g = (importExpr (resolveIdentifier EMPTY_ARRAY) [], g)
  /\ createLiteralMap this [] g = (importExpr (resolveIdentifier EMPTY_MAP) [], g)
  /\ (forall v vs,
        exists proxyFn g1,
          createLiteralArray this (v :: vs) g =
          (callFn (prop THIS_EXPR
                     ("_arr_" +++ string_of_nat (literalArrayCount (buffers_of g this))))
             (v :: vs),
           createPureProxy proxyFn (List.length (v :: vs))
             (prop THIS_EXPR
                ("_arr_" +++ string_of_nat (literalArrayCount (buffers_of g this))))
             this g1)
          /\ literalArrayCount (buffers_of g1 this) =
             S (literalArrayCount (buffers_of g this)))
  /\ (forall e es,
        exists proxyFn g1,
          createLiteralMap this (e :: es) g =
          (callFn (prop THIS_EXPR
                     ("_map_" +++ string_of_nat (literalMapCount (buffers_of g this))))
             (map snd (e :: es)),
           createPureProxy proxyFn (List.length (e :: es))
             (prop THIS_EXPR
                ("_map_" +++ string_of_nat (literalMapCount (buffers_of g this))))
             this g1)
          /\ literalMapCount (buffers_of g1 this) =
             S (literalMapCount (buffers_of g this))).
Proof.
  split; [reflexivity|]. split; [reflexivity|]. split.
  - intros v vs. eexists _, _. split; [reflexivity|].
    unfold buffers_of, with_buffers, upd. cbn. now rewrite Nat.eqb_refl.
  - intros e es. eexists _, _. split.
    + unfold createLiteralMap. cbv zeta. f_equal. f_equal.
      generalize (e :: es) as l. intros l. generalize 0 as k.
      induction l as [|x l IH]; intros k; [reflexivity|].
      cbn [List.length seq combine map]. f_equal. apply IH.
    + unfold buffers_of, with_buffers, upd. cbn. now rewrite Nat.eqb_refl.
Qed.

(** ** Properties of the query tracker *)

(** How many nested-view subtrees a value tree holds, at any depth. *)
Fixpoint nestedCount (viewValues : ViewQueryValues) : nat :=
  match viewValues with
  | MkViewQueryValues _ values =>
      list_sum
        (map (fun entry =>
                match entry with
                | QueryNested sub => S (nestedCount sub)
                | QueryExpr _ => 0
                end) values)
  end.

(** Every subtree has a view, and that view's declaration element has an
    app element: what the constructor of an embedded view and of its
    anchor element establish. *)
Fixpoint vqv_wf (viewValues : ViewQueryValues) : bool :=
  match viewValues with
  | MkViewQueryValues _ values =>
      forallb
        (fun entry =>
           match entry with
           | QueryNested sub =>
               match vqv_view sub with
               | Some v => isPresent (node_appElement (declarationElement v))
               | None => false
               end
               && vqv_wf sub
           | QueryExpr _ => true
           end) values
  end.

(** What [createQueryValues] makes of one entry, given the values of a
    subtree. *)
Definition expandedEntry (entry : QueryValue) (e : Expression) : Prop :=
  match entry with
  | QueryExpr x => e = x
  | QueryNested sub =>
      exists v appEl exprs,
        vqv_view sub = Some v
        /\ node_appElement (declarationElement v) = Some appEl
        /\ createQueryValues sub = Some exprs
        /\ e = callMethod appEl "mapNestedViews"
                 [variable (className v);
                  fn [{| param_name := "nestedView"; param_type := classType v |}]
                    [ReturnStatement
                       (literalArr
                          (map (replaceVarInExpression_this (variable "nestedView")) exprs)
                          None)]
                    (Some DYNAMIC_TYPE)]
  end.

Lemma isStatic_nestedCount (q : CompileQuery) :
  _isStatic q = Nat.eqb (nestedCount (_values q)) 0.
Proof.
  unfold _isStatic. destruct (_values q) as [view values]. cbn [vqv_values nestedCount].
  induction values as [|[e|sub] rest IH]; [reflexivity | exact IH | reflexivity].
Qed.

Lemma createQueryValues_expands (viewValues : ViewQueryValues) :
  vqv_wf viewValues = true ->
  exists out,
    createQueryValues viewValues = Some out
    /\ Forall2 expandedEntry (vqv_values viewValues) out.
Proof.
  revert viewValues. fix IH 1. intros [view values].
  cbn [vqv_wf createQueryValues vqv_values]. unfold ListWrapper_flatten.
  revert values. fix IHl 1. intros [|entry rest].
  - intros _. exists []. split; [reflexivity | constructor].
  - cbn [forallb map_or_raise]. intros Hwf. apply andb_prop in Hwf as [Hentry Hrest].
    destruct (IHl rest Hrest) as (out & Hout & Hall).
    destruct (map_or_raise (expandEntry createQueryValues) rest) as [out'|];
      [|discriminate].
    cbn in Hout. injection Hout as <-.
    destruct entry as [e|sub]; cbn [expandEntry].
    + exists (e :: out'). split; [reflexivity|]. constructor; [reflexivity | exact Hall].
    + apply andb_prop in Hentry as [Hview Hsub].
      destruct (IH sub Hsub) as (exprs & Hexprs & _).
      destruct (vqv_view sub) as [v|] eqn:Ev; [|discriminate].
      destruct (node_appElement (declarationElement v)) as [appEl|] eqn:Ea; [|discriminate].
      rewrite Hexprs.
      exists (mapNestedViews appEl v exprs :: out'). split; [reflexivity|].
      constructor; [|exact Hall].
      cbn [expandedEntry]. exists v, appEl, exprs. now rewrite Ev, Ea, Hexprs.
Qed.

(** C3. When the value tree is well formed, [afterChildren] has the values
    and emits these statements: the call [queryList.reset([values])]; then,
    when the query has an owner directive, the assignment of the query list
    (of [queryList.first] for a query with [first]) to the directive's
    property; then, for a query without [first], the call
    [queryList.notifyOnChanges()]. For a query with [first] whose tree
    holds no nested-view subtree they go, as they are, to the end of the
    static (creation) method; for every other query they go to the end of
    the dynamic (update) method, inside one [if (queryList.dirty)]. The
    other method is untouched. *)
Theorem afterChildren_placement (q : CompileQuery)
    (targetStaticMethod targetDynamicMethod : CompileMethod) :
  vqv_wf (_values q) = true ->
  exists values,
    createQueryValues (_values q) = Some values
    /\ Forall2 expandedEntry (vqv_values (_values q)) values
    /\ let reset := toStmt (callMethod (queryList q) "reset" [literalArr values None]) in
       let assign :=
         match ownerDirectiveExpression q with
         | Some owner =>
             [toStmt
                (set_prop owner (propertyName (meta q))
                   (if first (meta q) then prop (queryList q) "first" else queryList q))]
         | None => []
         end in
       let notify := toStmt (callMethod (queryList q) "notifyOnChanges" []) in
       afterChildren q targetStaticMethod targetDynamicMethod =
       if first (meta q) then
         if Nat.eqb (nestedCount (_values q)) 0
         then Some (targetStaticMethod ++ reset :: assign, targetDynamicMethod)
         else Some (targetStaticMethod,
                    targetDynamicMethod
                    ++ [IfStmt (prop (queryList q) "dirty") (reset :: assign)])
       else Some (targetStaticMethod,
                  targetDynamicMethod
                  ++ [IfStmt (prop (queryList q) "dirty") (reset :: assign ++ [notify])]).
Proof.
  intros Hwf. destruct (createQueryValues_expands _ Hwf) as (values & Hvalues & Hall).
  exists values. split; [exact Hvalues|]. split; [exact Hall|].
  cbv zeta. unfold afterChildren. rewrite Hvalues, isStatic_nestedCount.
  unfold updateStmts, addStmts, addStmt. cbn [app].
  destruct (first (meta q)); cbn [andb].
  - rewrite app_nil_r. now destruct (Nat.eqb (nestedCount (_values q)) 0).
  - reflexivity.
Qed.

Lemma elPath_loop_nonempty (this_view currentView : CompileView) (acc : list CompileNode) :
  acc <> [] -> elPath_loop this_view currentView acc <> [].
Proof.
  revert currentView acc. fix IH 1. intros [a c gc pm sty an vi declEl tvb] acc Hacc.
  cbn [elPath_loop]. destruct (view_same _ this_view); [exact Hacc|].
  destruct declEl as [|p w i rn ast e]; [discriminate|].
  apply IH. discriminate.
Qed.

Lemma elPath_empty (q : CompileQuery) (view : CompileView) :
  elPath q view = [] <-> view_same view (query_view q) = true.
Proof.
  unfold elPath. destruct view as [a c gc pm sty an vi declEl tvb].
  cbn [elPath_loop].
  destruct (view_same (MkCompileView a c gc pm sty an vi declEl tvb) (query_view q)).
  - split; reflexivity.
  - split; [|discriminate]. intros H. exfalso.
    destruct declEl as [|p w i rn ast e]; [discriminate|].
    revert H. apply elPath_loop_nonempty. discriminate.
Qed.

(** C4. [addValue] appends one [setDirty] statement on the query list, as
    seen from the originating view, to that view's dirty-parent-queries
    method exactly when the element path from the query's view to the
    originating view is not empty, that is when the two are not the same
    view; no other method of any view changes. When the value tree is
    flattened, every nested-view subtree becomes a [mapNestedViews] call on
    the app element of the declaration element of the subtree's view, with
    the view's class and a function of the nested view that returns the
    subtree's values, and every other entry stays as it is. *)
Theorem addValue_marks_dirty_and_nested_views_are_mapped
    (q : CompileQuery) (value : Expression) (view : CompileView) (st : Store) :
  (elPath q view = [] <-> view_same view (query_view q) = true)
  /\ (forall w m,
        methods (buffers_of (gen (snd (addValue q value view st))) w) m =
        methods (buffers_of (gen st) w) m
        ++ (if view_same view w && MethodName_eqb dirtyParentQueriesMethod m
               && negb (view_same view (query_view q))
            then [toStmt
                    (callMethod (getPropertyInView (queryList q) view (query_view q))
                       "setDirty" [])]
            else []))
  /\ (forall viewValues,
        vqv_wf viewValues = true ->
        exists out,
          createQueryValues viewValues = Some out
          /\ Forall2 expandedEntry (vqv_values viewValues) out).
Proof.
  split; [apply elPath_empty|]. split; [|apply createQueryValues_expands].
  intros w m. unfold addValue.
  pose proof (elPath_empty q view) as Hempty.
  destruct (elPath q view) as [|el path] eqn:Epath.
  - cbn [snd]. rewrite (proj1 Hempty eq_refl). cbn [negb].
    now rewrite andb_false_r, app_nil_r.
  - cbn [snd]. destruct (view_same view (query_view q)) eqn:Esame.
    { destruct Hempty as [_ H]. discriminate (H eq_refl). }
    cbn [negb]. rewrite andb_true_r.
    unfold buffers_of, with_gen, with_buffers, upd, view_same. cbn.
    destruct (Nat.eqb (address view) (address w)) eqn:Ea; cbn.
    + apply Nat.eqb_eq in Ea. rewrite <- Ea.
      destruct m; cbn; rewrite ?app_nil_r; reflexivity.
    + now rewrite app_nil_r.
Qed.

Lemma pushValue_nested_last (ev : option CompileView) (rest : list (option CompileView))
    (value : Expression) (viewValues : ViewQueryValues) :
  exists pre sub,
    vqv_values (pushValue (ev :: rest) value viewValues) = pre ++ [QueryNested sub].
Proof.
  cbn [pushValue].
  destruct (last (map Some (vqv_values viewValues)) None) as [[e|lastValues]|];
    [| destruct (same_view_opt (vqv_view lastValues) ev) |]; cbn [vqv_values]; eauto.
Qed.

(** A query that was given a value from another view is not static. *)
Lemma addValue_not_static (q : CompileQuery) (value : Expression) (view : CompileView)
    (st : Store) :
  view_same view (query_view q) = false ->
  _isStatic (fst (addValue q value view st)) = false.
Proof.
  intros Hdiff. unfold addValue.
  destruct (elPath q view) as [|el path] eqn:Epath.
  - apply elPath_empty in Epath. congruence.
  - cbn [map fst]. unfold _isStatic, with_values. cbn [_values].
    destruct (pushValue_nested_last (node_embeddedView st el)
                (map (node_embeddedView st) path) value (_values q)) as (pre & sub & ->).
    rewrite existsb_app. cbn. now rewrite orb_true_r.
Qed.

(** ** Properties of the builder: root and projection registration *)

(** [outer] is [node] or is reached from [node] by going up through parents
    that are [ng-container] elements of [view]. *)
Inductive containerChain (view : option CompileView) : CompileNode -> CompileNode -> Prop :=
| chain_self (node : CompileNode) : containerChain view node node
| chain_up (parent : CompileNode) (v : CompileView) (i : nat) (rn : Expression)
    (ast : TemplateAst) (e : option ElementData) (outer : CompileNode) :
    _isNgContainer parent view = true ->
    containerChain view parent outer ->
    containerChain view (MkCompileNode parent v i rn ast e) outer.

Lemma outerContainerOrSelf_chain (view : option CompileView) (node outer : CompileNode) :
  containerChain view node outer ->
  forall outerParent ov oi orn oast oe,
  outer = MkCompileNode outerParent ov oi orn oast oe ->
  _isNgContainer outerParent view = false ->
  outerContainerOrSelf_loop view node = outer.
Proof.
  induction 1 as [node|parent v i rn ast e outer Hc Hchain IH];
    intros outerParent ov oi orn oast oe Houter Hstop.
  - subst node. cbn [outerContainerOrSelf_loop]. now rewrite Hstop.
  - cbn [outerContainerOrSelf_loop]. rewrite Hc. eapply IH; eassumption.
Qed.

(** C2. For a node under a chain of [ng-container] elements of its view,
    registration looks at the outermost container only: at the parent of the
    outermost container and at the content-projection index of the outermost
    container's template node. The registered unit (the node's app element
    when it hosts a view container, its render node otherwise) goes last in
    the view's root-node list when that parent lies outside the view and the
    view is not a component's own view; it goes last in that parent's
    projection bucket at the index when the parent lies inside the view,
    has a component and the index is present; in every other case nothing is
    registered. The view's root-node list after the call is the list before
    it, followed by the unit in the first case and by nothing in the
    others. *)
Theorem addRootNodeAndProject_outermost_container
    (this_view : CompileView) (st : Store)
    (parent : CompileNode) (v : CompileView) (i : nat) (rn : Expression)
    (ast : TemplateAst) (e : option ElementData)
    (outerParent : CompileNode) (ov : CompileView) (oi : nat) (orn : Expression)
    (oast : TemplateAst) (oe : option ElementData) :
  let node := MkCompileNode parent v i rn ast e in
  let outer := MkCompileNode outerParent ov oi orn oast oe in
  let unit := or_else (if node_hasViewContainer node then node_appElement node else None) rn in
  containerChain (Some v) node outer ->
  _isNgContainer outerParent (Some v) = false ->
  _getOuterContainerOrSelf node = outer
  /\ _addRootNodeAndProject this_view node st =
     (if _isRootNode this_view outerParent then
        if negb (ViewType_eqb (viewType this_view) COMPONENT)
        then rootNodes_push st this_view unit
        else st
      else
        match node_component outerParent, ast_ngContentIndex oast with
        | Some _, Some index => addContentNode outerParent index unit st
        | _, _ => st
        end)
  /\ rootNodesOrAppElements (_addRootNodeAndProject this_view node st) (address this_view)
     = rootNodesOrAppElements st (address this_view)
       ++ (if _isRootNode this_view outerParent
              && negb (ViewType_eqb (viewType this_view) COMPONENT)
           then [unit] else []).
Proof.
  intros node outer unit Hchain Hstop.
  assert (Houter : _getOuterContainerOrSelf node = outer).
  { unfold _getOuterContainerOrSelf. cbn [node_view node].
    eapply outerContainerOrSelf_chain; [exact Hchain | reflexivity | exact Hstop]. }
  split; [exact Houter|].
  assert (Hadd : _addRootNodeAndProject this_view node st =
                 if _isRootNode this_view outerParent then
                   if negb (ViewType_eqb (viewType this_view) COMPONENT)
                   then rootNodes_push st this_view unit
                   else st
                 else
                   match node_component outerParent, ast_ngContentIndex oast with
                   | Some _, Some index => addContentNode outerParent index unit st
                   | _, _ => st
                   end).
  { unfold _addRootNodeAndProject. rewrite Houter. reflexivity. }
  split; [exact Hadd|]. rewrite Hadd.
  destruct (_isRootNode this_view outerParent); cbn [andb].
  - destruct (negb (ViewType_eqb (viewType this_view) COMPONENT)).
    + cbn [rootNodes_push rootNodesOrAppElements]. unfold upd. now rewrite Nat.eqb_refl.
    + now rewrite app_nil_r.
  - rewrite app_nil_r. destruct (node_component outerParent); [|reflexivity].
    destruct (ast_ngContentIndex oast); [|reflexivity].
    now destruct outerParent as [|p w k r a [ed|]].
Qed.

(** ** Properties of the builder: views and nodes *)

(** The children a template node is visited with. *)
Definition ast_children (ast : TemplateAst) : list TemplateAst :=
  match ast with
  | ElementAst _ _ _ _ _ _ _ _ children _ => children
  | EmbeddedTemplateAst _ _ _ _ _ _ _ children _ => children
  | _ => []
  end.

Lemma TemplateAst_children_ind (P : TemplateAst -> Prop) :
  (forall ast, (forall c, In c (ast_children ast) -> P c) -> P ast) ->
  forall ast, P ast.
Proof.
  intros H. fix IH 1. intros ast. apply H.
  destruct ast as [| |name attrs inputs outputs refs dirs provs hvc children idx
                  |attrs outputs refs vars dirs provs hvc children idx| | | | | | | |];
    cbn [ast_children]; try (intros c []).
  - revert children. fix IHl 1. intros [|x l] c Hin; [destruct Hin|].
    destruct Hin as [<-|Hin]; [apply IH | exact (IHl l c Hin)].
  - revert children. fix IHl 1. intros [|x l] c Hin; [destruct Hin|].
    destruct Hin as [<-|Hin]; [apply IH | exact (IHl l c Hin)].
Qed.

(** The embedded templates of a template node, at any depth. *)
Fixpoint countEmbedded (ast : TemplateAst) : nat :=
  match ast with
  | ElementAst _ _ _ _ _ _ _ _ children _ => list_sum (map countEmbedded children)
  | EmbeddedTemplateAst _ _ _ _ _ _ _ children _ =>
      S (list_sum (map countEmbedded children))
  | _ => 0
  end.

Lemma upd_same (A : Type) (f : nat -> A) (a : nat) (x : A) : upd f a x a = x.
Proof. unfold upd. now rewrite Nat.eqb_refl. Qed.

Lemma upd_other (A : Type) (f : nat -> A) (a b : nat) (x : A) :
  a <> b -> upd f a x b = f b.
Proof. intros H. unfold upd. apply Nat.eqb_neq in H. now rewrite H. Qed.

(** Two states with the same views, nodes and embedded views. *)
Definition same_skeleton (st st' : Store) : Prop :=
  views st' = views st /\ nodes st' = nodes st /\ embeddedView st' = embeddedView st.

Lemma same_skeleton_refl (st : Store) : same_skeleton st st.
Proof. now repeat split. Qed.

Lemma same_skeleton_trans (st1 st2 st3 : Store) :
  same_skeleton st1 st2 -> same_skeleton st2 st3 -> same_skeleton st1 st3.
Proof. intros (A & B & C) (A' & B' & C'). repeat split; congruence. Qed.

Lemma with_gen_skeleton (st : Store) (g : Gen) : same_skeleton st (with_gen st g).
Proof. now repeat split. Qed.

Lemma field_push_skeleton (st : Store) (v : CompileView) (f : ClassField) :
  same_skeleton st (field_push st v f).
Proof. now repeat split. Qed.

Lemma createMethod_addStmt_skeleton (st : Store) (v : CompileView) (s : Statement) :
  same_skeleton st (createMethod_addStmt st v s).
Proof. now repeat split. Qed.

Lemma createMethod_addStmts_skeleton (v : CompileView) (ss : list Statement) (st : Store) :
  same_skeleton st (fold_left (fun st s => createMethod_addStmt st v s) ss st).
Proof.
  revert st. induction ss as [|s ss IH]; intros st; [apply same_skeleton_refl|].
  cbn [fold_left]. eapply same_skeleton_trans; [|apply IH]. apply createMethod_addStmt_skeleton.
Qed.

Lemma rootNodes_push_skeleton (st : Store) (v : CompileView) (e : Expression) :
  same_skeleton st (rootNodes_push st v e).
Proof. now repeat split. Qed.

Lemma addContentNode_skeleton (parent : CompileNode) (i : nat) (e : Expression) (st : Store) :
  same_skeleton st (addContentNode parent i e st).
Proof. destruct parent as [|p v k rn ast [ed|]]; now repeat split. Qed.

Lemma addRootNodeAndProject_skeleton (view : CompileView) (node : CompileNode) (st : Store) :
  same_skeleton st (_addRootNodeAndProject view node st).
Proof.
  unfold _addRootNodeAndProject.
  destruct node as [|p v k rn ast e]; [apply same_skeleton_refl|].
  destruct (_getOuterContainerOrSelf _) as [|op ov ok orn oast oe]; [apply same_skeleton_refl|].
  destruct (_isRootNode view op).
  - destruct (negb _); [apply rootNodes_push_skeleton | apply same_skeleton_refl].
  - destruct (node_component op); [|apply same_skeleton_refl].
    destruct (ast_ngContentIndex oast); [apply addContentNode_skeleton | apply same_skeleton_refl].
Qed.

(** What holds of the node at place [k] of the view at address [a]: it has
    index [k] and belongs to that view; an element knows its place; an
    anchor has its embedded view recorded, a view constructed later than
    the anchor's own. *)
Definition nodeOK (st : Store) (a k : nat) (n : CompileNode) : Prop :=
  node_nodeIndex n = Some k
  /\ (exists v, node_view n = Some v /\ address v = a)
  /\ (forall ed, node_element n = Some ed ->
        position ed = k
        /\ (hasEmbeddedView ed = true ->
              exists ev, embeddedView st a k = Some ev
                         /\ a < address ev /\ address ev < List.length (views st))).

Definition Inv (st : Store) : Prop :=
  (forall a v, nth_error (views st) a = Some v -> address v = a)
  /\ (forall a k n, nth_error (nodes st a) k = Some n -> nodeOK st a k n).

Lemma Inv_same_skeleton (st st' : Store) : same_skeleton st st' -> Inv st -> Inv st'.
Proof.
  intros (Hv & Hn & He) [Ha Hnodes]. unfold Inv, nodeOK. rewrite Hv, Hn, He.
  split; assumption.
Qed.

(** Pushing a text node or an element that is no anchor. *)
Lemma Inv_nodes_push (st : Store) (view : CompileView) (parent : CompileNode)
    (rn : Expression) (ast : TemplateAst) (e : option ElementData) :
  Inv st ->
  (forall ed, e = Some ed ->
     position ed = List.length (nodes st (address view)) /\ hasEmbeddedView ed = false) ->
  Inv (nodes_push st view
         (MkCompileNode parent view (List.length (nodes st (address view))) rn ast e)).
Proof.
  intros [Ha Hnodes] He. split; [exact Ha|].
  intros a k n. cbn [nodes nodes_push].
  destruct (Nat.eq_dec (address view) a) as [<-|Hne].
  - rewrite upd_same. intros Hnth.
    destruct (Nat.lt_ge_cases k (List.length (nodes st (address view)))) as [Hlt|Hge].
    + rewrite nth_error_app1 in Hnth by exact Hlt. exact (Hnodes _ _ _ Hnth).
    + rewrite nth_error_app2 in Hnth by exact Hge.
      destruct (k - List.length (nodes st (address view))) as [|d] eqn:Ed;
        [|destruct d; discriminate].
      injection Hnth as <-. assert (k = List.length (nodes st (address view))) as -> by lia.
      split; [reflexivity|]. split; [now exists view|].
      intros ed Hed. cbn in Hed. destruct (He ed Hed) as [Hp Hf].
      split; [exact Hp|]. rewrite Hf. discriminate.
  - rewrite upd_other by exact Hne. apply Hnodes.
Qed.

Lemma nodeOK_mono (st st' : Store) (a k : nat) (n : CompileNode) :
  nodeOK st a k n ->
  embeddedView st' a k = embeddedView st a k ->
  List.length (views st) <= List.length (views st') ->
  nodeOK st' a k n.
Proof.
  intros (Hi & Hv & He) Hsame Hlen. split; [exact Hi|]. split; [exact Hv|].
  intros ed Hed. destruct (He ed Hed) as [Hp Hemb]. split; [exact Hp|].
  intros Hanchor. destruct (Hemb Hanchor) as (ev & Hev & Hlt & Hlt').
  exists ev. rewrite Hsame. repeat split; [exact Hev | exact Hlt | lia].
Qed.

Lemma new_CompileView_skeleton (c : CompileDirectiveMetadata) (gc : CompilerConfig)
    (pm : list CompilePipeMetadata) (sty : Expression)
    (an : list AnimationEntryCompileResult) (vi : nat) (tvb : list (string * string))
    (p : CompileNode) (v : CompileView) (i : nat) (rn : Expression) (ast : TemplateAst)
    (ed : ElementData) (st : Store) :
  let declEl := MkCompileNode p v i rn ast (Some ed) in
  let r := new_CompileView c gc pm sty an vi declEl tvb st in
  let a := List.length (views st) in
  fst r = MkCompileView a c gc pm sty an vi declEl tvb
  /\ views (snd r) = views st ++ [fst r]
  /\ nodes (snd r) = upd (nodes st) a []
  /\ embeddedView (snd r) =
     upd (upd (embeddedView st) a (fun _ => None)) (address v)
       (upd (upd (embeddedView st) a (fun _ => None) (address v)) (position ed)
          (Some (fst r))).
Proof. repeat split; reflexivity. Qed.

(** Pushing an anchor and constructing its embedded view. *)
Lemma Inv_anchor_new_view (st : Store) (view : CompileView) (parent : CompileNode)
    (rn : Expression) (ast : TemplateAst) (ed : ElementData)
    (c : CompileDirectiveMetadata) (gc : CompilerConfig) (pm : list CompilePipeMetadata)
    (sty : Expression) (an : list AnimationEntryCompileResult) (vi : nat)
    (tvb : list (string * string)) :
  Inv st ->
  address view < List.length (views st) ->
  position ed = List.length (nodes st (address view)) ->
  let anchor :=
    MkCompileNode parent view (List.length (nodes st (address view))) rn ast (Some ed) in
  let r := new_CompileView c gc pm sty an vi anchor tvb (nodes_push st view anchor) in
  Inv (snd r)
  /\ views (snd r) = views st ++ [fst r]
  /\ address (fst r) = List.length (views st)
  /\ viewIndex (fst r) = vi
  /\ declarationElement (fst r) = anchor.
Proof.
  intros [Ha Hnodes] Hview Hpos anchor r.
  split; [|now repeat split].
  destruct (new_CompileView_skeleton c gc pm sty an vi tvb parent view
              (List.length (nodes st (address view))) rn ast ed
              (nodes_push st view anchor)) as (Hthis & Hviews & Hn & He).
  fold anchor in Hthis, Hviews, Hn, He. fold r in Hthis, Hviews, Hn, He.
  cbn [views nodes embeddedView nodes_push] in Hthis, Hviews, Hn, He.
  assert (Haddr : address (fst r) = List.length (views st)) by now rewrite Hthis.
  assert (Hne : address view <> List.length (views st)) by lia.
  clearbody r.
  unfold Inv, nodeOK. rewrite Hviews, Hn, He, length_app. cbn [List.length].
  split.
  - intros a v Hnth.
    destruct (Nat.lt_ge_cases a (List.length (views st))) as [Hlt|Hge].
    + rewrite nth_error_app1 in Hnth by exact Hlt. now apply Ha.
    + rewrite nth_error_app2 in Hnth by exact Hge.
      destruct (a - List.length (views st)) as [|d] eqn:Ed; [|destruct d; discriminate].
      injection Hnth as <-. lia.
  - intros a k n Hnth.
    destruct (Nat.eq_dec (List.length (views st)) a) as [<-|Hna].
    { rewrite upd_same in Hnth. destruct k; discriminate. }
    rewrite upd_other in Hnth by exact Hna.
    destruct (Nat.eq_dec (address view) a) as [<-|Hva].
    + rewrite upd_same in Hnth. rewrite upd_same.
      rewrite (upd_other _ _ (List.length (views st)) (address view)) by lia.
      destruct (Nat.lt_ge_cases k (List.length (nodes st (address view)))) as [Hlt|Hge].
      * rewrite nth_error_app1 in Hnth by exact Hlt.
        destruct (Hnodes _ _ _ Hnth) as (Hi & Hv & Hel).
        split; [exact Hi|]. split; [exact Hv|].
        intros ed' Hed'. destruct (Hel ed' Hed') as [Hp Hemb]. split; [exact Hp|].
        intros Hanchor. destruct (Hemb Hanchor) as (ev & Hev & Hlt1 & Hlt2).
        exists ev. rewrite upd_other by lia. repeat split; [exact Hev | exact Hlt1 | lia].
      * rewrite nth_error_app2 in Hnth by exact Hge.
        destruct (k - List.length (nodes st (address view))) as [|d] eqn:Ed;
          [|destruct d; discriminate].
        injection Hnth as <-. assert (k = List.length (nodes st (address view))) as -> by lia.
        split; [reflexivity|]. split; [now exists view|].
        intros ed' [= <-]. split; [exact Hpos|]. intros _.
        exists (fst r). rewrite Hpos, upd_same. repeat split; lia.
    + rewrite upd_other in Hnth by exact Hva.
      rewrite (upd_other _ _ (address view) a) by exact Hva.
      rewrite (upd_other _ _ (List.length (views st)) a) by exact Hna.
      destruct (Hnodes _ _ _ Hnth) as (Hi & Hv & Hel).
      split; [exact Hi|]. split; [exact Hv|].
      intros ed' Hed'. destruct (Hel ed' Hed') as [Hp Hemb]. split; [exact Hp|].
      intros Hanchor. destruct (Hemb Hanchor) as (ev & Hev & Hlt1 & Hlt2).
      exists ev. repeat split; [exact Hev | exact Hlt1 | lia].
Qed.

(** What a visit establishes, for the visitor of [view] that starts in [b]
    and ends in [b']: the invariant, [k] new views at the end of [views],
    their nesting indices counting on from the visitor's view and count, and
    the count stepped by [k]. *)
Definition Pre (view : CompileView) (b : Builder) : Prop :=
  Inv (store b) /\ address view < List.length (views (store b)).

Definition Post (view : CompileView) (b b' : Builder) (k : nat) : Prop :=
  Inv (store b')
  /\ (exists new,
        views (store b') = views (store b) ++ new
        /\ List.length new = k
        /\ map viewIndex new = seq (viewIndex view + nestedViewCount b + 1) k)
  /\ nestedViewCount b' = nestedViewCount b + k.

Lemma Post_skeleton (view : CompileView) (b b' : Builder) :
  Inv (store b') -> views (store b') = views (store b) ->
  nestedViewCount b' = nestedViewCount b ->
  Post view b b' 0.
Proof.
  intros HInv Hv Hc. split; [exact HInv|]. split; [|lia].
  exists []. rewrite app_nil_r. now repeat split.
Qed.

Lemma Post_trans (view : CompileView) (b1 b2 b3 : Builder) (k1 k2 : nat) :
  Post view b1 b2 k1 -> Post view b2 b3 k2 -> Post view b1 b3 (k1 + k2).
Proof.
  intros (_ & (new1 & Hv1 & Hl1 & Hi1) & Hc1) (HInv & (new2 & Hv2 & Hl2 & Hi2) & Hc2).
  split; [exact HInv|]. split; [|lia].
  exists (new1 ++ new2). rewrite Hv2, Hv1, <- app_assoc, length_app, map_app, Hi1, Hi2, Hc1.
  repeat split; [lia|]. rewrite seq_app. do 2 f_equal. lia.
Qed.

Lemma Post_Pre (view : CompileView) (b b' : Builder) (k : nat) :
  Pre view b -> Post view b b' k -> Pre view b'.
Proof.
  intros [_ Hlt] (HInv & (new & Hv & _) & _). split; [exact HInv|].
  rewrite Hv, length_app. lia.
Qed.

Lemma Inv_push (st st3 st' : Store) (view : CompileView) (parent : CompileNode)
    (rn : Expression) (ast : TemplateAst) (e : option ElementData) :
  Inv st ->
  same_skeleton st st3 ->
  (forall ed, e = Some ed ->
     position ed = List.length (nodes st (address view)) /\ hasEmbeddedView ed = false) ->
  same_skeleton
    (nodes_push st3 view
       (MkCompileNode parent view (List.length (nodes st (address view))) rn ast e)) st' ->
  Inv st' /\ views st' = views st.
Proof.
  intros HInv Hsk He Hsk'. pose proof Hsk as (Hv & Hn & _). split.
  - eapply Inv_same_skeleton; [exact Hsk'|]. rewrite <- Hn.
    apply Inv_nodes_push; [eapply Inv_same_skeleton; eassumption|].
    rewrite Hn. exact He.
  - destruct Hsk' as (Hv' & _). rewrite Hv'. exact Hv.
Qed.

Lemma visitText_post (ast : TemplateAst) (value : string) (parent : CompileNode)
    (view : CompileView) (b : Builder) :
  Pre view b -> Post view b (_visitText ast value parent view b) 0.
Proof.
  intros [HInv _]. unfold _visitText. cbv zeta.
  match goal with
  | |- Post _ _ (with_store _ (_addRootNodeAndProject _ ?n
                                 (createMethod_addStmt (nodes_push ?st1 _ _) _ _))) _ =>
      destruct (Inv_push (store b) st1
                  (_addRootNodeAndProject view n
                     (createMethod_addStmt (nodes_push st1 view n) view
                        (toStmt
                           (set_prop THIS_EXPR
                              ("_text_" +++ string_of_nat
                                 (List.length (nodes (store b) (address view))))
                              (callMethod ViewProperties_renderer "createText"
                                 [_getParentRenderNode view parent; literal_str value;
                                  resetDebugInfoExpr view
                                    (List.length (nodes (store b) (address view))) ast])))))
                  view parent
                  (prop THIS_EXPR
                     ("_text_" +++ string_of_nat
                        (List.length (nodes (store b) (address view)))))
                  ast None HInv) as [HInv' Hv]
  end.
  - apply field_push_skeleton.
  - discriminate.
  - eapply same_skeleton_trans; [apply createMethod_addStmt_skeleton|].
    apply addRootNodeAndProject_skeleton.
  - apply Post_skeleton; [exact HInv' | exact Hv | reflexivity].
Qed.

Lemma visitNgContent_post (index : nat) (ngContentIndex : option nat) (parent : CompileNode)
    (view : CompileView) (b : Builder) :
  Pre view b -> Post view b (visitNgContent index ngContentIndex parent view b) 0.
Proof.
  intros [HInv _]. unfold visitNgContent. cbv zeta.
  assert (Hb : Post view b b 0) by (now apply Post_skeleton).
  destruct (negb (is_NULL_EXPR (_getParentRenderNode view parent))).
  - apply Post_skeleton; [|reflexivity|reflexivity].
    eapply Inv_same_skeleton; [apply createMethod_addStmt_skeleton | exact HInv].
  - destruct (_isRootNode view parent).
    + destruct (negb _); [|exact Hb].
      apply Post_skeleton; [|reflexivity|reflexivity].
      eapply Inv_same_skeleton; [apply rootNodes_push_skeleton | exact HInv].
    + destruct (node_component parent); [|exact Hb].
      destruct ngContentIndex; [|exact Hb].
      apply Post_skeleton; [| |reflexivity].
      * eapply Inv_same_skeleton; [apply addContentNode_skeleton | exact HInv].
      * cbn [store with_store]. now destruct (addContentNode_skeleton parent n
          (key ViewProperties_projectableNodes (literal_num index)
             (option_map (fun t => ArrayType t [])
                (importType (identifierOf (renderNode (renderTypes (genConfig view)))) [] [])))
          (store b)) as (-> & _).
Qed.

Lemma deps_push_fold_store (A : Type) (f : A -> Dependency) (l : list A) (b : Builder) :
  store (fold_left (fun b x => deps_push b (f x)) l b) = store b.
Proof.
  revert b. induction l as [|x l IH]; intros b; [reflexivity|].
  cbn [fold_left]. now rewrite IH.
Qed.

Lemma deps_push_fold_count (A : Type) (f : A -> Dependency) (l : list A) (b : Builder) :
  nestedViewCount (fold_left (fun b x => deps_push b (f x)) l b) = nestedViewCount b.
Proof.
  revert b. induction l as [|x l IH]; intros b; [reflexivity|].
  cbn [fold_left]. now rewrite IH.
Qed.

Lemma createMethod_addStmts_nodes (v : CompileView) (ss : list Statement) (st : Store) :
  nodes (fold_left (fun st s => createMethod_addStmt st v s) ss st) = nodes st.
Proof. now destruct (createMethod_addStmts_skeleton v ss st) as (_ & -> & _). Qed.

Lemma visitElement_before_skeleton (ast : TemplateAst) (name : string) (attrs : list AttrAst)
    (references : list ReferenceAst) (directiveAsts : list DirectiveAst)
    (providers : list ProviderAst) (hasViewContainer : bool)
    (parent : CompileNode) (view : CompileView) (b : Builder) :
  let r :=
    visitElement_before ast name attrs references directiveAsts providers
      hasViewContainer parent view b in
  let n := List.length (nodes (store b) (address view)) in
  exists st3 ed,
    same_skeleton (store b) st3
    /\ fst (fst r) =
       MkCompileNode parent view n (prop THIS_EXPR ("_el_" +++ string_of_nat n)) ast (Some ed)
    /\ position ed = n
    /\ hasEmbeddedView ed = false
    /\ same_skeleton (nodes_push st3 view (fst (fst r))) (store (snd r))
    /\ nestedViewCount (snd r) = nestedViewCount b.
Proof.
  unfold visitElement_before. cbv zeta.
  destruct (find isComponent (map directive directiveAsts)) as [c|]; cbn [fst snd].
  - eexists _, _.
    split; [|split; [reflexivity|split; [|split; [reflexivity|split]]]].
    + eapply same_skeleton_trans; [apply field_push_skeleton|].
      eapply same_skeleton_trans; [apply createMethod_addStmt_skeleton|].
      eapply same_skeleton_trans; [apply createMethod_addStmts_skeleton|].
      apply with_gen_skeleton.
    + cbn [position]. now rewrite createMethod_addStmts_nodes.
    + cbn [store with_store with_gen_b nestedViewCount].
      rewrite deps_push_fold_store.
      eapply same_skeleton_trans; [|apply addRootNodeAndProject_skeleton].
      eapply same_skeleton_trans; [|apply with_gen_skeleton].
      eapply same_skeleton_trans; [|apply createMethod_addStmt_skeleton].
      eapply same_skeleton_trans; [|apply with_gen_skeleton].
      eapply same_skeleton_trans; [|apply with_gen_skeleton].
      apply same_skeleton_refl.
    + cbn [store with_store with_gen_b nestedViewCount].
      now rewrite deps_push_fold_count.
  - eexists _, _.
    split; [|split; [reflexivity|split; [|split; [reflexivity|split]]]].
    + eapply same_skeleton_trans; [apply field_push_skeleton|].
      eapply same_skeleton_trans; [apply createMethod_addStmt_skeleton|].
      eapply same_skeleton_trans; [apply createMethod_addStmts_skeleton|].
      apply with_gen_skeleton.
    + cbn [position]. now rewrite createMethod_addStmts_nodes.
    + cbn [store with_store with_gen_b nestedViewCount].
      eapply same_skeleton_trans; [|apply addRootNodeAndProject_skeleton].
      eapply same_skeleton_trans; [|apply with_gen_skeleton].
      apply same_skeleton_refl.
    + reflexivity.
Qed.

Lemma visitElement_before_post (ast : TemplateAst) (name : string) (attrs : list AttrAst)
    (references : list ReferenceAst) (directiveAsts : list DirectiveAst)
    (providers : list ProviderAst) (hasViewContainer : bool)
    (parent : CompileNode) (view : CompileView) (b : Builder) :
  Pre view b ->
  Post view b
    (snd (visitElement_before ast name attrs references directiveAsts providers
            hasViewContainer parent view b)) 0.
Proof.
  intros [HInv _].
  destruct (visitElement_before_skeleton ast name attrs references directiveAsts providers
              hasViewContainer parent view b)
    as (st3 & ed & Hsk & Hel & Hpos & Hemb & Hsk' & Hc).
  rewrite Hel in Hsk'.
  assert (He : forall ed', Some ed = Some ed' ->
                 position ed' = List.length (nodes (store b) (address view))
                 /\ hasEmbeddedView ed' = false).
  { intros ed' [= <-]. now split. }
  destruct (Inv_push (store b) st3 _ view parent _ ast (Some ed) HInv Hsk He Hsk')
    as [HInv' Hv].
  apply Post_skeleton; assumption.
Qed.

Lemma visitElement_after_post (compileElement : CompileNode) (nodeIndex : nat)
    (compViewExpr : option Expression) (view : CompileView) (b : Builder) :
  Inv (store b) ->
  Post view b (visitElement_after compileElement nodeIndex compViewExpr view b) 0.
Proof.
  intros HInv. unfold visitElement_after. cbv zeta.
  destruct compViewExpr as [cve|];
    (apply Post_skeleton; [|reflexivity|reflexivity]).
  - eapply Inv_same_skeleton; [|exact HInv].
    eapply same_skeleton_trans; [apply with_gen_skeleton|].
    apply createMethod_addStmt_skeleton.
  - eapply Inv_same_skeleton; [apply with_gen_skeleton | exact HInv].
Qed.

Lemma Inv_anchor_new_view_eq (st st4 : Store) (view : CompileView) (parent : CompileNode)
    (i : nat) (rn : Expression) (ast : TemplateAst) (ed : ElementData)
    (c : CompileDirectiveMetadata) (gc : CompilerConfig) (pm : list CompilePipeMetadata)
    (sty : Expression) (an : list AnimationEntryCompileResult) (vi : nat)
    (tvb : list (string * string)) (r : CompileView * Store) :
  Inv st ->
  address view < List.length (views st) ->
  i = List.length (nodes st (address view)) ->
  position ed = List.length (nodes st (address view)) ->
  st4 = nodes_push st view (MkCompileNode parent view i rn ast (Some ed)) ->
  r = new_CompileView c gc pm sty an vi (MkCompileNode parent view i rn ast (Some ed)) tvb st4 ->
  Inv (snd r)
  /\ views (snd r) = views st ++ [fst r]
  /\ address (fst r) = List.length (views st)
  /\ viewIndex (fst r) = vi
  /\ declarationElement (fst r) = MkCompileNode parent view i rn ast (Some ed).
Proof.
  intros HInv Hlt -> Hpos -> ->.
  exact (Inv_anchor_new_view st view parent rn ast ed c gc pm sty an vi tvb HInv Hlt Hpos).
Qed.

Lemma visitEmbeddedTemplate_before_post (ast : TemplateAst) (variables : list VariableAst)
    (references : list ReferenceAst) (directiveAsts : list DirectiveAst)
    (providers : list ProviderAst) (hasViewContainer : bool)
    (parent : CompileNode) (view : CompileView) (b : Builder) :
  Pre view b ->
  let r :=
    visitEmbeddedTemplate_before ast variables references directiveAsts providers
      hasViewContainer parent view b in
  let embedded := snd (fst r) in
  Inv (store (snd r))
  /\ views (store (snd r)) = views (store b) ++ [embedded]
  /\ address embedded = List.length (views (store b))
  /\ viewIndex embedded = viewIndex view + S (nestedViewCount b)
  /\ nestedViewCount (snd r) = S (nestedViewCount b)
  /\ targetDependencies (snd r) = targetDependencies b
  /\ exists i rn e, declarationElement embedded = MkCompileNode parent view i rn ast e.
Proof.
  intros [HInv Hlt]. unfold visitEmbeddedTemplate_before. cbv zeta.
  match goal with
  | |- context [new_CompileView ?c ?gc ?pm ?sty ?an ?vi
                  (MkCompileNode ?p ?v ?i ?rn ?a (Some ?ed)) ?tvb (nodes_push ?st3 ?v' ?n)] =>
      remember (new_CompileView c gc pm sty an vi
                  (MkCompileNode p v i rn a (Some ed)) tvb (nodes_push st3 v' n)) as r eqn:Er;
      assert (HInv3 : Inv st3);
      [|pose proof (Inv_anchor_new_view_eq st3 (nodes_push st3 v' n) view p i rn a ed
                      c gc pm sty an vi tvb r HInv3 Hlt eq_refl eq_refl eq_refl Er) as H]
  end.
  - eapply Inv_same_skeleton; [|exact HInv].
    eapply same_skeleton_trans; [apply field_push_skeleton|].
    eapply same_skeleton_trans; [apply createMethod_addStmt_skeleton|].
    apply with_gen_skeleton.
  - clear Er. destruct r as [embedded st5].
    cbn [fst snd store nestedViewCount targetDependencies views with_gen] in H |- *.
    destruct H as (HInv5 & Hviews & Haddr & Hvi & Hdecl).
    do 4 (split; [assumption|]). do 2 (split; [reflexivity|]). rewrite Hdecl. eauto.
Qed.

Lemma visitEmbeddedTemplate_after_skeleton (compileElement : CompileNode)
    (view : CompileView) (b : Builder) :
  same_skeleton (store b) (store (visitEmbeddedTemplate_after compileElement view b))
  /\ nestedViewCount (visitEmbeddedTemplate_after compileElement view b) = nestedViewCount b.
Proof.
  unfold visitEmbeddedTemplate_after. cbv zeta. split; [|reflexivity].
  eapply same_skeleton_trans; [apply with_gen_skeleton|].
  eapply same_skeleton_trans; [apply addRootNodeAndProject_skeleton|].
  apply with_gen_skeleton.
Qed.

Lemma visitAll_post (children : list TemplateAst) :
  (forall c, In c children ->
     forall parent view b, Pre view b ->
     Post view b (visit c parent view b) (countEmbedded c)) ->
  forall parent view b, Pre view b ->
  Post view b (fold_left (fun b c => visit c parent view b) children b)
    (list_sum (map countEmbedded children)).
Proof.
  induction children as [|c children IHc]; intros H parent view b HPre.
  - cbn. apply Post_skeleton; [apply HPre | reflexivity | reflexivity].
  - cbn [fold_left map list_sum fold_right].
    assert (Hc : Post view b (visit c parent view b) (countEmbedded c)).
    { apply H; [now left | exact HPre]. }
    eapply Post_trans; [exact Hc|].
    apply IHc; [|eapply Post_Pre; eassumption].
    intros c' Hin. apply H. now right.
Qed.

(** The visit of one template node. *)
Lemma visit_post (ast : TemplateAst) :
  forall parent view b, Pre view b ->
  Post view b (visit ast parent view b) (countEmbedded ast).
Proof.
  induction ast as [ast IH] using TemplateAst_children_ind.
  intros parent view b HPre.
  assert (Hid : Post view b b 0).
  { apply Post_skeleton; [apply HPre | reflexivity | reflexivity]. }
  destruct ast as [value idx|source idx
                  |name attrs inputs outputs refs dirs provs hvc children idx
                  |attrs outputs refs vars dirs provs hvc children idx
                  |index idx| | | | | | |];
    cbn [visit countEmbedded ast_children] in *; try exact Hid.
  - now apply visitText_post.
  - now apply visitText_post.
  - pose proof (visitElement_before_post
                  (ElementAst name attrs inputs outputs refs dirs provs hvc children idx)
                  name attrs refs dirs provs hvc parent view b HPre) as Hbefore.
    destruct (visitElement_before _ name attrs refs dirs provs hvc parent view b)
      as [[el cve] b1].
    cbn [snd] in Hbefore.
    replace (list_sum (map countEmbedded children))
      with (0 + (list_sum (map countEmbedded children) + 0)) by lia.
    eapply Post_trans; [exact Hbefore|].
    assert (Hchildren :
              Post view b1 (fold_left (fun b child => visit child el view b) children b1)
                (list_sum (map countEmbedded children))).
    { apply visitAll_post; [exact IH | eapply Post_Pre; eassumption]. }
    eapply Post_trans; [exact Hchildren|].
    apply visitElement_after_post. apply Hchildren.
  - pose proof (visitEmbeddedTemplate_before_post
                  (EmbeddedTemplateAst attrs outputs refs vars dirs provs hvc children idx)
                  vars refs dirs provs hvc parent view b HPre) as Hbefore.
    cbv zeta in Hbefore.
    destruct (visitEmbeddedTemplate_before _ vars refs dirs provs hvc parent view b)
      as [[el ev] b1].
    cbn [fst snd] in Hbefore.
    destruct Hbefore as (HInv1 & Hviews & Haddr & Hvi & Hc1 & _ & (i & rn & e & Hdecl)).
    unfold buildView_with. rewrite Hdecl.
    set (b0 := {| store := store b1; nestedViewCount := 0;
                  targetDependencies := targetDependencies b1 |}).
    assert (HPre0 : Pre ev b0).
    { split; [exact HInv1|]. cbn [store b0]. rewrite Hviews, length_app, Haddr. cbn. lia. }
    destruct (visitAll_post children IH parent ev b0 HPre0)
      as (HInvI & (new & HvI & HlI & HiI) & HcI).
    set (inner := fold_left (fun b ast => visit ast parent ev b) children b0) in *.
    match goal with
    | |- Post _ _ (visitEmbeddedTemplate_after el view ?bb) _ =>
        destruct (visitEmbeddedTemplate_after_skeleton el view bb) as [Hsk Hcount]
    end.
    cbn [store nestedViewCount] in Hsk, Hcount.
    split; [eapply Inv_same_skeleton; eassumption|].
    split.
    + exists (ev :: new). destruct Hsk as (-> & _).
      rewrite HvI. cbn [store b0]. rewrite Hviews, <- app_assoc. cbn [app List.length map].
      split; [reflexivity|]. split; [now rewrite HlI|].
      rewrite HiI, Hvi. cbn [nestedViewCount b0 seq]. f_equal; [lia|]. f_equal. lia.
    + rewrite Hcount, Hc1, HcI. cbn [nestedViewCount b0]. lia.
  - now apply visitNgContent_post.
Qed.

(** *** A compilation from the top-level view *)

Variable elementPrivate0 : ElementPrivate.

Definition emptyStore : Store :=
  {| views := []; nodes := fun _ => []; rootNodesOrAppElements := fun _ => [];
     embeddedView := fun _ _ => None;
     contentNodesByNgContentIndex := fun _ _ _ => [];
     gen := {| buffers := fun _ => emptyBuffers; queries := [];
               elementPrivate := elementPrivate0 |} |}.

(** The top-level view of a component (or host): nesting index 0, the null
    element as its declaration element, no template variables. *)
Definition rootView (c : CompileDirectiveMetadata) (gc : CompilerConfig)
    (pm : list CompilePipeMetadata) (sty : Expression)
    (an : list AnimationEntryCompileResult) : CompileView * Store :=
  new_CompileView c gc pm sty an 0 NullElement [] emptyStore.

Lemma rootView_Pre (c : CompileDirectiveMetadata) (gc : CompilerConfig)
    (pm : list CompilePipeMetadata) (sty : Expression)
    (an : list AnimationEntryCompileResult) (deps : list Dependency) :
  Pre (fst (rootView c gc pm sty an))
    {| store := snd (rootView c gc pm sty an); nestedViewCount := 0;
       targetDependencies := deps |}
  /\ views (snd (rootView c gc pm sty an)) = [fst (rootView c gc pm sty an)]
  /\ viewIndex (fst (rootView c gc pm sty an)) = 0.
Proof.
  unfold rootView, new_CompileView. cbn [fst snd store].
  split; [|split; reflexivity]. split; [|cbn; lia].
  split.
  - intros [|a] v Hnth; cbn in Hnth.
    + injection Hnth as Hv. now rewrite <- Hv.
    + destruct a; discriminate.
  - intros a k n Hnth. cbn [nodes store emptyStore views List.length address] in Hnth.
    unfold upd in Hnth. destruct (Nat.eqb 0 a); destruct k; cbn in Hnth; discriminate.
Qed.

Lemma buildView_post (view : CompileView) (template : list TemplateAst)
    (deps : list Dependency) (st : Store) :
  Inv st -> address view < List.length (views st) ->
  Post view {| store := st; nestedViewCount := 0; targetDependencies := deps |}
    (buildView view template deps st) (list_sum (map countEmbedded template)).
Proof.
  intros HInv Hlt. unfold buildView, buildView_with.
  apply visitAll_post; [intros c _; apply visit_post | now split].
Qed.

(** Two structural directives, one inside the other. *)
Definition twoLevels : list TemplateAst :=
  [EmbeddedTemplateAst [] [] [] [] [] [] false
     [EmbeddedTemplateAst [] [] [] [] [] [] false [] None] None].

(** C5. In a compilation from the top-level view, [buildView] constructs
    one view per embedded template of the template, at any depth: the views
    in the order of their construction have the nesting indices 0, 1, 2, ...,
    so each embedded view is given one more than the number of embedded
    views constructed before it, and the nested view count that [buildView]
    returns is the number of embedded templates. For two structural
    directives nested in each other the views have the indices 0, 1, 2 and
    [buildView] returns 2. *)
Theorem buildView_numbers_views_in_sequence (c : CompileDirectiveMetadata)
    (gc : CompilerConfig) (pm : list CompilePipeMetadata) (sty : Expression)
    (an : list AnimationEntryCompileResult) (template : list TemplateAst)
    (deps : list Dependency) :
  let root := fst (rootView c gc pm sty an) in
  let b := buildView root template deps (snd (rootView c gc pm sty an)) in
  let n := list_sum (map countEmbedded template) in
  map viewIndex (views (store b)) = seq 0 (S n)
  /\ (forall k v, nth_error (views (store b)) k = Some v -> address v = k /\ viewIndex v = k)
  /\ nestedViewCount b = n
  /\ (template = twoLevels ->
      map viewIndex (views (store b)) = [0; 1; 2] /\ nestedViewCount b = 2).
Proof.
  intros root b n.
  destruct (rootView_Pre c gc pm sty an deps) as ([HInv Hlt] & Hviews & Hvi).
  cbn [store] in HInv, Hlt.
  destruct (buildView_post root template deps _ HInv Hlt)
    as ([Haddr _] & (new & Hv & Hl & Hi) & Hc).
  cbn [store nestedViewCount] in Hv, Hi, Hc.
  change (list_sum (map countEmbedded template)) with n in Hl, Hi, Hc.
  change (buildView root template deps (snd (rootView c gc pm sty an))) with b
    in Haddr, Hv, Hc.
  assert (Hseq : map viewIndex (views (store b)) = seq 0 (S n)).
  { rewrite Hv, Hviews, map_app, Hi. unfold root. rewrite Hvi. reflexivity. }
  split; [exact Hseq|]. split; [|split; [exact Hc|]].
  - intros k v Hnth. split; [now apply Haddr|].
    assert (Hk : nth_error (map viewIndex (views (store b))) k = Some (viewIndex v))
      by (now apply map_nth_error).
    rewrite Hseq in Hk.
    assert (Hlt' : k < List.length (seq 0 (S n))).
    { apply nth_error_Some. rewrite Hk. discriminate. }
    rewrite length_seq in Hlt'.
    rewrite nth_error_seq in Hk.
    apply Nat.ltb_lt in Hlt'. rewrite Hlt' in Hk. now injection Hk as <-.
  - intros Ht. subst n. rewrite Hseq, Hc, Ht. split; reflexivity.
Qed.

(** ** Properties of the builder: the shared arrays are only appended to *)

(** [b] with [d] in front of its [targetDependencies]. *)
Definition prepend (d : list Dependency) (b : Builder) : Builder :=
  {| store := store b; nestedViewCount := nestedViewCount b;
     targetDependencies := d ++ targetDependencies b |}.

Lemma deps_push_fold (A : Type) (f : A -> Dependency) (l : list A) (b : Builder) :
  fold_left (fun b x => deps_push b (f x)) l b =
  {| store := store b; nestedViewCount := nestedViewCount b;
     targetDependencies := targetDependencies b ++ map f l |}.
Proof.
  revert b. induction l as [|x l IH]; intros b.
  - cbn. rewrite app_nil_r. now destruct b.
  - cbn [fold_left map]. rewrite IH. unfold deps_push. cbn.
    now rewrite <- app_assoc.
Qed.

Lemma visitText_frame (ast : TemplateAst) (value : string) (parent : CompileNode)
    (view : CompileView) (d : list Dependency) (b : Builder) :
  _visitText ast value parent view (prepend d b) = prepend d (_visitText ast value parent view b).
Proof. reflexivity. Qed.

Lemma visitNgContent_frame (index : nat) (ngContentIndex : option nat) (parent : CompileNode)
    (view : CompileView) (d : list Dependency) (b : Builder) :
  visitNgContent index ngContentIndex parent view (prepend d b)
  = prepend d (visitNgContent index ngContentIndex parent view b).
Proof.
  unfold visitNgContent. cbv zeta.
  destruct (negb (is_NULL_EXPR (_getParentRenderNode view parent))); [reflexivity|].
  destruct (_isRootNode view parent).
  - destruct (negb _); reflexivity.
  - destruct (node_component parent); [|reflexivity].
    destruct ngContentIndex; reflexivity.
Qed.

Lemma visitElement_before_frame (ast : TemplateAst) (name : string) (attrs : list AttrAst)
    (references : list ReferenceAst) (directiveAsts : list DirectiveAst)
    (providers : list ProviderAst) (hasViewContainer : bool)
    (parent : CompileNode) (view : CompileView) (d : list Dependency) (b : Builder) :
  visitElement_before ast name attrs references directiveAsts providers hasViewContainer
    parent view (prepend d b)
  = (fst (visitElement_before ast name attrs references directiveAsts providers
            hasViewContainer parent view b),
     prepend d
       (snd (visitElement_before ast name attrs references directiveAsts providers
               hasViewContainer parent view b))).
Proof.
  unfold visitElement_before. cbv zeta.
  destruct (find isComponent (map directive directiveAsts)) as [c|]; [|reflexivity].
  rewrite !deps_push_fold.
  cbn [fst snd store nestedViewCount targetDependencies prepend with_store with_gen_b
         deps_push].
  now rewrite <- !app_assoc.
Qed.

Lemma visitElement_after_frame (compileElement : CompileNode) (nodeIndex : nat)
    (compViewExpr : option Expression) (view : CompileView) (d : list Dependency)
    (b : Builder) :
  visitElement_after compileElement nodeIndex compViewExpr view (prepend d b)
  = prepend d (visitElement_after compileElement nodeIndex compViewExpr view b).
Proof. unfold visitElement_after. cbv zeta. destruct compViewExpr; reflexivity. Qed.

Lemma visitEmbeddedTemplate_before_frame (ast : TemplateAst) (variables : list VariableAst)
    (references : list ReferenceAst) (directiveAsts : list DirectiveAst)
    (providers : list ProviderAst) (hasViewContainer : bool)
    (parent : CompileNode) (view : CompileView) (d : list Dependency) (b : Builder) :
  visitEmbeddedTemplate_before ast variables references directiveAsts providers
    hasViewContainer parent view (prepend d b)
  = (fst (visitEmbeddedTemplate_before ast variables references directiveAsts providers
            hasViewContainer parent view b),
     prepend d
       (snd (visitEmbeddedTemplate_before ast variables references directiveAsts providers
               hasViewContainer parent view b))).
Proof. reflexivity. Qed.

Lemma visitAll_frame (children : list TemplateAst) :
  (forall c, In c children ->
     forall parent view d b,
     visit c parent view (prepend d b) = prepend d (visit c parent view b)) ->
  forall parent view d b,
  fold_left (fun b c => visit c parent view b) children (prepend d b)
  = prepend d (fold_left (fun b c => visit c parent view b) children b).
Proof.
  induction children as [|c children IHc]; intros H parent view d b; [reflexivity|].
  cbn [fold_left]. rewrite H by now left. apply IHc. intros c' Hin. apply H. now right.
Qed.

(** A visit reads nothing of [targetDependencies] and appends to it. *)
Lemma visit_frame (ast : TemplateAst) :
  forall parent view d b,
  visit ast parent view (prepend d b) = prepend d (visit ast parent view b).
Proof.
  induction ast as [ast IH] using TemplateAst_children_ind.
  intros parent view d b.
  destruct ast as [value idx|source idx
                  |name attrs inputs outputs refs dirs provs hvc children idx
                  |attrs outputs refs vars dirs provs hvc children idx
                  |index idx| | | | | | |];
    cbn [visit ast_children] in *; try reflexivity.
  - rewrite visitElement_before_frame.
    destruct (visitElement_before _ name attrs refs dirs provs hvc parent view b)
      as [[el cve] b1].
    cbn [fst snd store prepend].
    rewrite (visitAll_frame children IH). apply visitElement_after_frame.
  - rewrite visitEmbeddedTemplate_before_frame.
    destruct (visitEmbeddedTemplate_before _ vars refs dirs provs hvc parent view b)
      as [[el ev] b1].
    cbn [fst snd]. unfold buildView_with.
    change {| store := store (prepend d b1); nestedViewCount := 0;
              targetDependencies := targetDependencies (prepend d b1) |}
      with (prepend d {| store := store b1; nestedViewCount := 0;
                         targetDependencies := targetDependencies b1 |}).
    rewrite (visitAll_frame children IH). reflexivity.
  - apply visitNgContent_frame.
Qed.

Lemma buildView_frame (view : CompileView) (template : list TemplateAst)
    (d : list Dependency) (st : Store) :
  buildView view template d st = prepend d (buildView view template [] st).
Proof.
  unfold buildView, buildView_with.
  replace {| store := st; nestedViewCount := 0; targetDependencies := d |}
    with (prepend d {| store := st; nestedViewCount := 0; targetDependencies := [] |})
    by (unfold prepend; cbn; now rewrite app_nil_r).
  apply visitAll_frame. intros c _. apply visit_frame.
Qed.

(** ** Properties of [finishView] *)

Lemma createViewTopLevelStmts_frame (view : CompileView) (acc ts : list Statement)
    (st : Store) :
  createViewTopLevelStmts view (acc ++ ts) st
  = option_map (app acc) (createViewTopLevelStmts view ts st).
Proof.
  unfold createViewTopLevelStmts. cbv zeta.
  destruct (createViewClass view _ _ st); [|reflexivity].
  destruct (genDebugInfo (genConfig view)); destruct (Nat.eqb (viewIndex view) 0);
    cbn [option_map]; now rewrite <- ?app_assoc.
Qed.

(** A result of [finishView] with [acc] in front of its statements. *)
Definition withPrefix (acc : list Statement) (r : Result (Store * list Statement))
  : Result (Store * list Statement) :=
  match r with
  | Ok (st, out) => Ok (st, acc ++ out)
  | TypeError => TypeError
  | OutOfFuel => OutOfFuel
  end.

(** The body of [view.nodes.forEach] in [finishView], over the recursive
    call. *)
Definition finishNode
    (finish : CompileView -> list Statement -> Store -> Result (Store * list Statement))
    (acc : Result (Store * list Statement)) (node : CompileNode)
  : Result (Store * list Statement) :=
  match acc with
  | Ok (st, targetStatements) =>
      if node_hasEmbeddedView node then
        match node_embeddedView st node with
        | Some embedded => finish embedded targetStatements st
        | None => TypeError
        end
      else acc
  | _ => acc
  end.

Lemma finishView_unfold (fuel : nat) (view : CompileView) (ts : list Statement) (st : Store) :
  finishView (S fuel) view ts st =
  match afterNodes view (gen st) with
  | None => TypeError
  | Some g =>
      match createViewTopLevelStmts view ts (with_gen st g) with
      | None => TypeError
      | Some ts1 =>
          fold_left (finishNode (finishView fuel)) (nodes st (address view))
            (Ok (with_gen st g, ts1))
      end
  end.
Proof. reflexivity. Qed.

(** [finishView] reads nothing of [targetStatements] and appends to it. *)
Lemma finishView_frame (fuel : nat) :
  forall view acc ts st,
  finishView fuel view (acc ++ ts) st = withPrefix acc (finishView fuel view ts st).
Proof.
  induction fuel as [|fuel IH]; intros view acc ts st; [reflexivity|].
  rewrite !finishView_unfold.
  destruct (afterNodes view (gen st)) as [g|]; [|reflexivity].
  rewrite createViewTopLevelStmts_frame.
  destruct (createViewTopLevelStmts view ts (with_gen st g)) as [ts1|]; [|reflexivity].
  cbn [option_map].
  change (Ok (with_gen st g, acc ++ ts1)) with (withPrefix acc (Ok (with_gen st g, ts1))).
  generalize (Ok (with_gen st g, ts1)) as r.
  induction (nodes st (address view)) as [|n ns IHn]; intros r; [reflexivity|].
  cbn [fold_left]. rewrite <- IHn. f_equal.
  destruct r as [[st' out]| |]; cbn [withPrefix finishNode]; try reflexivity.
  destruct (node_hasEmbeddedView n); [|reflexivity].
  destruct (node_embeddedView st' n); [apply IH | reflexivity].
Qed.

(** [finishView] changes generated code only. *)
Lemma finishView_skeleton (fuel : nat) :
  forall view ts st st' out,
  finishView fuel view ts st = Ok (st', out) -> same_skeleton st st'.
Proof.
  induction fuel as [|fuel IH]; intros view ts st st' out; [discriminate|].
  rewrite finishView_unfold.
  destruct (afterNodes view (gen st)) as [g|]; [|discriminate].
  destruct (createViewTopLevelStmts view ts (with_gen st g)) as [ts1|]; [|discriminate].
  assert (Hr : forall sa ta, Ok (with_gen st g, ts1) = Ok (sa, ta) -> same_skeleton st sa).
  { intros sa ta [= <- _]. apply with_gen_skeleton. }
  revert Hr. generalize (Ok (with_gen st g, ts1)) as r.
  induction (nodes st (address view)) as [|n ns IHn]; intros r Hr Hfold.
  - cbn in Hfold. eapply Hr. exact Hfold.
  - cbn [fold_left] in Hfold. apply IHn in Hfold; [exact Hfold|].
    intros sa ta Hstep. destruct r as [[sr tr]| |]; cbn [finishNode] in Hstep;
      try discriminate.
    destruct (node_hasEmbeddedView n).
    + destruct (node_embeddedView sr n) as [ev|]; [|discriminate].
      eapply same_skeleton_trans; [eapply Hr; reflexivity|]. eapply IH. exact Hstep.
    + eapply Hr. exact Hstep.
Qed.

(** An anchor's embedded view is recorded and was constructed later. *)
Lemma Inv_anchor (st : Store) (a : nat) (n : CompileNode) :
  Inv st -> In n (nodes st a) -> node_hasEmbeddedView n = true ->
  exists ev, node_embeddedView st n = Some ev
             /\ a < address ev /\ address ev < List.length (views st).
Proof.
  intros [_ Hnodes] Hin Hanchor.
  destruct (In_nth_error _ _ Hin) as [k Hk].
  destruct (Hnodes a k n Hk) as (_ & (v & Hv & Ha) & Hel).
  destruct n as [|p v' i rn ast [ed|]]; try discriminate.
  cbn in Hv, Hanchor. injection Hv as ->.
  destruct (Hel ed eq_refl) as [Hpos Hemb].
  destruct (Hemb Hanchor) as (ev & Hev & Hlt).
  exists ev. cbn [node_embeddedView]. now rewrite Ha, Hpos.
Qed.

(** With as much fuel as there are views from [view] on, [finishView]
    ends. *)
Lemma finishView_fuel (fuel : nat) :
  forall view ts st,
  Inv st -> address view < List.length (views st) ->
  List.length (views st) - address view <= fuel ->
  finishView fuel view ts st <> OutOfFuel.
Proof.
  induction fuel as [|fuel IH]; intros view ts st HInv Hlt Hfuel; [lia|].
  rewrite finishView_unfold.
  destruct (afterNodes view (gen st)) as [g|]; [|discriminate].
  destruct (createViewTopLevelStmts view ts (with_gen st g)) as [ts1|]; [|discriminate].
  assert (Hr : Ok (with_gen st g, ts1) <> OutOfFuel
               /\ forall sa ta, Ok (with_gen st g, ts1) = Ok (sa, ta) -> same_skeleton st sa).
  { split; [discriminate|]. intros sa ta [= <- _]. apply with_gen_skeleton. }
  assert (Hns : forall n, In n (nodes st (address view)) -> In n (nodes st (address view)))
    by (intros n Hn; exact Hn).
  revert Hr Hns. generalize (Ok (with_gen st g, ts1)) as r.
  generalize (nodes st (address view)) at 1 3 as ns.
  induction ns as [|n ns IHn]; intros r [Hr1 Hr2] Hns; [exact Hr1|].
  cbn [fold_left]. apply IHn; [|intros n' Hin; apply Hns; now right].
  destruct r as [[sr tr]| |]; cbn [finishNode];
    [|split; [discriminate|discriminate]|exfalso; apply Hr1; reflexivity].
  pose proof (Hr2 sr tr eq_refl) as Hsk.
  destruct (node_hasEmbeddedView n) eqn:Hanchor; [|split; [discriminate | exact Hr2]].
  destruct (Inv_anchor sr (address view) n) as (ev & Hev & Hlt1 & Hlt2).
  { eapply Inv_same_skeleton; eassumption. }
  { destruct Hsk as (_ & -> & _). apply Hns. now left. }
  { exact Hanchor. }
  rewrite Hev.
  assert (Hviews : views sr = views st) by apply Hsk.
  split.
  - apply IH; [eapply Inv_same_skeleton; eassumption | exact Hlt2 |].
    rewrite Hviews. lia.
  - intros sa ta Hstep. eapply same_skeleton_trans; [exact Hsk|].
    eapply finishView_skeleton. exact Hstep.
Qed.

(** One run of the build: the top-level view is constructed, [buildView]
    fills it from the template, [finishView] appends the statements of every
    view. [dependencies] and [targetStatements] are the arrays of the
    caller as they are before the run; the result holds them after it. The
    fuel of [finishView] is the number of views that were constructed. *)
Definition buildAndFinish (c : CompileDirectiveMetadata) (gc : CompilerConfig)
    (pm : list CompilePipeMetadata) (sty : Expression)
    (an : list AnimationEntryCompileResult) (template : list TemplateAst)
    (dependencies : list Dependency) (targetStatements : list Statement)
  : Result (list Dependency * list Statement) :=
  let root := fst (rootView c gc pm sty an) in
  let b := buildView root template dependencies (snd (rootView c gc pm sty an)) in
  match finishView (List.length (views (store b))) root targetStatements (store b) with
  | Ok (_, statements) => Ok (targetDependencies b, statements)
  | TypeError => TypeError
  | OutOfFuel => OutOfFuel
  end.

(** X17. A run of the build reads nothing of the arrays of its caller and
    only appends to them: whatever [dependencies] and [targetStatements]
    hold before the run, after it they hold the same followed by what the
    run gives on empty arrays, and the run fails on the ones exactly when
    it fails on the others. With the number of views as fuel the run never
    runs out of fuel. *)
Theorem buildAndFinish_only_appends (c : CompileDirectiveMetadata) (gc : CompilerConfig)
    (pm : list CompilePipeMetadata) (sty : Expression)
    (an : list AnimationEntryCompileResult) (template : list TemplateAst)
    (dependencies : list Dependency) (targetStatements : list Statement) :
  buildAndFinish c gc pm sty an template [] [] <> OutOfFuel
  /\ buildAndFinish c gc pm sty an template dependencies targetStatements =
     match buildAndFinish c gc pm sty an template [] [] with
     | Ok (d, s) => Ok (dependencies ++ d, targetStatements ++ s)
     | TypeError => TypeError
     | OutOfFuel => OutOfFuel
     end.
Proof.
  split.
  - unfold buildAndFinish. cbv zeta.
    destruct (rootView_Pre c gc pm sty an []) as ([HInv Hlt] & _ & _).
    cbn [store] in HInv, Hlt.
    destruct (buildView_post _ template [] _ HInv Hlt) as (HInv' & (new & Hv & _) & _).
    cbn [store] in Hv.
    match goal with
    | |- match ?f with _ => _ end <> _ =>
        assert (Hf : f <> OutOfFuel); [|destruct f as [[st out]| |]; congruence]
    end.
    apply finishView_fuel; [exact HInv' | rewrite Hv, length_app; lia | lia].
  - unfold buildAndFinish. cbv zeta.
    rewrite (buildView_frame _ template dependencies).
    cbn [store prepend targetDependencies].
    rewrite <- (app_nil_r targetStatements) at 1. rewrite finishView_frame.
    destruct (finishView _ _ [] _) as [[st out]| |]; reflexivity.
Qed.

(** ** Properties of the builder: the attribute statements *)


(** ** More on the query tracker: order, grouping and failure *)

(** The plain values of a value tree, read from left to right. *)
Fixpoint leaves (viewValues : ViewQueryValues) : list Expression :=
  match viewValues with
  | MkViewQueryValues _ values =>
      flat_map
        (fun entry =>
           match entry with
           | QueryExpr e => [e]
           | QueryNested sub => leaves sub
           end) values
  end.

(** [el.embeddedView] is a view whose declaration element has an app
    element, for an element of the path of [addValue]. *)
Definition hasAppElement (embedded : option CompileView) : bool :=
  match embedded with
  | Some v => isPresent (node_appElement (declarationElement v))
  | None => false
  end.

Definition wf_entry (entry : QueryValue) : bool :=
  match entry with
  | QueryNested sub => hasAppElement (vqv_view sub) && vqv_wf sub
  | QueryExpr _ => true
  end.

Definition nested_entry (entry : QueryValue) : nat :=
  match entry with
  | QueryNested sub => S (nestedCount sub)
  | QueryExpr _ => 0
  end.

Definition leaves_entry (entry : QueryValue) : list Expression :=
  match entry with
  | QueryExpr e => [e]
  | QueryNested sub => leaves sub
  end.

Lemma vqv_wf_unfold (view : option CompileView) (values : list QueryValue) :
  vqv_wf (MkViewQueryValues view values) = forallb wf_entry values.
Proof. reflexivity. Qed.

Lemma nestedCount_unfold (view : option CompileView) (values : list QueryValue) :
  nestedCount (MkViewQueryValues view values) = list_sum (map nested_entry values).
Proof. reflexivity. Qed.

Lemma leaves_unfold (view : option CompileView) (values : list QueryValue) :
  leaves (MkViewQueryValues view values) = flat_map leaves_entry values.
Proof. reflexivity. Qed.

Lemma last_map_Some (A : Type) (l : list A) (x : A) :
  last (map Some l) None = Some x -> l = removelast l ++ [x].
Proof.
  induction l as [|a l IH]; [discriminate|].
  destruct l as [|b l].
  - cbn. now intros [= ->].
  - intros H. change (removelast (a :: b :: l)) with (a :: removelast (b :: l)).
    cbn [app]. f_equal. apply IH. exact H.
Qed.

Lemma last_map_Some_snoc (A : Type) (l : list A) (x : A) :
  last (map Some (l ++ [x])) None = Some x.
Proof. rewrite map_app. cbn [map]. apply last_last. Qed.

Lemma same_view_opt_refl (ev : option CompileView) : same_view_opt ev ev = true.
Proof. destruct ev as [v|]; [apply Nat.eqb_refl | reflexivity]. Qed.

Lemma pushValue_view (path : list (option CompileView)) (value : Expression)
    (viewValues : ViewQueryValues) :
  vqv_view (pushValue path value viewValues) = vqv_view viewValues.
Proof.
  destruct path as [|ev rest]; [reflexivity|]. cbn [pushValue].
  destruct (last (map Some (vqv_values viewValues)) None) as [[e|lastValues]|];
    [| destruct (same_view_opt (vqv_view lastValues) ev) |]; reflexivity.
Qed.

(** Where [pushValue] goes for the first element of a path: into a subtree
    [sub] for the element's embedded view that is the last entry already, or
    that is new and empty; the entries before it stay. *)
Lemma pushValue_step (ev : option CompileView) (rest : list (option CompileView))
    (value : Expression) (viewValues : ViewQueryValues) :
  exists pre sub,
    pushValue (ev :: rest) value viewValues =
    MkViewQueryValues (vqv_view viewValues) (pre ++ [QueryNested (pushValue rest value sub)])
    /\ same_view_opt (vqv_view sub) ev = true
    /\ (vqv_values viewValues = pre ++ [QueryNested sub]
        \/ (vqv_values viewValues = pre /\ sub = MkViewQueryValues ev [])).
Proof.
  cbn [pushValue].
  destruct (last (map Some (vqv_values viewValues)) None) as [[e|lastValues]|] eqn:Hlast.
  - exists (vqv_values viewValues), (MkViewQueryValues ev []).
    split; [reflexivity|]. split; [apply same_view_opt_refl | now right].
  - destruct (same_view_opt (vqv_view lastValues) ev) eqn:Hsame.
    + exists (removelast (vqv_values viewValues)), lastValues.
      split; [reflexivity|]. split; [exact Hsame|]. left. now apply last_map_Some.
    + exists (vqv_values viewValues), (MkViewQueryValues ev []).
      split; [reflexivity|]. split; [apply same_view_opt_refl | now right].
  - exists (vqv_values viewValues), (MkViewQueryValues ev []).
    split; [reflexivity|]. split; [apply same_view_opt_refl | now right].
Qed.

Lemma pushValue_leaves (path : list (option CompileView)) (value : Expression) :
  forall viewValues,
    leaves (pushValue path value viewValues) = leaves viewValues ++ [value].
Proof.
  induction path as [|ev rest IH]; intros [view values].
  - cbn [pushValue vqv_view vqv_values]. now rewrite !leaves_unfold, flat_map_app.
  - destruct (pushValue_step ev rest value (MkViewQueryValues view values))
      as (pre & sub & -> & _ & Hshape).
    cbn [vqv_view vqv_values] in *. rewrite !leaves_unfold, flat_map_app.
    cbn [flat_map leaves_entry]. rewrite IH, app_nil_r.
    destruct Hshape as [->|[-> ->]].
    + rewrite flat_map_app. cbn [flat_map leaves_entry].
      now rewrite app_nil_r, app_assoc.
    + now rewrite leaves_unfold.
Qed.

Lemma pushValue_wf (path : list (option CompileView)) (value : Expression) :
  forall viewValues,
    vqv_wf viewValues = true ->
    forallb hasAppElement path = true ->
    vqv_wf (pushValue path value viewValues) = true.
Proof.
  induction path as [|ev rest IH]; intros [view values] Hwf Hpath.
  - cbn [pushValue vqv_view vqv_values]. rewrite vqv_wf_unfold in *.
    rewrite forallb_app, Hwf. reflexivity.
  - cbn [forallb] in Hpath. apply andb_prop in Hpath as [Hev Hrest].
    destruct (pushValue_step ev rest value (MkViewQueryValues view values))
      as (pre & sub & -> & Hsame & Hshape).
    cbn [vqv_view vqv_values] in *. rewrite vqv_wf_unfold in *.
    rewrite forallb_app. cbn [forallb wf_entry]. rewrite pushValue_view.
    destruct Hshape as [->|[-> ->]].
    + rewrite forallb_app in Hwf. cbn [forallb wf_entry] in Hwf.
      apply andb_prop in Hwf as [Hpre Hsub]. rewrite andb_true_r in Hsub.
      apply andb_prop in Hsub as [Hview Hsub].
      rewrite Hpre, Hview, (IH sub Hsub Hrest). reflexivity.
    + cbn [vqv_view]. rewrite Hwf, Hev, (IH (MkViewQueryValues ev []) eq_refl Hrest).
      reflexivity.
Qed.

Lemma pushValue_into_last (ev : option CompileView) (rest : list (option CompileView))
    (value : Expression) (view : option CompileView) (pre : list QueryValue)
    (sub : ViewQueryValues) :
  same_view_opt (vqv_view sub) ev = true ->
  pushValue (ev :: rest) value (MkViewQueryValues view (pre ++ [QueryNested sub]))
  = MkViewQueryValues view (pre ++ [QueryNested (pushValue rest value sub)]).
Proof.
  intros Hsame. cbn [pushValue vqv_values vqv_view].
  now rewrite last_map_Some_snoc, Hsame, removelast_last.
Qed.

Lemma pushValue_twice (path : list (option CompileView)) (value1 value2 : Expression) :
  forall viewValues,
    nestedCount (pushValue path value2 (pushValue path value1 viewValues))
    = nestedCount (pushValue path value1 viewValues)
    /\ List.length (vqv_values (pushValue path value2 (pushValue path value1 viewValues)))
       = List.length (vqv_values (pushValue path value1 viewValues))
         + (match path with [] => 1 | _ => 0 end).
Proof.
  induction path as [|ev rest IH]; intros [view values].
  - cbn [pushValue vqv_view vqv_values]. rewrite !nestedCount_unfold, !map_app, !list_sum_app.
    rewrite !length_app. cbn. lia.
  - destruct (pushValue_step ev rest value1 (MkViewQueryValues view values))
      as (pre & sub & -> & Hsame & _).
    cbn [vqv_view]. rewrite pushValue_into_last by (now rewrite pushValue_view).
    rewrite !nestedCount_unfold, !map_app, !list_sum_app. cbn [vqv_values].
    rewrite !length_app.
    cbn [map nested_entry list_sum fold_right List.length].
    destruct (IH sub) as [-> _]. lia.
Qed.

Lemma addValue_values (q : CompileQuery) (value : Expression) (view : CompileView)
    (st : Store) :
  _values (fst (addValue q value view st))
  = pushValue (map (node_embeddedView st) (elPath q view)) value (_values q).
Proof. unfold addValue. now destruct (elPath q view). Qed.

Lemma addValue_query_view (q : CompileQuery) (value : Expression) (view : CompileView)
    (st : Store) :
  query_view (fst (addValue q value view st)) = query_view q.
Proof. unfold addValue. now destruct (elPath q view). Qed.

Lemma addValue_embeddedView (q : CompileQuery) (value : Expression) (view : CompileView)
    (st : Store) :
  embeddedView (snd (addValue q value view st)) = embeddedView st.
Proof. unfold addValue. now destruct (elPath q view). Qed.

(** X1. The values of a query stay in the order in which they were added:
    whatever view a value comes from, and however deep [addValue] files it
    under nested-view subtrees, it is the last plain value of the tree read
    from left to right, and the plain values before it are the ones the tree
    had. *)
Theorem addValue_keeps_order (q : CompileQuery) (value : Expression) (view : CompileView)
    (st : Store) :
  leaves (_values (fst (addValue q value view st))) = leaves (_values q) ++ [value].
Proof. rewrite addValue_values. apply pushValue_leaves. Qed.

(** X2. [addValue] keeps the value tree well formed: when every element of
    the path from the query's view to the originating view has an embedded
    view whose declaration element has an app element, a well-formed tree
    stays well formed, so that [createQueryValues] has the values of the new
    tree and raises nothing. *)
Theorem addValue_keeps_well_formed (q : CompileQuery) (value : Expression)
    (view : CompileView) (st : Store) :
  vqv_wf (_values q) = true ->
  forallb (fun el => hasAppElement (node_embeddedView st el)) (elPath q view) = true ->
  vqv_wf (_values (fst (addValue q value view st))) = true
  /\ exists values, createQueryValues (_values (fst (addValue q value view st))) = Some values.
Proof.
  intros Hwf Hpath.
  assert (Hwf' : vqv_wf (_values (fst (addValue q value view st))) = true).
  { rewrite addValue_values. apply pushValue_wf; [exact Hwf|].
    revert Hpath. generalize (elPath q view). intros path.
    induction path as [|el path IH]; [reflexivity|].
    cbn [map forallb]. intros H. apply andb_prop in H as [-> H]. now apply IH. }
  split; [exact Hwf'|].
  destruct (createQueryValues_expands _ Hwf') as (values & Hvalues & _). now exists values.
Qed.

Lemma createQueryValues_ill_formed (viewValues : ViewQueryValues) :
  vqv_wf viewValues = false -> createQueryValues viewValues = None.
Proof.
  revert viewValues. fix IH 1. intros [view values].
  cbn [vqv_wf createQueryValues]. revert values. fix IHl 1. intros [|entry rest].
  - discriminate.
  - cbn [forallb map_or_raise]. intros Hwf. apply andb_false_iff in Hwf as [Hentry|Hrest].
    + destruct entry as [e|sub]; [discriminate|]. cbn [expandEntry].
      destruct (vqv_view sub) as [v|]; [|reflexivity].
      apply andb_false_iff in Hentry as [Hview|Hsub].
      * destruct (createQueryValues sub); [|reflexivity].
        destruct (node_appElement (declarationElement v)); [discriminate | reflexivity].
      * now rewrite (IH sub Hsub).
    + specialize (IHl rest Hrest).
      destruct (map_or_raise (expandEntry createQueryValues) rest); [discriminate|].
      now destruct (expandEntry createQueryValues entry).
Qed.

(** X3. [createQueryValues] raises exactly on an ill-formed tree: it fails
    when, at some depth, a nested-view subtree has no view or its view's
    declaration element has no app element to call [mapNestedViews] on, and
    in no other case. *)
Theorem createQueryValues_raises_iff_ill_formed (viewValues : ViewQueryValues) :
  createQueryValues viewValues = None <-> vqv_wf viewValues = false.
Proof.
  split; [|apply createQueryValues_ill_formed].
  intros Hnone. destruct (vqv_wf viewValues) eqn:Hwf; [|reflexivity].
  destruct (createQueryValues_expands _ Hwf) as (values & Hvalues & _). congruence.
Qed.

(** X4. Values that come one after the other from the same view share their
    subtrees: the second [addValue] opens no nested-view subtree, at any
    depth; it adds a top-level entry only when the values come from the
    query's own view. *)
Theorem addValue_groups_values_of_one_view (q : CompileQuery) (value1 value2 : Expression)
    (view : CompileView) (st : Store) :
  let r1 := addValue q value1 view st in
  let r2 := addValue (fst r1) value2 view (snd r1) in
  nestedCount (_values (fst r2)) = nestedCount (_values (fst r1))
  /\ List.length (vqv_values (_values (fst r2)))
     = List.length (vqv_values (_values (fst r1)))
       + (if view_same view (query_view q) then 1 else 0).
Proof.
  intros r1 r2. unfold r2, r1. rewrite !addValue_values.
  unfold elPath. rewrite addValue_query_view. fold (elPath q view).
  assert (Hsame : map (node_embeddedView (snd (addValue q value1 view st))) (elPath q view)
                  = map (node_embeddedView st) (elPath q view)).
  { apply map_ext. intros [|p v i rn ast [ed|]]; cbn [node_embeddedView]; try reflexivity.
    now rewrite addValue_embeddedView. }
  rewrite Hsame.
  destruct (pushValue_twice (map (node_embeddedView st) (elPath q view)) value1 value2
              (_values q)) as [Hn Hl].
  split; [exact Hn|]. rewrite Hl. f_equal.
  pose proof (elPath_empty q view) as Hempty.
  destruct (elPath q view) as [|el path]; cbn [map].
  - now rewrite (proj1 Hempty eq_refl).
  - destruct (view_same view (query_view q)); [|reflexivity].
    destruct Hempty as [_ H]. discriminate (H eq_refl).
Qed.

Lemma addQueryToTokenMap_fold (query : nat) (sels : list CompileTokenMetadata) :
  forall (m : JsObject (list nat)) (token : string),
    obj_get
      (fold_left
         (fun map selector =>
            match obj_get map (token_reference selector) with
            | Some entry => obj_set map (token_reference selector) (entry ++ [query])
            | None => obj_set map (token_reference selector) [query]
            end) sels m) token
    = match count_occ string_dec (map token_reference sels) token with
      | 0 => obj_get m token
      | S n =>
          Some (match obj_get m token with Some entry => entry | None => [] end
                ++ repeat query (S n))
      end.
Proof.
  induction sels as [|sel sels IH]; intros m token; [reflexivity|].
  cbn [fold_left map]. rewrite IH.
  destruct (string_dec (token_reference sel) token) as [Heq|Hne].
  - rewrite count_occ_cons_eq by exact Heq. rewrite Heq.
    assert (Hget : obj_get
                     match obj_get m token with
                     | Some entry => obj_set m token (entry ++ [query])
                     | None => obj_set m token [query]
                     end token
                   = Some (match obj_get m token with Some entry => entry | None => [] end
                           ++ [query])).
    { destruct (obj_get m token); apply obj_get_set_same. }
    rewrite Hget.
    destruct (count_occ string_dec (map token_reference sels) token); [reflexivity|].
    f_equal. rewrite <- app_assoc. reflexivity.
  - rewrite count_occ_cons_neq by exact Hne.
    assert (Hget : obj_get
                     match obj_get m (token_reference sel) with
                     | Some entry => obj_set m (token_reference sel) (entry ++ [query])
                     | None => obj_set m (token_reference sel) [query]
                     end token
                   = obj_get m token).
    { destruct (obj_get m (token_reference sel)); now apply obj_get_set_other. }
    now rewrite Hget.
Qed.

(** X5. After [addQueryToTokenMap] the entry of a token holds what it held
    before, followed by the query once for every selector of the query that
    has the token as its reference; the entry of a token that no selector
    refers to is as it was, absent when it was absent. *)
Theorem addQueryToTokenMap_lookup (tokenMap : JsObject (list nat)) (query : nat)
    (meta : CompileQueryMetadata) (token : string) :
  obj_get (addQueryToTokenMap tokenMap query meta) token
  = match count_occ string_dec (map token_reference (selectors meta)) token with
    | 0 => obj_get tokenMap token
    | S n =>
        Some (match obj_get tokenMap token with Some entry => entry | None => [] end
              ++ repeat query (S n))
    end.
Proof. apply addQueryToTokenMap_fold. Qed.

(** ** More on the builder: containers and the parent render node *)

Lemma isNgContainer_same_view (node : CompileNode) (v w : CompileView) :
  view_same w v = true ->
  _isNgContainer node (Some w) = _isNgContainer node (Some v).
Proof.
  intros Hsame. apply Nat.eqb_eq in Hsame.
  destruct node as [|p u i rn ast e]; [reflexivity|].
  unfold _isNgContainer, same_view_opt, view_same. now rewrite Hsame.
Qed.

Lemma outerContainerParentOrSelf_same_view (el : CompileNode) (v w : CompileView) :
  view_same w v = true ->
  outerContainerParentOrSelf_loop (Some w) el = outerContainerParentOrSelf_loop (Some v) el.
Proof.
  intros Hsame. induction el as [|p IH u i rn ast e]; [reflexivity|].
  cbn [outerContainerParentOrSelf_loop].
  rewrite (isNgContainer_same_view _ v w Hsame), IH. reflexivity.
Qed.

(** X6. An [ng-container] is transparent for the parent render node: a node
    below a container of the container's view is created under the render
    node that the container itself was created under, whether the container
    sits at the top of its view or below a node of the same view. *)
Theorem getParentRenderNode_skips_containers (this_view : CompileView)
    (parent : CompileNode) (v : CompileView) (i : nat) (rn : Expression)
    (ast : TemplateAst) (e : option ElementData) :
  _isNgContainer (MkCompileNode parent v i rn ast e) (Some v) = true ->
  match node_view parent with Some w => view_same w v | None => true end = true ->
  _getParentRenderNode this_view (MkCompileNode parent v i rn ast e)
  = _getParentRenderNode this_view parent.
Proof.
  intros Hcontainer Hparent.
  assert (Houter : _getOuterContainerParentOrSelf (MkCompileNode parent v i rn ast e)
                   = _getOuterContainerParentOrSelf parent).
  { unfold _getOuterContainerParentOrSelf. cbn [node_view outerContainerParentOrSelf_loop].
    rewrite Hcontainer.
    destruct parent as [|pp w pi prn past pe]; [reflexivity|].
    cbn [node_view] in Hparent |- *. symmetry.
    now apply outerContainerParentOrSelf_same_view. }
  unfold _getParentRenderNode. now rewrite Houter.
Qed.

(** ** More on finishing a view: the generated class *)

Lemma generateCreateMethod_none (view : CompileView) (st : Store) :
  generateCreateMethod view st = None ->
  viewType view = HOST /\ nodes st (address view) = [].
Proof.
  unfold generateCreateMethod. cbv zeta.
  destruct (viewType view); cbn [ViewType_eqb]; try discriminate.
  destruct (nodes st (address view)) as [|node0 rest]; [now split | discriminate].
Qed.

Lemma generateCreateMethod_not_empty (view : CompileView) (st : Store)
    (body : list Statement) :
  generateCreateMethod view st = Some body -> body <> [].
Proof.
  unfold generateCreateMethod. cbv zeta.
  destruct (if ViewType_eqb (viewType view) HOST then _ else _) as [resultExpr|];
    [|discriminate].
  intros [= <-] Hnil. apply app_eq_nil in Hnil as [_ Hnil].
  apply app_eq_nil in Hnil as [_ Hnil]. discriminate.
Qed.

(** X7. The class generated for a view has no method with an empty body,
    and [createInternal] is always its first method, with the body that
    [generateCreateMethod] gives. [createViewClass] fails in one case only:
    a host view without a node, whose first node's app element would be the
    result of the create method. *)
Theorem createViewClass_methods (view : CompileView) (renderCompTypeVar : string)
    (nodeDebugInfosVar : Expression) (st : Store) :
  match createViewClass view renderCompTypeVar nodeDebugInfosVar st with
  | Some (ClassStmt name _ _ _ _ viewMethods) =>
      name = className view
      /\ Forall (fun method => method_body method <> []) viewMethods
      /\ exists createBody rest,
           generateCreateMethod view st = Some createBody
           /\ viewMethods =
              MkClassMethod (Some "createInternal")
                [{| param_name := "rootSelector"; param_type := Some STRING_TYPE |}]
                createBody (importType (resolveIdentifier AppElement) [] [])
              :: rest
  | Some _ => False
  | None => viewType view = HOST /\ nodes st (address view) = []
  end.
Proof.
  unfold createViewClass. cbv zeta.
  destruct (generateCreateMethod view st) as [createBody|] eqn:Hcreate;
    [|now apply generateCreateMethod_none].
  split; [reflexivity|]. split.
  - apply Forall_forall. intros method Hin. apply filter_In in Hin as [_ Hbody].
    destruct (method_body method); [discriminate Hbody | discriminate].
  - pose proof (generateCreateMethod_not_empty view st createBody Hcreate) as Hne.
    exists createBody. cbn [app filter method_body].
    destruct createBody as [|s body]; [contradiction Hne; reflexivity|].
    cbn [List.length Nat.ltb Nat.leb]. eexists. split; reflexivity.
Qed.

(** ** More on constructing a view: the view queries *)

Lemma buffers_of_with_buffers (g : Gen) (v : CompileView) (b : ViewBuffers) :
  buffers_of (with_buffers g v b) v = b.
Proof. unfold buffers_of, with_buffers. cbn [buffers]. apply upd_same. Qed.

(** The name of the query-list field of the view query at place [fst iq]. *)
Definition viewQueryFieldName (iq : nat * CompileQueryMetadata) : string :=
  "_viewQuery_" +++ token_name (selector0 (snd iq)) +++ "_" +++ string_of_nat (fst iq).

(** The query object the constructor makes for a declared view query, and
    for a view query among the constructor dependencies. *)
Definition declaredQuery (this : CompileView) (iq : nat * CompileQueryMetadata)
  : CompileQuery :=
  {| meta := snd iq; queryList := prop THIS_EXPR (viewQueryFieldName iq);
     ownerDirectiveExpression := Some (prop THIS_EXPR "context");
     query_view := this; _values := MkViewQueryValues (Some this) [] |}.

Definition injectedQuery (this : CompileView) (iq : nat * CompileQueryMetadata)
  : CompileQuery :=
  {| meta := snd iq;
     queryList :=
       key (prop (prop THIS_EXPR "declarationAppElement") "componentConstructorViewQueries")
         (literal_num (fst iq)) None;
     ownerDirectiveExpression := None;
     query_view := this; _values := MkViewQueryValues (Some this) [] |}.

Definition injectedViewQueries (c : CompileDirectiveMetadata) : list CompileQueryMetadata :=
  flat_map (fun dep => match dep_viewQuery dep with Some q => [q] | None => [] end)
    (diDeps (dir_type c)).

Definition numbered {A : Type} (k : nat) (l : list A) : list (nat * A) :=
  combine (seq k (List.length l)) l.

(** The bodies of the two loops of the constructor over the view queries. *)
Definition declareStep (this : CompileView) (acc : Gen * JsObject (list nat))
    (iq : nat * CompileQueryMetadata) : Gen * JsObject (list nat) :=
  let '(g, viewQueries) := acc in
  let '(queryIndex, queryMeta) := iq in
  let propName :=
    "_viewQuery_" +++ token_name (selector0 queryMeta) +++ "_"
    +++ string_of_nat queryIndex in
  let '(queryList, g1) :=
    createQueryList queryMeta (Some (prop THIS_EXPR "context")) propName this g in
  let '(query, g2) :=
    new_CompileQuery queryMeta queryList (Some (prop THIS_EXPR "context")) this g1 in
  (g2, addQueryToTokenMap viewQueries query queryMeta).

Definition injectStep (this : CompileView) (acc : Gen * JsObject (list nat) * nat)
    (dep : CompileDiDependencyMetadata) : Gen * JsObject (list nat) * nat :=
  let '(g, viewQueries, constructorViewQueryCount) := acc in
  match dep_viewQuery dep with
  | Some viewQuery =>
      let queryList :=
        key (prop (prop THIS_EXPR "declarationAppElement")
               "componentConstructorViewQueries")
          (literal_num constructorViewQueryCount) None in
      let '(query, g1) := new_CompileQuery viewQuery queryList None this g in
      (g1, addQueryToTokenMap viewQueries query viewQuery,
       S constructorViewQueryCount)
  | None => acc
  end.

Lemma declareViewQueries_steps (this : CompileView) (g : Gen) :
  declareViewQueries this g =
  let step1 :=
    fold_left (declareStep this) (numbered 0 (dir_viewQueries (component this)))
      (@pair Gen (JsObject (list nat)) g []) in
  let step2 :=
    fold_left (injectStep this) (diDeps (dir_type (component this)))
      (fst step1, snd step1, 0) in
  with_buffers (fst (fst step2)) this
    (with_viewQueries (buffers_of (fst (fst step2)) this) (snd (fst step2))).
Proof.
  unfold declareViewQueries. cbv zeta.
  change (fun (acc : Gen * JsObject (list nat)) (iq : nat * CompileQueryMetadata) =>
            let '(g, viewQueries) := acc in
            let '(queryIndex, queryMeta) := iq in
            let '(queryList, g1) :=
              createQueryList queryMeta (Some (prop THIS_EXPR "context"))
                ("_viewQuery_" +++ token_name (selector0 queryMeta) +++ "_"
                 +++ string_of_nat queryIndex) this g in
            let '(query, g2) :=
              new_CompileQuery queryMeta queryList (Some (prop THIS_EXPR "context")) this g1 in
            (g2, addQueryToTokenMap viewQueries query queryMeta))
    with (declareStep this).
  change (fun (acc : Gen * JsObject (list nat) * nat) (dep : CompileDiDependencyMetadata) =>
            let '(g, viewQueries, constructorViewQueryCount) := acc in
            match dep_viewQuery dep with
            | Some viewQuery =>
                let '(query, g1) :=
                  new_CompileQuery viewQuery
                    (key (prop (prop THIS_EXPR "declarationAppElement")
                            "componentConstructorViewQueries")
                       (literal_num constructorViewQueryCount) None) None this g in
                (g1, addQueryToTokenMap viewQueries query viewQuery,
                 S constructorViewQueryCount)
            | None => acc
            end)
    with (injectStep this).
  unfold numbered.
  destruct (fold_left (injectStep this) _ _) as [[g' viewQueries] n]. reflexivity.
Qed.

Lemma declareStep_fold (this : CompileView) (qs : list CompileQueryMetadata) :
  forall (k : nat) (g : Gen) (viewQueries : JsObject (list nat)),
    let r := fold_left (declareStep this) (numbered k qs) (g, viewQueries) in
    map field_name (fields (buffers_of (fst r) this))
    = map field_name (fields (buffers_of g this)) ++ map viewQueryFieldName (numbered k qs)
    /\ queries (fst r) = queries g ++ map (declaredQuery this) (numbered k qs)
    /\ (forall w, view_same this w = false ->
                  buffers_of (fst r) w = buffers_of g w).
Proof.
  unfold numbered.
  induction qs as [|q qs IH]; intros k g viewQueries.
  - cbn. rewrite !app_nil_r. now repeat split.
  - cbn [List.length seq combine fold_left].
    match goal with
    | |- context [fold_left _ _ (declareStep this (g, viewQueries) (k, q))] =>
        change (declareStep this (g, viewQueries) (k, q))
          with (with_queries
                  (with_buffers g this
                     (method_addStmt
                        (fields_push (buffers_of g this)
                           {| field_name := viewQueryFieldName (k, q);
                              field_type :=
                                importType (resolveIdentifier QueryList) [DYNAMIC_TYPE] [] |})
                        createMethod
                        (toStmt
                           (set_prop THIS_EXPR (viewQueryFieldName (k, q))
                              (instantiate
                                 (importExpr (resolveIdentifier QueryList) [DYNAMIC_TYPE])
                                 [] None)))))
                  (queries g ++ [declaredQuery this (k, q)]),
                addQueryToTokenMap viewQueries (List.length (queries g)) q)
    end.
    match goal with
    | |- context [fold_left _ _ (?g2, ?vq)] => destruct (IH (S k) g2 vq) as (Hf & Hq & Ho)
    end.
    cbv zeta in Hf, Hq, Ho. cbv zeta. split; [|split].
    + rewrite Hf. unfold with_queries, buffers_of. cbn [buffers].
      change (buffers (with_buffers g this ?b) (address this))
        with (buffers_of (with_buffers g this b) this).
      rewrite buffers_of_with_buffers.
      unfold method_addStmt, fields_push, with_methods, with_fields. cbn [fields].
      rewrite map_app, <- app_assoc. reflexivity.
    + rewrite Hq. unfold with_queries. cbn [queries with_buffers map].
      rewrite <- app_assoc. reflexivity.
    + intros w Hw. rewrite (Ho w Hw). unfold buffers_of, with_queries, with_buffers.
      cbn [buffers]. unfold view_same in Hw. apply Nat.eqb_neq in Hw.
      now apply upd_other.
Qed.

Lemma injectStep_unfold (this : CompileView) (g : Gen) (viewQueries : JsObject (list nat))
    (n : nat) (dep : CompileDiDependencyMetadata) :
  injectStep this (g, viewQueries, n) dep =
  match dep_viewQuery dep with
  | Some viewQuery =>
      (with_queries g (queries g ++ [injectedQuery this (n, viewQuery)]),
       addQueryToTokenMap viewQueries (List.length (queries g)) viewQuery, S n)
  | None => (g, viewQueries, n)
  end.
Proof. unfold injectStep. now destruct (dep_viewQuery dep). Qed.

Lemma injectStep_fold (this : CompileView) (deps : list CompileDiDependencyMetadata) :
  forall (g : Gen) (viewQueries : JsObject (list nat)) (n : nat),
    let r := fold_left (injectStep this) deps (g, viewQueries, n) in
    buffers (fst (fst r)) = buffers g
    /\ queries (fst (fst r))
       = queries g
         ++ map (injectedQuery this)
              (numbered n
                 (flat_map
                    (fun dep => match dep_viewQuery dep with Some q => [q] | None => [] end)
                    deps)).
Proof.
  unfold numbered.
  induction deps as [|dep deps IH]; intros g viewQueries n.
  - cbn. now rewrite app_nil_r.
  - cbn [fold_left flat_map]. rewrite injectStep_unfold.
    destruct (dep_viewQuery dep) as [viewQuery|].
    + match goal with
      | |- context [fold_left _ _ (?g1, ?vq, ?m)] => destruct (IH g1 vq m) as [Hb Hq]
      end.
      cbv zeta in Hb, Hq. cbv zeta. rewrite Hb, Hq. split; [reflexivity|].
      cbn [app List.length seq combine map queries with_queries].
      rewrite <- app_assoc. reflexivity.
    + apply IH.
Qed.

Lemma locals_fold (this : CompileView) (templateVariableBindings : list (string * string)) :
  forall g : Gen,
    let g' :=
      fold_left
        (fun g entry =>
           with_buffers g this
             (with_locals (buffers_of g this)
                (obj_set (locals (buffers_of g this)) (snd entry)
                   (prop (prop THIS_EXPR "context") (fst entry)))))
        templateVariableBindings g in
    fields (buffers_of g' this) = fields (buffers_of g this)
    /\ queries g' = queries g.
Proof.
  induction templateVariableBindings as [|entry rest IH]; intros g; [now split|].
  cbn [fold_left].
  match goal with
  | |- context [fold_left _ rest ?g1] => destruct (IH g1) as [Hf Hq]
  end.
  cbv zeta in Hf, Hq. cbv zeta. rewrite Hf, Hq, buffers_of_with_buffers. now split.
Qed.

(** X8. The constructor of a top-level view declares the view queries of
    the component in the component's own view only. There the view gets one
    query-list field per declared view query, named after the first
    selector and the place of the query, and one query object per declared
    view query and per constructor dependency that is a view query, in this
    order, each owned by the view and without a value. A host view gets no
    field and no query. *)
Theorem new_CompileView_declares_view_queries (c : CompileDirectiveMetadata)
    (gc : CompilerConfig) (pm : list CompilePipeMetadata) (sty : Expression)
    (an : list AnimationEntryCompileResult) (templateVariableBindings : list (string * string))
    (st : Store) :
  let this := fst (new_CompileView c gc pm sty an 0 NullElement templateVariableBindings st) in
  let g := gen (snd (new_CompileView c gc pm sty an 0 NullElement templateVariableBindings st)) in
  viewType this = (if isHost (dir_type c) then HOST else COMPONENT)
  /\ if isHost (dir_type c) then
       fields (buffers_of g this) = [] /\ queries g = queries (gen st)
     else
       map field_name (fields (buffers_of g this))
       = map viewQueryFieldName (numbered 0 (dir_viewQueries c))
       /\ queries g
          = queries (gen st)
            ++ map (declaredQuery this) (numbered 0 (dir_viewQueries c))
            ++ map (injectedQuery this) (numbered 0 (injectedViewQueries c)).
Proof.
  intros this g. subst this g. unfold new_CompileView. cbv zeta. cbn [fst snd gen].
  set (this := MkCompileView (List.length (views st)) c gc pm sty an 0 NullElement
                 templateVariableBindings).
  unfold viewType, getViewType. cbn [component viewIndex this Nat.ltb Nat.leb].
  split; [reflexivity|].
  destruct (isHost (dir_type c)) eqn:Hhost; cbn [ViewType_eqb].
  - match goal with
    | |- context [fold_left _ templateVariableBindings ?g1] =>
        destruct (locals_fold this templateVariableBindings g1) as [Hf Hq]
    end.
    cbv zeta in Hf, Hq. rewrite Hf, Hq, buffers_of_with_buffers. now split.
  - match goal with
    | |- context [fold_left _ templateVariableBindings ?g1] =>
        destruct (locals_fold this templateVariableBindings g1) as [Hf Hq]
    end.
    cbv zeta in Hf, Hq. rewrite Hf, Hq, declareViewQueries_steps. cbv zeta.
    rewrite buffers_of_with_buffers. cbn [fields with_viewQueries queries with_buffers].
    destruct (declareStep_fold this (dir_viewQueries (component this)) 0
                (with_buffers (gen st) this emptyBuffers) []) as (Hf1 & Hq1 & _).
    cbv zeta in Hf1, Hq1.
    match goal with
    | |- context [fold_left (injectStep this) ?deps (?g1, ?vq, ?n)] =>
        destruct (injectStep_fold this deps g1 vq n) as [Hb2 Hq2]
    end.
    cbv zeta in Hb2, Hq2. unfold buffers_of at 1. rewrite Hb2, Hq2, Hq1.
    change (buffers ?g (address this)) with (buffers_of g this). rewrite Hf1.
    rewrite buffers_of_with_buffers. cbn [fields emptyBuffers map app queries with_buffers].
    rewrite <- app_assoc. split; reflexivity.
Qed.

(** ** More on the builder: what a visit does to the views and their nodes *)

(** Two states that differ in the generated code only. *)
Definition same_shape (st st' : Store) : Prop :=
  views st' = views st /\ nodes st' = nodes st
  /\ rootNodesOrAppElements st' = rootNodesOrAppElements st
  /\ embeddedView st' = embeddedView st
  /\ contentNodesByNgContentIndex st' = contentNodesByNgContentIndex st.

Lemma same_shape_refl (st : Store) : same_shape st st.
Proof. now repeat split. Qed.

Lemma same_shape_trans (st1 st2 st3 : Store) :
  same_shape st1 st2 -> same_shape st2 st3 -> same_shape st1 st3.
Proof.
  intros (A & B & C & D & E) (A' & B' & C' & D' & E'). repeat split; congruence.
Qed.

Lemma with_gen_shape (st : Store) (g : Gen) : same_shape st (with_gen st g).
Proof. now repeat split. Qed.

Lemma createMethod_addStmts_shape (v : CompileView) (ss : list Statement) (st : Store) :
  same_shape st (fold_left (fun st s => createMethod_addStmt st v s) ss st).
Proof.
  revert st. induction ss as [|s ss IH]; intros st; [apply same_shape_refl|].
  cbn [fold_left]. eapply same_shape_trans; [|apply IH]. apply with_gen_shape.
Qed.

(** The root nodes that a visitor of [view] leaves alone: those of every
    other view, and its own when it is a component's view. *)
Definition roots_kept (view : CompileView) (st st' : Store) : Prop :=
  forall a, a <> address view \/ viewType view = COMPONENT ->
    rootNodesOrAppElements st' a = rootNodesOrAppElements st a.

Lemma ViewType_eqb_eq (x y : ViewType) : ViewType_eqb x y = true <-> x = y.
Proof. destruct x, y; cbn; split; congruence. Qed.

Lemma rootNodes_push_kept (view : CompileView) (e : Expression) (st : Store) :
  roots_kept view st
    (if negb (ViewType_eqb (viewType view) COMPONENT) then rootNodes_push st view e else st).
Proof.
  intros a Ha. destruct (ViewType_eqb (viewType view) COMPONENT) eqn:Et; [reflexivity|].
  cbn [negb rootNodes_push rootNodesOrAppElements].
  destruct Ha as [Ha|Ha]; [now apply upd_other|].
  apply ViewType_eqb_eq in Ha. congruence.
Qed.

Lemma addContentNode_roots (parent : CompileNode) (i : nat) (e : Expression) (st : Store) :
  rootNodesOrAppElements (addContentNode parent i e st) = rootNodesOrAppElements st.
Proof. now destruct parent as [|p v k rn ast [ed|]]. Qed.

Lemma addRootNodeAndProject_kept (view : CompileView) (node : CompileNode) (st : Store) :
  roots_kept view st (_addRootNodeAndProject view node st).
Proof.
  unfold _addRootNodeAndProject.
  destruct node as [|p v k rn ast e]; [intros a _; reflexivity|].
  destruct (_getOuterContainerOrSelf _) as [|op ov ok orn oast oe]; [intros a _; reflexivity|].
  destruct (_isRootNode view op); [apply rootNodes_push_kept|].
  intros a _.
  destruct (node_component op); [|reflexivity].
  destruct (ast_ngContentIndex oast); [now rewrite addContentNode_roots | reflexivity].
Qed.

(** A visit that pushes the node [n] into [view] and constructs no view. *)
Definition pushes (view : CompileView) (n : CompileNode) (st st' : Store) : Prop :=
  views st' = views st
  /\ nodes st' = upd (nodes st) (address view) (nodes st (address view) ++ [n])
  /\ embeddedView st' = embeddedView st
  /\ roots_kept view st st'.

Lemma pushes_intro (view : CompileView) (n : CompileNode) (st st3 st7 : Store) :
  same_shape st st3 ->
  same_shape (nodes_push st3 view n) st7 ->
  pushes view n st (_addRootNodeAndProject view n st7).
Proof.
  intros (Hv & Hn & Hr & He & _) (Hv' & Hn' & Hr' & He' & _).
  destruct (addRootNodeAndProject_skeleton view n st7) as (Hv7 & Hn7 & He7).
  split; [|split; [|split]].
  - rewrite Hv7, Hv'. exact Hv.
  - rewrite Hn7, Hn'. cbn [nodes nodes_push]. now rewrite Hn.
  - rewrite He7, He'. exact He.
  - intros a Ha. rewrite (addRootNodeAndProject_kept view n st7 a Ha), Hr'. cbn. now rewrite Hr.
Qed.

Lemma visitText_pushes (ast : TemplateAst) (value : string) (parent : CompileNode)
    (view : CompileView) (b : Builder) :
  let n := List.length (nodes (store b) (address view)) in
  pushes view
    (MkCompileNode parent view n (prop THIS_EXPR ("_text_" +++ string_of_nat n)) ast None)
    (store b) (store (_visitText ast value parent view b))
  /\ nestedViewCount (_visitText ast value parent view b) = nestedViewCount b.
Proof.
  cbv zeta. split; [|reflexivity]. unfold _visitText. cbv zeta. cbn [store with_store].
  eapply pushes_intro; [apply with_gen_shape | apply with_gen_shape].
Qed.

Lemma visitNgContent_shape (index : nat) (ngContentIndex : option nat)
    (parent : CompileNode) (view : CompileView) (b : Builder) :
  let b' := visitNgContent index ngContentIndex parent view b in
  views (store b') = views (store b)
  /\ nodes (store b') = nodes (store b)
  /\ embeddedView (store b') = embeddedView (store b)
  /\ roots_kept view (store b) (store b')
  /\ nestedViewCount b' = nestedViewCount b.
Proof.
  cbv zeta. unfold visitNgContent. cbv zeta.
  assert (Hid : roots_kept view (store b) (store b)) by (intros a _; reflexivity).
  destruct (negb (is_NULL_EXPR (_getParentRenderNode view parent)));
    [now repeat split|].
  destruct (_isRootNode view parent).
  - pose proof (rootNodes_push_kept view
                  (key ViewProperties_projectableNodes (literal_num index)
                     (option_map (fun t => ArrayType t [])
                        (importType (identifierOf (renderNode (renderTypes (genConfig view))))
                           [] []))) (store b)) as Hk.
    destruct (negb (ViewType_eqb (viewType view) COMPONENT)); now repeat split.
  - destruct (node_component parent); [|now repeat split].
    destruct ngContentIndex as [i|]; [|now repeat split].
    cbn [store with_store nestedViewCount].
    destruct (addContentNode_skeleton parent i
                (key ViewProperties_projectableNodes (literal_num index)
                   (option_map (fun t => ArrayType t [])
                      (importType (identifierOf (renderNode (renderTypes (genConfig view))))
                         [] []))) (store b)) as (Hv & Hn & He).
    repeat split; try assumption.
    intros a _. now rewrite addContentNode_roots.
Qed.

Lemma visitElement_before_pushes (ast : TemplateAst) (name : string) (attrs : list AttrAst)
    (references : list ReferenceAst) (directiveAsts : list DirectiveAst)
    (providers : list ProviderAst) (hasViewContainer : bool)
    (parent : CompileNode) (view : CompileView) (b : Builder) :
  let r :=
    visitElement_before ast name attrs references directiveAsts providers
      hasViewContainer parent view b in
  let n := List.length (nodes (store b) (address view)) in
  (exists ed,
     fst (fst r) =
     MkCompileNode parent view n (prop THIS_EXPR ("_el_" +++ string_of_nat n)) ast (Some ed)
     /\ position ed = n /\ hasEmbeddedView ed = false)
  /\ pushes view (fst (fst r)) (store b) (store (snd r))
  /\ nestedViewCount (snd r) = nestedViewCount b.
Proof.
  unfold visitElement_before. cbv zeta.
  destruct (find isComponent (map directive directiveAsts)) as [c|]; cbn [fst snd].
  - split; [|split].
    + eexists. split; [reflexivity|]. split; [|reflexivity].
      cbn [position]. now rewrite createMethod_addStmts_nodes.
    + cbn [store with_store with_gen_b]. rewrite deps_push_fold_store.
      cbn [store deps_push with_store].
      eapply pushes_intro.
      2: { eapply same_shape_trans; [|apply with_gen_shape].
           eapply same_shape_trans; [|apply with_gen_shape].
           eapply same_shape_trans; [|apply with_gen_shape].
           eapply same_shape_trans; [|apply with_gen_shape].
           apply same_shape_refl. }
      eapply same_shape_trans; [apply with_gen_shape|].
      eapply same_shape_trans; [apply with_gen_shape|].
      eapply same_shape_trans; [apply createMethod_addStmts_shape|].
      apply with_gen_shape.
    + cbn [store with_store with_gen_b nestedViewCount]. now rewrite deps_push_fold_count.
  - split; [|split; [|reflexivity]].
    + eexists. split; [reflexivity|]. split; [|reflexivity].
      cbn [position]. now rewrite createMethod_addStmts_nodes.
    + cbn [store with_store with_gen_b].
      eapply pushes_intro.
      2: { eapply same_shape_trans; [|apply with_gen_shape]. apply same_shape_refl. }
      eapply same_shape_trans; [apply with_gen_shape|].
      eapply same_shape_trans; [apply with_gen_shape|].
      eapply same_shape_trans; [apply createMethod_addStmts_shape|].
      apply with_gen_shape.
Qed.

Lemma visitElement_after_shape (compileElement : CompileNode) (nodeIndex : nat)
    (compViewExpr : option Expression) (view : CompileView) (b : Builder) :
  same_shape (store b) (store (visitElement_after compileElement nodeIndex compViewExpr view b))
  /\ nestedViewCount (visitElement_after compileElement nodeIndex compViewExpr view b)
     = nestedViewCount b.
Proof.
  unfold visitElement_after. cbv zeta. destruct compViewExpr as [cve|].
  - split; [|reflexivity]. cbn [store with_store with_gen_b].
    eapply same_shape_trans; apply with_gen_shape.
  - split; [|reflexivity]. apply with_gen_shape.
Qed.

(** The bindings of the template variables of an embedded template: each
    variable's name with the context property it reads, [$implicit] for a
    variable without a value. *)
Definition variableBindings (variables : list VariableAst) : list (string * string) :=
  map (fun varAst =>
         (if (0 <? String.length (var_value varAst))%nat then var_value varAst
          else IMPLICIT_TEMPLATE_VAR,
          var_name varAst))
    variables.

Lemma visitEmbeddedTemplate_before_store (ast : TemplateAst) (variables : list VariableAst)
    (references : list ReferenceAst) (directiveAsts : list DirectiveAst)
    (providers : list ProviderAst) (hasViewContainer : bool)
    (parent : CompileNode) (view : CompileView) (b : Builder) :
  let r :=
    visitEmbeddedTemplate_before ast variables references directiveAsts providers
      hasViewContainer parent view b in
  let el := fst (fst r) in
  let ev := snd (fst r) in
  let n := List.length (nodes (store b) (address view)) in
  let L := List.length (views (store b)) in
  (exists ed,
     el = MkCompileNode parent view n (prop THIS_EXPR ("_anchor_" +++ string_of_nat n)) ast
            (Some ed)
     /\ position ed = n /\ hasEmbeddedView ed = true
     /\ ev = MkCompileView L (component view) (genConfig view) (pipeMetas view) NULL_EXPR
               (animations view) (viewIndex view + S (nestedViewCount b)) el
               (variableBindings variables))
  /\ views (store (snd r)) = views (store b) ++ [ev]
  /\ nodes (store (snd r))
     = upd (upd (nodes (store b)) (address view) (nodes (store b) (address view) ++ [el])) L []
  /\ rootNodesOrAppElements (store (snd r)) = upd (rootNodesOrAppElements (store b)) L []
  /\ embeddedView (store (snd r))
     = upd (upd (embeddedView (store b)) L (fun _ => None)) (address view)
         (upd (upd (embeddedView (store b)) L (fun _ => None) (address view)) n (Some ev)).
Proof.
  cbv zeta. unfold visitEmbeddedTemplate_before. cbv zeta.
  split; [|repeat split; reflexivity].
  eexists. repeat split; reflexivity.
Qed.

Lemma visitEmbeddedTemplate_after_kept (compileElement : CompileNode)
    (view : CompileView) (b : Builder) :
  roots_kept view (store b) (store (visitEmbeddedTemplate_after compileElement view b)).
Proof.
  unfold visitEmbeddedTemplate_after. cbv zeta. cbn [store with_store with_gen_b].
  intros a Ha. cbn [rootNodesOrAppElements with_gen].
  now rewrite (addRootNodeAndProject_kept view compileElement _ a Ha).
Qed.

(** The template nodes that the builder does something for. *)
Definition isTemplateNode (ast : TemplateAst) : bool :=
  match ast with
  | TextAst _ _ | BoundTextAst _ _ | NgContentAst _ _ => true
  | ElementAst _ _ _ _ _ _ _ _ _ _ => true
  | EmbeddedTemplateAst _ _ _ _ _ _ _ _ _ => true
  | _ => false
  end.

(** Induction over a visit: a relation between the state before and after
    the visit of a list of template nodes holds of every visit when it holds
    of no node, of two visits in a row, and of each kind of node given that
    it holds of the visit of the node's children. *)
Lemma visit_rel
    (R : CompileNode -> CompileView -> list TemplateAst -> Builder -> Builder -> Prop) :
  (forall parent view b, Pre view b -> R parent view [] b b) ->
  (forall parent view l1 l2 b1 b2 b3 k1 k2,
     Pre view b1 -> Post view b1 b2 k1 -> Post view b2 b3 k2 ->
     R parent view l1 b1 b2 -> R parent view l2 b2 b3 -> R parent view (l1 ++ l2) b1 b3) ->
  (forall value idx parent view b,
     Pre view b ->
     R parent view [TextAst value idx] b (_visitText (TextAst value idx) value parent view b)) ->
  (forall source idx parent view b,
     Pre view b ->
     R parent view [BoundTextAst source idx] b
       (_visitText (BoundTextAst source idx) "" parent view b)) ->
  (forall index idx parent view b,
     Pre view b ->
     R parent view [NgContentAst index idx] b (visitNgContent index idx parent view b)) ->
  (forall ast parent view b,
     Pre view b -> isTemplateNode ast = false -> R parent view [ast] b b) ->
  (forall name attrs inputs outputs refs dirs provs hvc children idx parent view b b2 k,
     Pre view b ->
     let ast := ElementAst name attrs inputs outputs refs dirs provs hvc children idx in
     let r := visitElement_before ast name attrs refs dirs provs hvc parent view b in
     Post view (snd r) b2 k ->
     R (fst (fst r)) view children (snd r) b2 ->
     R parent view [ast] b
       (visitElement_after (fst (fst r)) (List.length (nodes (store b) (address view)))
          (snd (fst r)) view b2)) ->
  (forall attrs outputs refs vars dirs provs hvc children idx parent view b inner k,
     Pre view b ->
     let ast := EmbeddedTemplateAst attrs outputs refs vars dirs provs hvc children idx in
     let r := visitEmbeddedTemplate_before ast vars refs dirs provs hvc parent view b in
     let b0 := {| store := store (snd r); nestedViewCount := 0;
                  targetDependencies := targetDependencies (snd r) |} in
     Pre (snd (fst r)) b0 ->
     Post (snd (fst r)) b0 inner k ->
     R parent (snd (fst r)) children b0 inner ->
     R parent view [ast] b
       (visitEmbeddedTemplate_after (fst (fst r)) view
          {| store := store inner;
             nestedViewCount := nestedViewCount (snd r) + nestedViewCount inner;
             targetDependencies := targetDependencies inner |})) ->
  forall asts parent view b,
    Pre view b ->
    R parent view asts b (fold_left (fun b c => visit c parent view b) asts b).
Proof.
  intros R_nil R_app R_text R_bound R_content R_other R_element R_embedded.
  assert (Hall : forall children,
            (forall c, In c children ->
               forall parent view b, Pre view b -> R parent view [c] b (visit c parent view b)) ->
            forall parent view b, Pre view b ->
              R parent view children b
                (fold_left (fun b c => visit c parent view b) children b)).
  { induction children as [|c children IHc]; intros H parent view b HPre.
    - now apply R_nil.
    - cbn [fold_left]. change (c :: children) with ([c] ++ children).
      pose proof (visit_post c parent view b HPre) as Hpost.
      assert (HPre1 : Pre view (visit c parent view b)) by (eapply Post_Pre; eassumption).
      eapply R_app; [exact HPre | exact Hpost | | |].
      + apply visitAll_post; [intros c' _; apply visit_post | exact HPre1].
      + apply H; [now left | exact HPre].
      + apply IHc; [|exact HPre1]. intros c' Hin. apply H. now right. }
  assert (Hone : forall ast parent view b,
            Pre view b -> R parent view [ast] b (visit ast parent view b)).
  { induction ast as [ast IH] using TemplateAst_children_ind.
    intros parent view b HPre.
    destruct ast as [value idx|source idx
                    |name attrs inputs outputs refs dirs provs hvc children idx
                    |attrs outputs refs vars dirs provs hvc children idx
                    |index idx| | | | | | |];
      cbn [visit ast_children] in *;
      try (apply R_other; [exact HPre | reflexivity]).
    - now apply R_text.
    - now apply R_bound.
    - pose proof (visitElement_before_post
                    (ElementAst name attrs inputs outputs refs dirs provs hvc children idx)
                    name attrs refs dirs provs hvc parent view b HPre) as Hbefore.
      pose proof (R_element name attrs inputs outputs refs dirs provs hvc children idx
                    parent view b) as Hel.
      cbv zeta in Hel.
      destruct (visitElement_before _ name attrs refs dirs provs hvc parent view b)
        as [[el cve] b1].
      cbn [fst snd] in Hbefore, Hel.
      assert (HPre1 : Pre view b1) by (eapply Post_Pre; eassumption).
      eapply Hel; [exact HPre | |].
      + apply visitAll_post; [intros c' _; apply visit_post | exact HPre1].
      + now apply Hall.
    - pose proof (visitEmbeddedTemplate_before_post
                    (EmbeddedTemplateAst attrs outputs refs vars dirs provs hvc children idx)
                    vars refs dirs provs hvc parent view b HPre) as Hbefore.
      pose proof (R_embedded attrs outputs refs vars dirs provs hvc children idx
                    parent view b) as Hemb.
      cbv zeta in Hbefore, Hemb.
      destruct (visitEmbeddedTemplate_before _ vars refs dirs provs hvc parent view b)
        as [[el ev] b1].
      cbn [fst snd] in Hbefore, Hemb.
      destruct Hbefore as (HInv1 & Hviews & Haddr & Hvi & Hc1 & _ & (i & rn & e & Hdecl)).
      unfold buildView_with. rewrite Hdecl.
      set (b0 := {| store := store b1; nestedViewCount := 0;
                    targetDependencies := targetDependencies b1 |}) in *.
      assert (HPre0 : Pre ev b0).
      { split; [exact HInv1|]. cbn [store b0]. rewrite Hviews, length_app, Haddr. cbn. lia. }
      eapply Hemb; [exact HPre | exact HPre0 | |].
      + apply visitAll_post; [intros c' _; apply visit_post | exact HPre0].
      + now apply Hall.
    - now apply R_content. }
  intros asts. apply Hall. intros c _. apply Hone.
Qed.

(** The template nodes that get a compile node in the view that visits
    [ast], in the order of the visit: the node itself unless it is an
    [ng-content], and the nodes below an element; the nodes below an
    embedded template belong to the embedded view. *)
Fixpoint ownNodes (ast : TemplateAst) : list TemplateAst :=
  match ast with
  | TextAst _ _ | BoundTextAst _ _ => [ast]
  | ElementAst _ _ _ _ _ _ _ _ children _ => ast :: flat_map ownNodes children
  | EmbeddedTemplateAst _ _ _ _ _ _ _ _ _ => [ast]
  | _ => []
  end.

Definition embeddedBindings (declEl : CompileNode) : list (string * string) :=
  match node_sourceAst declEl with
  | Some (EmbeddedTemplateAst _ _ _ variables _ _ _ _ _) => variableBindings variables
  | _ => []
  end.

(** The template of the embedded view declared by [declEl]. *)
Definition embeddedChildren (declEl : CompileNode) : list TemplateAst :=
  match node_sourceAst declEl with
  | Some (EmbeddedTemplateAst _ _ _ _ _ _ _ children _) => children
  | _ => []
  end.

(** What holds of an embedded view [v] at address [a] that the visitor of
    [view], or a visitor below it, has constructed and built. *)
Record Embedded (view : CompileView) (st : Store) (a : nat) (v : CompileView) : Prop := {
  emb_component : component v = component view;
  emb_genConfig : genConfig v = genConfig view;
  emb_pipeMetas : pipeMetas v = pipeMetas view;
  emb_animations : animations v = animations view;
  emb_styles : styles v = NULL_EXPR;
  emb_index : 0 < viewIndex v;
  emb_bindings : templateVariableBindings v = embeddedBindings (declarationElement v);
  emb_nodes :
    map node_sourceAst (nodes st a)
    = map Some (flat_map ownNodes (embeddedChildren (declarationElement v)));
  emb_anchor :
    exists w i,
      node_view (declarationElement v) = Some w /\ address w < a
      /\ nth_error (nodes st (address w)) i = Some (declarationElement v)
      /\ embeddedView st (address w) i = Some v
      /\ node_hasEmbeddedView (declarationElement v) = true
}.

(** The views below a list of nodes, in the order in which [finishView]
    reaches them: for every anchor among the nodes, in the order of the
    nodes, its embedded view and then the views below the nodes of that
    view. *)
Inductive Forest (st : Store) : list CompileNode -> list CompileView -> Prop :=
| forest_nil : Forest st [] []
| forest_plain (n : CompileNode) (ns : list CompileNode) (vs : list CompileView) :
    node_hasEmbeddedView n = false ->
    Forest st ns vs -> Forest st (n :: ns) vs
| forest_anchor (n : CompileNode) (ns : list CompileNode) (ev : CompileView)
    (vs1 vs2 : list CompileView) :
    node_hasEmbeddedView n = true ->
    node_embeddedView st n = Some ev ->
    Forest st (nodes st (address ev)) vs1 ->
    Forest st ns vs2 ->
    Forest st (n :: ns) (ev :: vs1 ++ vs2).

Lemma Forest_app (st : Store) (ns1 ns2 : list CompileNode) (vs1 vs2 : list CompileView) :
  Forest st ns1 vs1 -> Forest st ns2 vs2 -> Forest st (ns1 ++ ns2) (vs1 ++ vs2).
Proof.
  intros H1 H2. induction H1 as [|n ns vs Hn _ IH|n ns ev vsa vsb Hn Hev Ha _ _ IH].
  - exact H2.
  - cbn [app]. now apply forest_plain.
  - cbn [app]. rewrite <- app_assoc. now apply forest_anchor.
Qed.

Lemma Forest_kept (st st' : Store) (ns : list CompileNode) (vs : list CompileView) :
  Forest st ns vs ->
  (forall ev, In ev vs -> nodes st' (address ev) = nodes st (address ev)) ->
  (forall n, In n ns -> node_embeddedView st' n = node_embeddedView st n) ->
  (forall ev n, In ev vs -> In n (nodes st (address ev)) ->
     node_embeddedView st' n = node_embeddedView st n) ->
  Forest st' ns vs.
Proof.
  induction 1 as [|n ns vs Hn _ IH|n ns ev vs1 vs2 Hn Hev _ IH1 _ IH2]; intros H1 H2 H3.
  - constructor.
  - apply forest_plain; [exact Hn|]. apply IH; [exact H1 | | exact H3].
    intros m Hm. apply H2. now right.
  - apply forest_anchor; [exact Hn | | |].
    + rewrite H2 by now left. exact Hev.
    + rewrite H1 by now left. apply IH1.
      * intros ev' Hin. apply H1. right. apply in_or_app. now left.
      * intros m Hm. apply (H3 ev); [now left | exact Hm].
      * intros ev' m Hin Hm. apply (H3 ev'); [|exact Hm]. right. apply in_or_app. now left.
    + apply IH2.
      * intros ev' Hin. apply H1. right. apply in_or_app. now right.
      * intros m Hm. apply H2. now right.
      * intros ev' m Hin Hm. apply (H3 ev'); [|exact Hm]. right. apply in_or_app. now right.
Qed.

Lemma node_embeddedView_kept (st st' : Store) (a k : nat) (n : CompileNode) :
  Inv st -> nth_error (nodes st a) k = Some n ->
  embeddedView st' a k = embeddedView st a k ->
  node_embeddedView st' n = node_embeddedView st n.
Proof.
  intros [_ Hnodes] Hnth Hemb.
  destruct (Hnodes a k n Hnth) as (_ & (v & Hv & Ha) & Hel).
  destruct n as [|p v' i rn ast [ed|]]; try reflexivity.
  cbn in Hv. injection Hv as ->. destruct (Hel ed eq_refl) as [Hpos _].
  cbn [node_embeddedView]. now rewrite Ha, Hpos.
Qed.

(** What the visitor of [view] has done between [b] and [b'], where it got
    the compile nodes of the template nodes [owned]. *)
Record Built (view : CompileView) (owned : list TemplateAst) (b b' : Builder) : Prop := {
  built_views : exists new, views (store b') = views (store b) ++ new;
  built_nodes :
    exists new,
      nodes (store b') (address view) = nodes (store b) (address view) ++ new
      /\ map node_sourceAst new = map Some owned;
  built_frame :
    forall a, a < List.length (views (store b)) -> a <> address view ->
      nodes (store b') a = nodes (store b) a
      /\ rootNodesOrAppElements (store b') a = rootNodesOrAppElements (store b) a;
  built_roots :
    viewType view = COMPONENT ->
    rootNodesOrAppElements (store b') (address view)
    = rootNodesOrAppElements (store b) (address view);
  built_embedded :
    forall a k, a < List.length (views (store b)) -> k < List.length (nodes (store b) a) ->
      embeddedView (store b') a k = embeddedView (store b) a k;
  built_new :
    forall a v, nth_error (views (store b')) a = Some v ->
      List.length (views (store b)) <= a -> Embedded view (store b') a v;
  built_forest :
    exists newNodes newViews,
      nodes (store b') (address view) = nodes (store b) (address view) ++ newNodes
      /\ views (store b') = views (store b) ++ newViews
      /\ Forest (store b') newNodes newViews
}.

Lemma Embedded_kept (view : CompileView) (st st' : Store) (a : nat) (v : CompileView) :
  Embedded view st a v ->
  nodes st' a = nodes st a ->
  (forall x i n, x < a -> nth_error (nodes st x) i = Some n ->
     nth_error (nodes st' x) i = Some n /\ embeddedView st' x i = embeddedView st x i) ->
  Embedded view st' a v.
Proof.
  intros [Hc Hg Hp Ha Hs Hi Hb Hn (w & i & Hw & Hlt & Hnth & Hemb & Hanchor)] Hnodes Hkept.
  split; try assumption.
  - now rewrite Hnodes.
  - destruct (Hkept (address w) i _ Hlt Hnth) as [Hnth' Hemb'].
    exists w, i. rewrite Hemb'. now repeat split.
Qed.

Lemma Embedded_inherit (view ev : CompileView) (st : Store) (a : nat) (v : CompileView) :
  Embedded ev st a v ->
  component ev = component view -> genConfig ev = genConfig view ->
  pipeMetas ev = pipeMetas view -> animations ev = animations view ->
  Embedded view st a v.
Proof.
  intros [Hc Hg Hp Ha Hs Hi Hb Hn Hanchor] Hc' Hg' Hp' Ha'.
  split; try assumption; congruence.
Qed.

Lemma nth_error_beyond (A : Type) (l : list A) (a : nat) (x : A) :
  nth_error l a = Some x -> List.length l <= a -> False.
Proof.
  intros Hnth Hle. apply nth_error_None in Hle. congruence.
Qed.

(** A visit that changes generated code and root nodes only. *)
Lemma Built_shape (view : CompileView) (b b' : Builder) :
  views (store b') = views (store b) ->
  nodes (store b') = nodes (store b) ->
  embeddedView (store b') = embeddedView (store b) ->
  roots_kept view (store b) (store b') ->
  Built view [] b b'.
Proof.
  intros Hv Hn He Hr. split.
  - exists []. now rewrite app_nil_r.
  - exists []. rewrite Hn, app_nil_r. now split.
  - intros a _ Ha. rewrite Hn. split; [reflexivity|]. apply Hr. now left.
  - intros Hc. apply Hr. now right.
  - intros a k _ _. now rewrite He.
  - intros a v Hnth Hle. rewrite Hv in Hnth. destruct (nth_error_beyond _ _ _ _ Hnth Hle).
  - exists [], []. rewrite Hn, Hv, !app_nil_r. repeat split. constructor.
Qed.

(** A visit that pushes one node. *)
Lemma Built_push (view : CompileView) (n : CompileNode) (ast : TemplateAst)
    (b b' : Builder) :
  pushes view n (store b) (store b') ->
  node_sourceAst n = Some ast ->
  node_hasEmbeddedView n = false ->
  Built view [ast] b b'.
Proof.
  intros (Hv & Hn & He & Hr) Hast Hplain. split.
  - exists []. now rewrite app_nil_r.
  - exists [n]. rewrite Hn, upd_same. cbn [map]. now rewrite Hast.
  - intros a _ Ha. rewrite Hn, upd_other by congruence. split; [reflexivity|].
    apply Hr. now left.
  - intros Hc. apply Hr. now right.
  - intros a k _ _. now rewrite He.
  - intros a v Hnth Hle. rewrite Hv in Hnth. destruct (nth_error_beyond _ _ _ _ Hnth Hle).
  - exists [n], []. rewrite Hn, Hv, upd_same, app_nil_r. repeat split.
    apply forest_plain; [exact Hplain | constructor].
Qed.

Lemma Built_nodes_grow (view : CompileView) (owned : list TemplateAst) (b b' : Builder)
    (a i : nat) (n : CompileNode) :
  Built view owned b b' ->
  a < List.length (views (store b)) ->
  nth_error (nodes (store b) a) i = Some n ->
  nth_error (nodes (store b') a) i = Some n
  /\ embeddedView (store b') a i = embeddedView (store b) a i.
Proof.
  intros HB Ha Hnth.
  assert (Hi : i < List.length (nodes (store b) a)).
  { apply nth_error_Some. congruence. }
  split; [|now apply (built_embedded _ _ _ _ HB)].
  destruct (Nat.eq_dec a (address view)) as [->|Hne].
  - destruct (built_nodes _ _ _ _ HB) as (new & -> & _). now rewrite nth_error_app1.
  - now destruct (built_frame _ _ _ _ HB a Ha Hne) as [-> _].
Qed.

(** Two visits in a row. *)
Lemma Built_trans (view : CompileView) (owned1 owned2 : list TemplateAst)
    (b1 b2 b3 : Builder) :
  address view < List.length (views (store b1)) ->
  Inv (store b2) ->
  Built view owned1 b1 b2 -> Built view owned2 b2 b3 ->
  Built view (owned1 ++ owned2) b1 b3.
Proof.
  intros Hlt HInv2 B12 B23.
  destruct (built_views _ _ _ _ B12) as (new1 & Hv1).
  destruct (built_views _ _ _ _ B23) as (new2 & Hv2).
  assert (Hlen : List.length (views (store b1)) <= List.length (views (store b2))).
  { rewrite Hv1, length_app. lia. }
  split.
  - exists (new1 ++ new2). now rewrite Hv2, Hv1, app_assoc.
  - destruct (built_nodes _ _ _ _ B12) as (n1 & Hn1 & Hs1).
    destruct (built_nodes _ _ _ _ B23) as (n2 & Hn2 & Hs2).
    exists (n1 ++ n2). rewrite Hn2, Hn1, <- app_assoc, !map_app, Hs1, Hs2. now split.
  - intros a Ha Hne.
    destruct (built_frame _ _ _ _ B12 a Ha Hne) as [Hn Hr].
    destruct (built_frame _ _ _ _ B23 a ltac:(lia) Hne) as [Hn' Hr'].
    split; congruence.
  - intros Hc. rewrite (built_roots _ _ _ _ B23 Hc). now apply (built_roots _ _ _ _ B12).
  - intros a k Ha Hk.
    rewrite <- (built_embedded _ _ _ _ B12 a k Ha Hk).
    apply (built_embedded _ _ _ _ B23); [lia|].
    destruct (Nat.eq_dec a (address view)) as [->|Hne].
    + destruct (built_nodes _ _ _ _ B12) as (n1 & -> & _). rewrite length_app. lia.
    + now destruct (built_frame _ _ _ _ B12 a Ha Hne) as [-> _].
  - intros a v Hnth Hle.
    destruct (Nat.lt_ge_cases a (List.length (views (store b2)))) as [Ha|Ha].
    + assert (Hnth2 : nth_error (views (store b2)) a = Some v).
      { rewrite Hv2, nth_error_app1 in Hnth by exact Ha. exact Hnth. }
      pose proof (built_new _ _ _ _ B12 a v Hnth2 Hle) as HE.
      apply (Embedded_kept view (store b2)); [exact HE | |].
      * now destruct (built_frame _ _ _ _ B23 a Ha ltac:(lia)) as [-> _].
      * intros x i n Hx Hn. apply (Built_nodes_grow view owned2 b2 b3); [exact B23 | lia | exact Hn].
    + now apply (built_new _ _ _ _ B23).
  - destruct (built_forest _ _ _ _ B12) as (n1 & v1 & Hn1 & Hvs1 & HF1).
    destruct (built_forest _ _ _ _ B23) as (n2 & v2 & Hn2 & Hvs2 & HF2).
    exists (n1 ++ n2), (v1 ++ v2).
    split; [now rewrite Hn2, Hn1, app_assoc|]. split; [now rewrite Hvs2, Hvs1, app_assoc|].
    apply Forest_app; [|exact HF2].
    assert (Haddr : forall ev, In ev v1 ->
                      List.length (views (store b1)) <= address ev
                      /\ address ev < List.length (views (store b2))).
    { intros ev Hin. apply In_nth_error in Hin as [k Hk].
      assert (Hnth : nth_error (views (store b2)) (List.length (views (store b1)) + k)
                     = Some ev).
      { rewrite Hvs1, nth_error_app2 by lia.
        now replace (List.length (views (store b1)) + k - List.length (views (store b1)))
          with k by lia. }
      destruct HInv2 as [Ha _]. rewrite (Ha _ _ Hnth).
      split; [lia|]. apply nth_error_Some. congruence. }
    assert (Hkept : forall a n, a < List.length (views (store b2)) ->
                      In n (nodes (store b2) a) ->
                      node_embeddedView (store b3) n = node_embeddedView (store b2) n).
    { intros a n Ha Hin. apply In_nth_error in Hin as [k Hk].
      apply (node_embeddedView_kept _ _ a k); [exact HInv2 | exact Hk|].
      apply (built_embedded _ _ _ _ B23); [exact Ha|].
      apply nth_error_Some. congruence. }
    apply (Forest_kept (store b2)); [exact HF1 | | |].
    + intros ev Hin. destruct (Haddr ev Hin) as [Hge Hlt2].
      now destruct (built_frame _ _ _ _ B23 (address ev) Hlt2 ltac:(lia)) as [-> _].
    + intros n Hin. apply (Hkept (address view)); [lia|].
      rewrite Hn1. apply in_or_app. now right.
    + intros ev n Hin Hn. destruct (Haddr ev Hin) as [_ Hlt2].
      now apply (Hkept (address ev)).
Qed.

(** The visit of an embedded template, given what the build of the
    embedded view has done. *)
Lemma Built_embeddedTemplate (attrs : list AttrAst) (outputs : list BoundEventAst)
    (refs : list ReferenceAst) (vars : list VariableAst) (dirs : list DirectiveAst)
    (provs : list ProviderAst) (hvc : bool) (children : list TemplateAst)
    (idx : option nat) (parent : CompileNode) (view : CompileView) (b inner : Builder) :
  let ast := EmbeddedTemplateAst attrs outputs refs vars dirs provs hvc children idx in
  let r := visitEmbeddedTemplate_before ast vars refs dirs provs hvc parent view b in
  let b0 := {| store := store (snd r); nestedViewCount := 0;
               targetDependencies := targetDependencies (snd r) |} in
  address view < List.length (views (store b)) ->
  Built (snd (fst r)) (flat_map ownNodes children) b0 inner ->
  Built view [ast] b
    (visitEmbeddedTemplate_after (fst (fst r)) view
       {| store := store inner;
          nestedViewCount := nestedViewCount (snd r) + nestedViewCount inner;
          targetDependencies := targetDependencies inner |}).
Proof.
  intros ast r b0 Hlt BI.
  destruct (visitEmbeddedTemplate_before_store ast vars refs dirs provs hvc parent view b)
    as ((ed & Hel & Hpos & Hanchor & Hev) & Hviews & Hnodes & Hroots & Hemb).
  fold r in Hel, Hev, Hviews, Hnodes, Hroots, Hemb.
  set (el := fst (fst r)) in *. set (ev := snd (fst r)) in *.
  set (L := List.length (views (store b))) in *.
  set (n := List.length (nodes (store b) (address view))) in *.
  assert (Haddr : address ev = L) by now rewrite Hev.
  assert (Hne : address view <> L) by lia.
  match goal with
  | |- Built _ _ _ (visitEmbeddedTemplate_after el view ?bb) =>
      destruct (visitEmbeddedTemplate_after_skeleton el view bb) as [(Hv' & Hn' & He') _];
      pose proof (visitEmbeddedTemplate_after_kept el view bb) as Hr';
      set (b' := visitEmbeddedTemplate_after el view bb) in *
  end.
  cbn [store] in Hv', Hn', He', Hr'.
  destruct (built_views _ _ _ _ BI) as (newI & HvI). cbn [store b0] in HvI.
  assert (HlenI : List.length (views (store b0)) = S L).
  { cbn [store b0]. rewrite Hviews, length_app. cbn. lia. }
  assert (Hown : nodes (store b') (address view) = nodes (store b) (address view) ++ [el]).
  { rewrite Hn'.
    destruct (built_frame _ _ _ _ BI (address view)) as [-> _]; [lia | congruence|].
    cbn [store b0]. rewrite Hnodes, upd_other, upd_same by congruence. reflexivity. }
  assert (Hother : forall a, a < L -> a <> address view ->
                     nodes (store b') a = nodes (store b) a).
  { intros a Ha Hav. rewrite Hn'.
    destruct (built_frame _ _ _ _ BI a) as [-> _]; [lia | lia|].
    cbn [store b0]. rewrite Hnodes, !upd_other by lia. reflexivity. }
  assert (Hroot : forall a, a < L -> a <> address view \/ viewType view = COMPONENT ->
                    rootNodesOrAppElements (store b') a = rootNodesOrAppElements (store b) a).
  { intros a Ha Hav. rewrite (Hr' a Hav).
    destruct (built_frame _ _ _ _ BI a) as [_ ->]; [lia | lia|].
    cbn [store b0]. rewrite Hroots, upd_other by lia. reflexivity. }
  assert (Hembedded : forall a k, a < L -> k < List.length (nodes (store b) a) ->
                        embeddedView (store b') a k = embeddedView (store b) a k).
  { intros a k Ha Hk. rewrite He'.
    rewrite (built_embedded _ _ _ _ BI a k); [|lia|].
    - cbn [store b0]. rewrite Hemb.
      destruct (Nat.eq_dec (address view) a) as [<-|Hav].
      + rewrite upd_same, upd_other by (fold n; lia). rewrite upd_other by lia. reflexivity.
      + rewrite upd_other by exact Hav. rewrite upd_other by lia. reflexivity.
    - cbn [store b0]. rewrite Hnodes, upd_other by lia.
      destruct (Nat.eq_dec (address view) a) as [<-|Hav].
      + rewrite upd_same, length_app. lia.
      + now rewrite upd_other by exact Hav. }
  split.
  - exists (ev :: newI). rewrite Hv', HvI, Hviews, <- app_assoc. reflexivity.
  - exists [el]. split; [exact Hown|]. now rewrite Hel.
  - intros a Ha Hav. split; [now apply Hother | apply Hroot; [exact Ha | now left]].
  - intros Hc. apply Hroot; [exact Hlt | now right].
  - exact Hembedded.
  - intros a v Hnth Hle. fold L in Hle.
    rewrite Hv', HvI, Hviews, <- app_assoc in Hnth. cbn [app] in Hnth.
    destruct (Nat.eq_dec a L) as [->|HaL].
    + rewrite nth_error_app2 in Hnth by (fold L; lia). fold L in Hnth.
      rewrite Nat.sub_diag in Hnth. injection Hnth as <-.
      split.
      * now rewrite Hev.
      * now rewrite Hev.
      * now rewrite Hev.
      * now rewrite Hev.
      * now rewrite Hev.
      * rewrite Hev. cbn [viewIndex]. lia.
      * rewrite Hev. cbn [templateVariableBindings declarationElement]. now rewrite Hel.
      * rewrite Hn'. destruct (built_nodes _ _ _ _ BI) as (newc & Hnc & Hsc).
        rewrite Haddr in Hnc. rewrite Hnc. cbn [store b0].
        rewrite Hnodes, upd_same. cbn [app]. rewrite Hsc.
        rewrite Hev at 1. cbn [declarationElement]. rewrite Hel. reflexivity.
      * exists view, n.
        assert (Hdecl : declarationElement ev = el) by now rewrite Hev.
        rewrite Hdecl. split; [now rewrite Hel|]. split; [exact Hlt|].
        split; [|split].
        -- rewrite Hown, nth_error_app2 by (fold n; lia). fold n.
           now rewrite Nat.sub_diag.
        -- rewrite He'. rewrite (built_embedded _ _ _ _ BI (address view) n); [|lia|].
           ++ cbn [store b0]. rewrite Hemb, !upd_same. reflexivity.
           ++ cbn [store b0]. rewrite Hnodes, upd_other, upd_same, length_app by congruence.
              fold n. cbn. lia.
        -- rewrite Hel. cbn. exact Hanchor.
    + assert (HnthI : nth_error (views (store inner)) a = Some v).
      { rewrite HvI, Hviews, <- app_assoc. exact Hnth. }
      pose proof (built_new _ _ _ _ BI a v HnthI ltac:(lia)) as HE.
      apply (Embedded_inherit view ev); try (now rewrite Hev).
      apply (Embedded_kept ev (store inner)); [exact HE | now rewrite Hn' |].
      intros x i m _ Hm. rewrite Hn', He'. now split.
  - destruct (built_forest _ _ _ _ BI) as (nn & nv & Hnn & Hnv & HF).
    rewrite HvI in Hnv. apply app_inv_head in Hnv. subst nv.
    rewrite Haddr in Hnn. cbn [store b0] in Hnn. rewrite Hnodes, upd_same in Hnn.
    cbn [app] in Hnn.
    assert (Hsame : forall m, node_embeddedView (store b') m = node_embeddedView (store inner) m).
    { intros [|p u j rn a' [e'|]]; cbn [node_embeddedView]; try reflexivity.
      now rewrite He'. }
    exists [el], (ev :: newI).
    split; [exact Hown|]. split; [rewrite Hv', HvI, Hviews, <- app_assoc; reflexivity|].
    rewrite <- (app_nil_r newI). apply forest_anchor.
    + rewrite Hel. exact Hanchor.
    + rewrite Hsame, Hel. cbn [node_embeddedView]. rewrite Hpos.
      rewrite (built_embedded _ _ _ _ BI (address view) n); [|lia|].
      * cbn [store b0]. rewrite Hemb, !upd_same. reflexivity.
      * cbn [store b0]. rewrite Hnodes, upd_other, upd_same, length_app by congruence.
        fold n. cbn. lia.
    + rewrite Haddr, Hn', Hnn.
      apply (Forest_kept (store inner)); [exact HF | | |].
      * intros ev' _. now rewrite Hn'.
      * intros m _. apply Hsame.
      * intros ev' m _ _. apply Hsame.
    + constructor.
Qed.

(** What [visit] does to the views and their nodes. *)
Lemma visitAll_built (asts : list TemplateAst) (parent : CompileNode) (view : CompileView)
    (b : Builder) :
  Pre view b ->
  Built view (flat_map ownNodes asts) b
    (fold_left (fun b c => visit c parent view b) asts b).
Proof.
  revert asts parent view b.
  apply (visit_rel (fun _ view asts b b' => Built view (flat_map ownNodes asts) b b')).
  - intros _ view b _. apply Built_shape; try reflexivity. intros a _. reflexivity.
  - intros _ view l1 l2 b1 b2 b3 k1 k2 [_ Hlt] (HInv2 & _) _ B12 B23.
    rewrite flat_map_app. now apply (Built_trans view _ _ b1 b2 b3).
  - intros value idx parent view b _.
    destruct (visitText_pushes (TextAst value idx) value parent view b) as [Hp _].
    eapply Built_push; [exact Hp | reflexivity | reflexivity].
  - intros source idx parent view b _.
    destruct (visitText_pushes (BoundTextAst source idx) "" parent view b) as [Hp _].
    eapply Built_push; [exact Hp | reflexivity | reflexivity].
  - intros index idx parent view b _.
    destruct (visitNgContent_shape index idx parent view b) as (Hv & Hn & He & Hr & _).
    now apply Built_shape.
  - intros ast parent view b _ Hast.
    replace (flat_map ownNodes [ast]) with (@nil TemplateAst)
      by (destruct ast; try discriminate Hast; reflexivity).
    apply Built_shape; try reflexivity. intros a _. reflexivity.
  - intros name attrs inputs outputs refs dirs provs hvc children idx parent view b b2 k
      HPre ast r (HInv2 & _) Bchildren.
    pose proof (visitElement_before_post ast name attrs refs dirs provs hvc parent view b HPre)
      as (HInv1 & _).
    fold r in HInv1. destruct HPre as [_ Hlt].
    destruct (visitElement_before_pushes ast name attrs refs dirs provs hvc parent view b)
      as ((ed & Hel & _ & Hplain) & Hp & _).
    fold r in Hel, Hp.
    destruct (visitElement_after_shape (fst (fst r))
                (List.length (nodes (store b) (address view))) (snd (fst r)) view b2)
      as [(Hv & Hn & Hr & He & _) _].
    cbn [flat_map ownNodes ast]. rewrite app_nil_r.
    apply (Built_trans view [ast] (flat_map ownNodes children) b (snd r));
      [exact Hlt | exact HInv1 | |].
    + eapply Built_push; [exact Hp | now rewrite Hel | rewrite Hel; exact Hplain].
    + rewrite <- (app_nil_r (flat_map ownNodes children)).
      apply (Built_trans view (flat_map ownNodes children) [] (snd r) b2).
      * destruct Hp as (-> & _). exact Hlt.
      * exact HInv2.
      * exact Bchildren.
      * apply Built_shape; try assumption. intros a _. now rewrite Hr.
  - intros attrs outputs refs vars dirs provs hvc children idx parent view b inner k
      [_ Hlt] ast r b0 _ _ BI.
    now apply Built_embeddedTemplate.
Qed.

(** *** The views after a build from the top-level view *)

Lemma rootView_built (c : CompileDirectiveMetadata) (gc : CompilerConfig)
    (pm : list CompilePipeMetadata) (sty : Expression)
    (an : list AnimationEntryCompileResult) (template : list TemplateAst)
    (deps : list Dependency) :
  let root := fst (rootView c gc pm sty an) in
  let st0 := snd (rootView c gc pm sty an) in
  let b0 := {| store := st0; nestedViewCount := 0; targetDependencies := deps |} in
  Built root (flat_map ownNodes template) b0 (buildView root template deps st0)
  /\ Inv (store (buildView root template deps st0))
  /\ root = MkCompileView 0 c gc pm sty an 0 NullElement []
  /\ views st0 = [root] /\ nodes st0 0 = [] /\ rootNodesOrAppElements st0 0 = [].
Proof.
  intros root st0 b0.
  destruct (rootView_Pre c gc pm sty an deps) as (HPre & Hviews & _).
  split; [|split; [|now repeat split]].
  - unfold buildView, buildView_with. unfold root, rootView, new_CompileView.
    cbn [fst declarationElement].
    now apply (visitAll_built template NullElement root b0).
  - destruct HPre as [HInv Hlt].
    now destruct (buildView_post root template deps st0 HInv Hlt) as (HInv' & _).
Qed.

(** X9. After [buildView] from the top-level view, the nodes of every view
    are the template nodes of the view's template in document order: of the
    whole template for the top-level view, of the children of the embedded
    template at its declaration element for an embedded view. A text, a
    bound text, an element and an embedded template each have one node; an
    [ng-content] has none, and what is below an embedded template belongs
    to the embedded view. *)
Theorem buildView_nodes_in_document_order (c : CompileDirectiveMetadata)
    (gc : CompilerConfig) (pm : list CompilePipeMetadata) (sty : Expression)
    (an : list AnimationEntryCompileResult) (template : list TemplateAst)
    (deps : list Dependency) :
  let root := fst (rootView c gc pm sty an) in
  let b := buildView root template deps (snd (rootView c gc pm sty an)) in
  map node_sourceAst (nodes (store b) 0) = map Some (flat_map ownNodes template)
  /\ Forall
       (fun v =>
          map node_sourceAst (nodes (store b) (address v))
          = map Some (flat_map ownNodes (embeddedChildren (declarationElement v))))
       (tl (views (store b))).
Proof.
  intros root b.
  destruct (rootView_built c gc pm sty an template deps)
    as (HB & [Haddr _] & Hroot & Hviews & Hnodes & _).
  fold root in HB, Hroot, Hviews. fold b in HB, Haddr. cbn [store] in HB.
  split.
  - destruct (built_nodes _ _ _ _ HB) as (new & Hn & Hs).
    rewrite Hroot in Hn. cbn [address store] in Hn. rewrite Hn, Hnodes. exact Hs.
  - apply Forall_forall. intros v Hin.
    destruct (built_views _ _ _ _ HB) as (new & Hv). cbn [store] in Hv.
    rewrite Hv, Hviews in Hin. cbn [app tl] in Hin.
    apply In_nth_error in Hin as [k Hk].
    assert (Hnth : nth_error (views (store b)) (S k) = Some v) by now rewrite Hv, Hviews.
    rewrite (Haddr _ _ Hnth).
    apply (built_new _ _ _ _ HB (S k) v Hnth). cbn [store]. rewrite Hviews. cbn. lia.
Qed.

(** C8. Every node that the builder creates gets the length of its view's
    node list as its index and is then put at the end of that list: a text
    or bound text in [_visitText], an element in [visitElement], the anchor
    of an embedded template in [visitEmbeddedTemplate], where the embedded
    view starts with an empty list. So after [buildView] from the top-level
    view the node list of every view holds one node for every text, bound
    text, element and embedded template of the view's template, in the
    order of the visit, and the node at place [k] has the index [k]: the
    indices of a view are 0, 1, 2, ... without gap or repetition. *)
Theorem buildView_node_indices_are_positions (c : CompileDirectiveMetadata)
    (gc : CompilerConfig) (pm : list CompilePipeMetadata) (sty : Expression)
    (an : list AnimationEntryCompileResult) (template : list TemplateAst)
    (deps : list Dependency) :
  let root := fst (rootView c gc pm sty an) in
  let b := buildView root template deps (snd (rootView c gc pm sty an)) in
  (forall ast value parent view b0,
     let n := List.length (nodes (store b0) (address view)) in
     nodes (store (_visitText ast value parent view b0))
     = upd (nodes (store b0)) (address view)
         (nodes (store b0) (address view)
          ++ [MkCompileNode parent view n (prop THIS_EXPR ("_text_" +++ string_of_nat n))
                ast None]))
  /\ (forall ast name attrs refs dirs provs hvc parent view b0,
        let r := visitElement_before ast name attrs refs dirs provs hvc parent view b0 in
        let n := List.length (nodes (store b0) (address view)) in
        node_nodeIndex (fst (fst r)) = Some n
        /\ node_sourceAst (fst (fst r)) = Some ast
        /\ nodes (store (snd r))
           = upd (nodes (store b0)) (address view)
               (nodes (store b0) (address view) ++ [fst (fst r)]))
  /\ (forall ast vars refs dirs provs hvc parent view b0,
        let r := visitEmbeddedTemplate_before ast vars refs dirs provs hvc parent view b0 in
        let n := List.length (nodes (store b0) (address view)) in
        node_nodeIndex (fst (fst r)) = Some n
        /\ node_sourceAst (fst (fst r)) = Some ast
        /\ nodes (store (snd r))
           = upd (upd (nodes (store b0)) (address view)
                    (nodes (store b0) (address view) ++ [fst (fst r)]))
               (List.length (views (store b0))) [])
  /\ map node_sourceAst (nodes (store b) 0) = map Some (flat_map ownNodes template)
  /\ Forall
       (fun v =>
          map node_sourceAst (nodes (store b) (address v))
          = map Some (flat_map ownNodes (embeddedChildren (declarationElement v))))
       (tl (views (store b)))
  /\ forall a,
       map node_nodeIndex (nodes (store b) a)
       = map Some (seq 0 (List.length (nodes (store b) a)))
       /\ NoDup (map node_nodeIndex (nodes (store b) a)).
Proof.
  intros root b.
  split; [|split; [|split]].
  - intros ast value parent view b0.
    now destruct (visitText_pushes ast value parent view b0) as [(_ & Hn & _) _].
  - intros ast name attrs refs dirs provs hvc parent view b0.
    destruct (visitElement_before_pushes ast name attrs refs dirs provs hvc parent view b0)
      as ((ed & Hel & _) & (_ & Hn & _) & _).
    cbv zeta. rewrite Hn, Hel. now repeat split.
  - intros ast vars refs dirs provs hvc parent view b0.
    destruct (visitEmbeddedTemplate_before_store ast vars refs dirs provs hvc parent view b0)
      as ((ed & Hel & _) & _ & Hn & _).
    cbv zeta. rewrite Hn, Hel. now repeat split.
  - destruct (rootView_built c gc pm sty an template deps)
      as (HB & [Haddr Hnodes] & Hroot & Hviews & Hnodes0 & _).
    fold root in HB, Hroot, Hviews. fold b in HB, Haddr, Hnodes. cbn [store] in HB.
    split; [|split].
    + destruct (built_nodes _ _ _ _ HB) as (new & Hn & Hs).
      rewrite Hroot in Hn. cbn [address store] in Hn. rewrite Hn, Hnodes0. exact Hs.
    + apply Forall_forall. intros v Hin.
      destruct (built_views _ _ _ _ HB) as (new & Hv). cbn [store] in Hv.
      rewrite Hv, Hviews in Hin. cbn [app tl] in Hin.
      apply In_nth_error in Hin as [k Hk].
      assert (Hnth : nth_error (views (store b)) (S k) = Some v) by now rewrite Hv, Hviews.
      rewrite (Haddr _ _ Hnth).
      apply (built_new _ _ _ _ HB (S k) v Hnth). cbn [store]. rewrite Hviews. cbn. lia.
    + intros a.
      assert (Heq : map node_nodeIndex (nodes (store b) a)
                    = map Some (seq 0 (List.length (nodes (store b) a)))).
      { apply nth_error_ext. intros k.
        rewrite !nth_error_map, nth_error_seq.
        destruct (nth_error (nodes (store b) a) k) as [n|] eqn:Hnth.
        - assert (Hlt' : k < List.length (nodes (store b) a)).
          { apply nth_error_Some. rewrite Hnth. discriminate. }
          apply Nat.ltb_lt in Hlt'. rewrite Hlt'. cbn.
          now destruct (Hnodes a k n Hnth) as (-> & _).
        - apply nth_error_None in Hnth. apply Nat.ltb_ge in Hnth. now rewrite Hnth. }
      split; [exact Heq|]. rewrite Heq.
      apply NoDup_map_NoDup_ForallPairs; [|apply seq_NoDup].
      intros x y _ _ Heq'. now injection Heq' as ->.
Qed.

(** X10. The view of a component registers no root node: after [buildView]
    of the top-level view of a component that is not a host, the view's
    [rootNodesOrAppElements] is empty, whatever the template holds. *)
Theorem component_view_has_no_root_nodes (c : CompileDirectiveMetadata)
    (gc : CompilerConfig) (pm : list CompilePipeMetadata) (sty : Expression)
    (an : list AnimationEntryCompileResult) (template : list TemplateAst)
    (deps : list Dependency) :
  isHost (dir_type c) = false ->
  let root := fst (rootView c gc pm sty an) in
  let b := buildView root template deps (snd (rootView c gc pm sty an)) in
  viewType root = COMPONENT /\ rootNodesOrAppElements (store b) 0 = [].
Proof.
  intros Hhost root b.
  destruct (rootView_built c gc pm sty an template deps)
    as (HB & _ & Hroot & _ & _ & Hroots).
  fold root in HB, Hroot. fold b in HB. cbn [store] in HB.
  assert (Htype : viewType root = COMPONENT).
  { rewrite Hroot. unfold viewType, getViewType. cbn. now rewrite Hhost. }
  split; [exact Htype|].
  pose proof (built_roots _ _ _ _ HB Htype) as Hr.
  rewrite Hroot in Hr. cbn [address store] in Hr. now rewrite Hr.
Qed.

(** X11. Every embedded view that [buildView] constructs from the top-level
    view takes over the component, the configuration, the pipes and the
    animations of the top-level view, has no styles of its own and is of
    type [EMBEDDED]. Its template variables are those of the embedded
    template, each bound to the context property of its value, and to
    [$implicit] when it has no value. Its declaration element is an anchor
    in the node list of a view constructed before it, and that anchor's
    [embeddedView] is the view again. *)
Theorem buildView_embedded_views (c : CompileDirectiveMetadata)
    (gc : CompilerConfig) (pm : list CompilePipeMetadata) (sty : Expression)
    (an : list AnimationEntryCompileResult) (template : list TemplateAst)
    (deps : list Dependency) :
  let root := fst (rootView c gc pm sty an) in
  let b := buildView root template deps (snd (rootView c gc pm sty an)) in
  Forall
    (fun v =>
       component v = c /\ genConfig v = gc /\ pipeMetas v = pm /\ animations v = an
       /\ styles v = NULL_EXPR /\ viewType v = EMBEDDED
       /\ templateVariableBindings v = embeddedBindings (declarationElement v)
       /\ node_hasEmbeddedView (declarationElement v) = true
       /\ node_embeddedView (store b) (declarationElement v) = Some v
       /\ exists w,
            node_view (declarationElement v) = Some w /\ address w < address v
            /\ In (declarationElement v) (nodes (store b) (address w)))
    (tl (views (store b))).
Proof.
  intros root b.
  destruct (rootView_built c gc pm sty an template deps)
    as (HB & [Haddr Hnodes] & Hroot & Hviews & _ & _).
  fold root in HB, Hroot, Hviews. fold b in HB, Haddr, Hnodes. cbn [store] in HB.
  apply Forall_forall. intros v Hin.
  destruct (built_views _ _ _ _ HB) as (new & Hv). cbn [store] in Hv.
  rewrite Hv, Hviews in Hin. cbn [app tl] in Hin.
  apply In_nth_error in Hin as [k Hk].
  assert (Hnth : nth_error (views (store b)) (S k) = Some v) by now rewrite Hv, Hviews.
  assert (Hle : List.length (views (snd (rootView c gc pm sty an))) <= S k).
  { rewrite Hviews. cbn. lia. }
  destruct (built_new _ _ _ _ HB (S k) v Hnth Hle)
    as [Hc Hg Hp Ha Hs Hi Hb _ (w & i & Hw & Hlt & Hn & He & Hanchor)].
  rewrite Hroot in Hc, Hg, Hp, Ha. cbn in Hc, Hg, Hp, Ha.
  do 5 (split; [assumption|]).
  split.
  { unfold viewType, getViewType. apply Nat.ltb_lt in Hi. now rewrite Hi. }
  split; [exact Hb|]. split; [exact Hanchor|]. split.
  - destruct (Hnodes _ _ _ Hn) as (_ & (w' & Hw' & Haw') & Hel).
    destruct (declarationElement v) as [|p u j rn ast [ed|]]; try discriminate.
    cbn [node_view] in Hw, Hw'. injection Hw as <-. injection Hw' as <-.
    destruct (Hel ed eq_refl) as [Hpos _]. cbn [node_embeddedView]. now rewrite Hpos.
  - exists w. rewrite (Haddr _ _ Hnth). split; [exact Hw|]. split; [exact Hlt|].
    eapply nth_error_In. exact Hn.
Qed.

(** ** More on the builder: the dependencies of a template *)

(** The dependencies of an element: when one of its directives is a
    component, the view factory of the first such directive and then the
    component factory of each of its entry components. *)
Definition elementDependencies (directives : list CompileDirectiveMetadata)
  : list Dependency :=
  match find isComponent directives with
  | Some component =>
      ViewFactoryDependency (type_identifier (dir_type component))
        {| id_name := getViewFactoryName component 0; id_moduleUrl := None |}
      :: map (fun entryComponent =>
                ComponentFactoryDependency entryComponent
                  {| id_name := id_name entryComponent; id_moduleUrl := None |})
           (entryComponents component)
  | None => []
  end.

Fixpoint dependenciesOf (ast : TemplateAst) : list Dependency :=
  match ast with
  | ElementAst _ _ _ _ _ directives _ _ children _ =>
      elementDependencies (map directive directives) ++ flat_map dependenciesOf children
  | EmbeddedTemplateAst _ _ _ _ _ _ _ children _ => flat_map dependenciesOf children
  | _ => []
  end.

Lemma visitElement_before_deps (ast : TemplateAst) (name : string) (attrs : list AttrAst)
    (references : list ReferenceAst) (directiveAsts : list DirectiveAst)
    (providers : list ProviderAst) (hasViewContainer : bool)
    (parent : CompileNode) (view : CompileView) (b : Builder) :
  targetDependencies
    (snd (visitElement_before ast name attrs references directiveAsts providers
            hasViewContainer parent view b))
  = targetDependencies b ++ elementDependencies (map directive directiveAsts).
Proof.
  unfold visitElement_before, elementDependencies. cbv zeta.
  destruct (find isComponent (map directive directiveAsts)) as [c|]; cbn [fst snd].
  - rewrite deps_push_fold.
    cbn [targetDependencies with_store with_gen_b deps_push].
    now rewrite <- app_assoc.
  - cbn [targetDependencies with_store with_gen_b]. now rewrite app_nil_r.
Qed.

Lemma visitAll_deps (children : list TemplateAst) :
  (forall c, In c children ->
     forall parent view b,
     targetDependencies (visit c parent view b) = targetDependencies b ++ dependenciesOf c) ->
  forall parent view b,
  targetDependencies (fold_left (fun b c => visit c parent view b) children b)
  = targetDependencies b ++ flat_map dependenciesOf children.
Proof.
  induction children as [|c children IHc]; intros H parent view b.
  - cbn. now rewrite app_nil_r.
  - cbn [fold_left flat_map]. rewrite IHc by (intros c' Hin; apply H; now right).
    rewrite H by now left. now rewrite <- app_assoc.
Qed.

Lemma visit_deps (ast : TemplateAst) :
  forall parent view b,
  targetDependencies (visit ast parent view b) = targetDependencies b ++ dependenciesOf ast.
Proof.
  induction ast as [ast IH] using TemplateAst_children_ind.
  intros parent view b.
  destruct ast as [value idx|source idx
                  |name attrs inputs outputs refs dirs provs hvc children idx
                  |attrs outputs refs vars dirs provs hvc children idx
                  |index idx| | | | | | |];
    cbn [visit dependenciesOf ast_children] in *; try (now rewrite app_nil_r).
  - pose proof (visitElement_before_deps
                  (ElementAst name attrs inputs outputs refs dirs provs hvc children idx)
                  name attrs refs dirs provs hvc parent view b) as Hbefore.
    destruct (visitElement_before _ name attrs refs dirs provs hvc parent view b)
      as [[el cve] b1].
    cbn [snd] in Hbefore.
    assert (Hafter : forall b2,
              targetDependencies
                (visitElement_after el (List.length (nodes (store b) (address view))) cve view b2)
              = targetDependencies b2).
    { intros b2. unfold visitElement_after. cbv zeta. now destruct cve. }
    rewrite Hafter, (visitAll_deps children IH), Hbefore. now rewrite <- app_assoc.
  - destruct (visitEmbeddedTemplate_before _ vars refs dirs provs hvc parent view b)
      as [[el ev] b1] eqn:Ebefore.
    assert (Hbefore : targetDependencies b1 = targetDependencies b).
    { unfold visitEmbeddedTemplate_before in Ebefore. cbv zeta in Ebefore.
      now injection Ebefore as _ _ <-. }
    unfold buildView_with, visitEmbeddedTemplate_after. cbv zeta.
    cbn [targetDependencies with_gen_b with_store].
    rewrite (visitAll_deps children IH). cbn [targetDependencies]. now rewrite Hbefore.
  - unfold visitNgContent. cbv zeta. rewrite app_nil_r.
    destruct (negb (is_NULL_EXPR (_getParentRenderNode view parent))); [reflexivity|].
    destruct (_isRootNode view parent).
    + now destruct (negb _).
    + destruct (node_component parent); [|reflexivity]. now destruct idx.
Qed.

(** X12. [buildView] appends to the dependencies of its caller, in document
    order, the view factory of every element that hosts a component,
    followed by the component factories of that component's entry
    components; the elements inside embedded templates count as well. An
    element without a component, a text and an [ng-content] add nothing. *)
Theorem buildView_dependencies (view : CompileView) (template : list TemplateAst)
    (deps : list Dependency) (st : Store) :
  targetDependencies (buildView view template deps st)
  = deps ++ flat_map dependenciesOf template.
Proof.
  unfold buildView, buildView_with.
  rewrite (visitAll_deps template); [reflexivity|]. intros c _. apply visit_deps.
Qed.

(** ** More on finishing: one class and one factory per view, in order *)

(** The names of the classes, and of the functions, that a list of
    top-level statements declares. *)
Definition classNames (stmts : list Statement) : list string :=
  flat_map (fun s => match s with ClassStmt name _ _ _ _ _ => [name] | _ => [] end) stmts.

Definition functionNames (stmts : list Statement) : list string :=
  flat_map
    (fun s => match s with DeclareFunctionStmt name _ _ _ _ => [name] | _ => [] end) stmts.

Definition viewFactoryNameOf (v : CompileView) : string :=
  getViewFactoryName (component v) (viewIndex v).

Lemma createViewTopLevelStmts_names (view : CompileView) (ts ts1 : list Statement)
    (st : Store) :
  createViewTopLevelStmts view ts st = Some ts1 ->
  classNames ts1 = classNames ts ++ [className view]
  /\ functionNames ts1 = functionNames ts ++ [viewFactoryNameOf view].
Proof.
  unfold createViewTopLevelStmts. cbv zeta.
  destruct (createViewClass view _ _ st) as [viewClass|] eqn:Hclass; [|discriminate].
  unfold createViewClass in Hclass. cbv zeta in Hclass.
  destruct (generateCreateMethod view st) as [createBody|]; [|discriminate].
  injection Hclass as <-. intros [= <-].
  unfold classNames, functionNames, createViewFactory, viewFactoryNameOf.
  destruct (genDebugInfo (genConfig view)); destruct (Nat.eqb (viewIndex view) 0);
    rewrite ?flat_map_app; cbn [flat_map declare_var app]; rewrite ?app_nil_r;
    split; reflexivity.
Qed.

Lemma finishNodes_stuck
    (finish : CompileView -> list Statement -> Store -> Result (Store * list Statement))
    (ns : list CompileNode) (r : Result (Store * list Statement)) :
  (forall st out, r <> Ok (st, out)) ->
  fold_left (finishNode finish) ns r = r.
Proof.
  intros Hr. induction ns as [|n ns IH]; [reflexivity|].
  cbn [fold_left].
  assert (Hstep : finishNode finish r n = r).
  { destruct r as [[st out]| |]; [exfalso; now apply (Hr st out) | reflexivity | reflexivity]. }
  rewrite Hstep. exact IH.
Qed.

Lemma node_embeddedView_skeleton (st st' : Store) (n : CompileNode) :
  same_skeleton st st' -> node_embeddedView st' n = node_embeddedView st n.
Proof.
  intros (_ & _ & He). destruct n as [|p v i rn ast [ed|]]; cbn [node_embeddedView];
    try reflexivity. now rewrite He.
Qed.

(** [finishView] goes through the views below a list of nodes in the order
    of their forest, and appends one class and one factory for each. *)
Lemma finishNodes_forest (st : Store) (ns : list CompileNode) (vs : list CompileView) :
  Forest st ns vs ->
  forall fuel cur ts st' out,
    same_skeleton st cur ->
    fold_left (finishNode (finishView fuel)) ns (Ok (cur, ts)) = Ok (st', out) ->
    classNames out = classNames ts ++ map className vs
    /\ functionNames out = functionNames ts ++ map viewFactoryNameOf vs.
Proof.
  induction 1 as [|n ns vs Hn _ IH|n ns ev vs1 vs2 Hn Hev _ IH1 _ IH2];
    intros fuel cur ts st' out Hsk Hfold.
  - cbn in Hfold. injection Hfold as _ <-. cbn. now rewrite !app_nil_r.
  - cbn [fold_left finishNode] in Hfold. rewrite Hn in Hfold.
    exact (IH fuel cur ts st' out Hsk Hfold).
  - cbn [fold_left finishNode] in Hfold.
    rewrite Hn, (node_embeddedView_skeleton st cur n Hsk), Hev in Hfold.
    destruct (finishView fuel ev ts cur) as [[cur1 ts1]| |] eqn:Hfinish.
    + pose proof (finishView_skeleton fuel ev ts cur cur1 ts1 Hfinish) as Hsk1.
      destruct fuel as [|fuel]; [discriminate|].
      rewrite finishView_unfold in Hfinish.
      destruct (afterNodes ev (gen cur)) as [g|]; [|discriminate].
      destruct (createViewTopLevelStmts ev ts (with_gen cur g)) as [tsa|] eqn:Htop;
        [|discriminate].
      destruct (createViewTopLevelStmts_names _ _ _ _ Htop) as [Hc Hf].
      assert (Hnodes : nodes cur (address ev) = nodes st (address ev)).
      { destruct Hsk as (_ & -> & _). reflexivity. }
      rewrite Hnodes in Hfinish.
      destruct (IH1 fuel (with_gen cur g) tsa cur1 ts1) as [Hc1 Hf1];
        [apply (same_skeleton_trans st cur); [exact Hsk | apply with_gen_skeleton]
        | exact Hfinish|].
      destruct (IH2 (S fuel) cur1 ts1 st' out) as [Hc2 Hf2];
        [apply (same_skeleton_trans st cur); [exact Hsk | exact Hsk1] | exact Hfold|].
      rewrite Hc2, Hc1, Hc, Hf2, Hf1, Hf. cbn [map]. rewrite !map_app, <- !app_assoc.
      split; reflexivity.
    + rewrite finishNodes_stuck in Hfold by discriminate. discriminate.
    + rewrite finishNodes_stuck in Hfold by discriminate. discriminate.
Qed.

(** X15. A run of the build never runs out of fuel, and when [finishView]
    ends without a [TypeError] it has appended to the statements of its
    caller exactly one class and one factory function for every view, in
    the order in which the views were constructed: the classes
    [_View_<component>0], [_View_<component>1], ... and the factories that
    [getViewFactoryName] names for the nesting indices 0, 1, ..., as many as
    there are embedded templates in the template and one more. *)
Theorem finishView_emits_views_in_order (c : CompileDirectiveMetadata) (gc : CompilerConfig)
    (pm : list CompilePipeMetadata) (sty : Expression)
    (an : list AnimationEntryCompileResult) (template : list TemplateAst)
    (dependencies : list Dependency) (targetStatements : list Statement) :
  let indices := seq 0 (S (list_sum (map countEmbedded template))) in
  match buildAndFinish c gc pm sty an template dependencies targetStatements with
  | Ok (_, statements) =>
      classNames statements
      = classNames targetStatements
        ++ map (fun k => "_View_" +++ type_name (dir_type c) +++ string_of_nat k) indices
      /\ functionNames statements
         = functionNames targetStatements ++ map (getViewFactoryName c) indices
  | TypeError => True
  | OutOfFuel => False
  end.
Proof.
  intros indices. unfold buildAndFinish. cbv zeta.
  destruct (rootView_built c gc pm sty an template dependencies)
    as (HB & HInv & Hroot & Hviews & Hnodes & _).
  destruct (rootView_Pre c gc pm sty an dependencies) as ([HInv0 Hlt0] & _ & _).
  cbn [store] in HInv0, Hlt0, HB.
  destruct (buildView_post _ template dependencies _ HInv0 Hlt0)
    as (_ & (new & Hv & Hl & Hi) & _).
  cbn [store nestedViewCount] in Hv, Hi.
  set (root := fst (rootView c gc pm sty an)) in *.
  set (b := buildView root template dependencies (snd (rootView c gc pm sty an))) in *.
  destruct (finishView (List.length (views (store b))) root targetStatements (store b))
    as [[st' out]| |] eqn:Hfinish; [|exact I|].
  - rewrite Hv, Hviews in Hfinish. cbn [app List.length] in Hfinish.
    rewrite finishView_unfold in Hfinish.
    destruct (afterNodes root (gen (store b))) as [g|]; [|discriminate].
    destruct (createViewTopLevelStmts root targetStatements (with_gen (store b) g))
      as [ts1|] eqn:Htop; [|discriminate].
    destruct (createViewTopLevelStmts_names _ _ _ _ Htop) as [Hc Hf].
    destruct (built_forest _ _ _ _ HB) as (nn & nv & Hnn & Hnv & HF).
    cbn [store] in Hnn, Hnv. rewrite Hv in Hnv. apply app_inv_head in Hnv. subst nv.
    assert (Haddr : address root = 0) by now rewrite Hroot.
    rewrite Haddr in Hnn, Hfinish. rewrite Hnodes in Hnn. cbn [app] in Hnn.
    rewrite Hnn in Hfinish.
    destruct (finishNodes_forest _ _ _ HF _ _ _ _ _ (with_gen_skeleton (store b) g) Hfinish)
      as [Hc' Hf'].
    assert (Hcomp : forall v, In v (root :: new) -> component v = c).
    { intros v [<-|Hin]; [now rewrite Hroot|].
      apply In_nth_error in Hin as [k Hk].
      assert (Hnth : nth_error (views (store b)) (S k) = Some v) by now rewrite Hv, Hviews.
      destruct (built_new _ _ _ _ HB (S k) v Hnth) as [Hcv _ _ _ _ _ _ _ _].
      { cbn [store]. rewrite Hviews. cbn. lia. }
      rewrite Hcv, Hroot. reflexivity. }
    assert (Hidx : map viewIndex (root :: new) = indices).
    { cbn [map]. rewrite Hi. unfold indices. rewrite Hroot. reflexivity. }
    rewrite Hc', Hc, Hf', Hf, <- !app_assoc. cbn [app].
    change (className root :: map className new) with (map className (root :: new)).
    change (viewFactoryNameOf root :: map viewFactoryNameOf new)
      with (map viewFactoryNameOf (root :: new)).
    rewrite <- Hidx, !map_map. split; f_equal; apply map_ext_in; intros v Hin.
    + unfold className. now rewrite (Hcomp v Hin).
    + unfold viewFactoryNameOf. now rewrite (Hcomp v Hin).
  - revert Hfinish. apply finishView_fuel; [exact HInv | |lia].
    rewrite Hv, length_app. lia.
Qed.

(** ** More on the builder: the fields of the render nodes *)

(** The first part of the name of a node's field, by its template node. *)
Definition fieldPrefix (ast : TemplateAst) : string :=
  match ast with
  | TextAst _ _ | BoundTextAst _ _ => "_text_"
  | EmbeddedTemplateAst _ _ _ _ _ _ _ _ _ => "_anchor_"
  | _ => "_el_"
  end.

(** The render node of [n] is the field named after [n]'s template node and
    index. *)
Definition namedAfterIndex (n : CompileNode) : Prop :=
  match n with
  | MkCompileNode _ _ i rn ast _ =>
      rn = prop THIS_EXPR (fieldPrefix ast +++ string_of_nat i)
  | NullElement => False
  end.

Definition Named (st : Store) : Prop := forall a, Forall namedAfterIndex (nodes st a).

Lemma Named_pushes (view : CompileView) (n : CompileNode) (st st' : Store) :
  pushes view n st st' -> namedAfterIndex n -> Named st -> Named st'.
Proof.
  intros (_ & Hn & _) Hnamed HN a. rewrite Hn.
  destruct (Nat.eq_dec (address view) a) as [<-|Hne].
  - rewrite upd_same. apply Forall_app. split; [apply HN | now constructor].
  - rewrite upd_other by exact Hne. apply HN.
Qed.

Lemma visitAll_named (asts : list TemplateAst) (parent : CompileNode) (view : CompileView)
    (b : Builder) :
  Pre view b ->
  Named (store b) -> Named (store (fold_left (fun b c => visit c parent view b) asts b)).
Proof.
  revert asts parent view b.
  apply (visit_rel (fun _ _ _ b b' => Named (store b) -> Named (store b'))).
  - intros _ _ b _ HN. exact HN.
  - intros _ _ _ _ b1 b2 b3 _ _ _ _ _ H12 H23 HN. apply H23, H12, HN.
  - intros value idx parent view b _.
    destruct (visitText_pushes (TextAst value idx) value parent view b) as [Hp _].
    apply (Named_pushes _ _ _ _ Hp). reflexivity.
  - intros source idx parent view b _.
    destruct (visitText_pushes (BoundTextAst source idx) "" parent view b) as [Hp _].
    apply (Named_pushes _ _ _ _ Hp). reflexivity.
  - intros index idx parent view b _ HN a.
    destruct (visitNgContent_shape index idx parent view b) as (_ & -> & _). apply HN.
  - intros _ _ _ b _ _ HN. exact HN.
  - intros name attrs inputs outputs refs dirs provs hvc children idx parent view b b2 k
      _ ast r _ Hchildren HN a.
    destruct (visitElement_before_pushes ast name attrs refs dirs provs hvc parent view b)
      as ((ed & Hel & _ & _) & Hp & _).
    fold r in Hel, Hp.
    destruct (visitElement_after_shape (fst (fst r))
                (List.length (nodes (store b) (address view))) (snd (fst r)) view b2)
      as [(_ & -> & _) _].
    apply Hchildren. apply (Named_pushes _ _ _ _ Hp); [|exact HN].
    rewrite Hel. reflexivity.
  - intros attrs outputs refs vars dirs provs hvc children idx parent view b inner k
      [_ Hlt] ast r b0 _ _ Hinner HN a.
    destruct (visitEmbeddedTemplate_before_store ast vars refs dirs provs hvc parent view b)
      as ((ed & Hel & _ & _ & _) & _ & Hnodes & _ & _).
    fold r in Hel, Hnodes.
    match goal with
    | |- context [visitEmbeddedTemplate_after ?el view ?bb] =>
        destruct (visitEmbeddedTemplate_after_skeleton el view bb) as [(_ & -> & _) _]
    end.
    cbn [store]. apply Hinner. cbn [store b0]. intros a'. rewrite Hnodes.
    destruct (Nat.eq_dec (List.length (views (store b))) a') as [<-|HL].
    { rewrite upd_same. constructor. }
    rewrite upd_other by exact HL.
    destruct (Nat.eq_dec (address view) a') as [<-|Hne].
    + rewrite upd_same. apply Forall_app. split; [apply HN|].
      constructor; [|constructor]. rewrite Hel. reflexivity.
    + rewrite upd_other by exact Hne. apply HN.
Qed.

(** X16. After [buildView] from the top-level view, the render node of
    every node of every view is a field of the view's class named after the
    kind of the template node and the node's index: [_text_<index>] for a
    text and a bound text, [_el_<index>] for an element and [_anchor_<index>]
    for an embedded template. *)
Theorem buildView_names_render_nodes (c : CompileDirectiveMetadata)
    (gc : CompilerConfig) (pm : list CompilePipeMetadata) (sty : Expression)
    (an : list AnimationEntryCompileResult) (template : list TemplateAst)
    (deps : list Dependency) (a : nat) :
  let root := fst (rootView c gc pm sty an) in
  let b := buildView root template deps (snd (rootView c gc pm sty an)) in
  Forall
    (fun n =>
       match node_sourceAst n, node_nodeIndex n with
       | Some ast, Some index =>
           node_renderNode n = Some (prop THIS_EXPR (fieldPrefix ast +++ string_of_nat index))
       | _, _ => False
       end)
    (nodes (store b) a).
Proof.
  intros root b.
  destruct (rootView_Pre c gc pm sty an deps) as (HPre & _ & _).
  assert (HN : Named (store b)).
  { unfold b, buildView, buildView_with. unfold root at 2, rootView, new_CompileView.
    cbn [fst declarationElement].
    apply (visitAll_named template NullElement root _ HPre).
    intros a'. cbn [store]. unfold rootView, new_CompileView. cbn [snd nodes emptyStore].
    unfold upd. destruct (Nat.eqb _ a'); constructor. }
  eapply Forall_impl; [|apply HN].
  intros [|p v i rn ast e] Hn; [destruct Hn|]. cbn in Hn |- *. now rewrite Hn.
Qed.

(** ** More on the builder: the attribute statements in the create method *)






























End ViewCompiler.

Arguments buffers {ElementPrivate} g _.
Arguments queries {ElementPrivate} g.
Arguments views {ElementPrivate} s.
Arguments nodes {ElementPrivate} s _.
Arguments rootNodesOrAppElements {ElementPrivate} s _.
Arguments embeddedView {ElementPrivate} s _ _.
Arguments contentNodesByNgContentIndex {ElementPrivate} s _ _ _.
Arguments gen {ElementPrivate} s.
Arguments store {ElementPrivate} b.
Arguments nestedViewCount {ElementPrivate} b.
Arguments targetDependencies {ElementPrivate} b.

(** * Scenarios

    The parameters at values of their own kind: debug information is off,
    the constants are the view's properties, and the classes that are not in
    the sources generate no code of their own. *)

Module Scenario.

Definition renderer : Expression := prop THIS_EXPR "renderer".
Definition projectableNodes : Expression := prop THIS_EXPR "projectableNodes".
Definition viewUtils : Expression := prop THIS_EXPR "viewUtils".

Definition viewFactoryName (c : CompileDirectiveMetadata) (i : nat) : string :=
  "viewFactory_" +++ type_name (dir_type c) +++ string_of_nat i.

Definition flatArray (es : list Expression) : Expression := literalArr es None.

Definition noDebugInfo (_ : CompileView) (_ : nat) (_ : TemplateAst) : Expression :=
  NULL_EXPR.

Definition appElementOf (_ : CompileView) (nodeIndex : nat)
    (c : option CompileDirectiveMetadata) (hasViewContainer hasEmbeddedView : bool)
  : option Expression :=
  if hasViewContainer || hasEmbeddedView || isPresent c
  then Some (prop THIS_EXPR ("_appEl_" +++ string_of_nat nodeIndex))
  else None.

Definition injectorOf (_ : CompileView) (nodeIndex : nat) : Expression :=
  callMethod THIS_EXPR "injector" [literal_num nodeIndex].

Definition replaceThis (newValue e : Expression) : Expression :=
  match e with THIS_EXPR => newValue | _ => e end.

Definition visit : TemplateAst -> CompileNode -> CompileView -> Builder unit -> Builder unit :=
  visit renderer projectableNodes viewUtils viewFactoryName flatArray unit noDebugInfo
    appElementOf injectorOf
    (fun _ st => gen st) (fun _ _ st => gen st) (fun _ _ st => gen st)
    (fun _ _ => NULL_EXPR) (fun _ st => gen st) (fun _ _ st => gen st)
    (fun _ _ st => gen st).

Definition config : CompilerConfig :=
  {| renderTypes :=
       {| renderText := {| id_name := "Text"; id_moduleUrl := None |};
          renderElement := {| id_name := "Element"; id_moduleUrl := None |};
          renderComment := {| id_name := "Comment"; id_moduleUrl := None |};
          renderNode := {| id_name := "Node"; id_moduleUrl := None |} |};
     genDebugInfo := false |}.

Definition appComponent (host : bool) : CompileDirectiveMetadata :=
  {| dir_type := {| type_name := "App"; type_moduleUrl := "app.ts";
                    isHost := host; diDeps := [] |};
     isComponent := true; changeDetection := Default; hostAttributes := [];
     dir_viewQueries := []; entryComponents := [];
     template := {| encapsulation := Emulated; templateUrl := "app.html";
                    ngContentSelectors := [] |} |}.

(** The top-level view of the component, and of its host. *)
Definition componentView : CompileView * Store unit :=
  rootView unit (fun _ _ st => gen st) tt (appComponent false) config [] NULL_EXPR [].

Definition hostView : CompileView * Store unit :=
  rootView unit (fun _ _ st => gen st) tt (appComponent true) config [] NULL_EXPR [].


Definition setAttribute (name value : string) : Statement :=
  toStmt
    (callMethod renderer "setElementAttribute"
       [prop THIS_EXPR "_el_0"; literal_str name; literal_str value]).

(** The create method of the component's view after the visit of [ast]. *)
Definition createMethodAfterVisit (ast : TemplateAst) : list Statement :=
  let b :=
    visit ast NullElement (fst componentView)
      {| store := snd componentView; nestedViewCount := 0; targetDependencies := [] |} in
  methods (buffers (gen (store b)) (address (fst componentView))) createMethod.


(** *** The attribute merge at a static [class] *)


(** [<div class="a" dir-with-host-class>] through the visit. *)
Example static_class_is_merged :
  createMethodAfterVisit
    (ElementAst "div"
       [{| attr_name := "class"; attr_value := "a" |};
        {| attr_name := "dir-with-host-class"; attr_value := "" |}]
       [] [] [] [{| directive := AttrsFacts.dirWithHostClass |}] [] false [] None)
  = [toStmt
       (set_prop THIS_EXPR "_el_0"
          (callMethod renderer "createElement"
             [parentRenderNodeVar; literal_str "div"; NULL_EXPR]));
     setAttribute "class" "a b";
     setAttribute "dir-with-host-class" ""].
Proof. vm_compute. reflexivity. Qed.

(** [<div __proto__="x" toString="y">]: the attribute named [__proto__] is
    dropped, the one named like a function of [Object.prototype] is kept. *)
Example proto_attribute_is_dropped :
  Attrs._readHtmlAttrs
    [{| attr_name := "__proto__"; attr_value := "x" |};
     {| attr_name := "toString"; attr_value := "y" |}]
  = [("toString", "y")]
  /\ createMethodAfterVisit
       (ElementAst "div"
          [{| attr_name := "__proto__"; attr_value := "x" |};
           {| attr_name := "toString"; attr_value := "y" |}]
          [] [] [] [] [] false [] None)
     = [toStmt
          (set_prop THIS_EXPR "_el_0"
             (callMethod renderer "createElement"
                [parentRenderNodeVar; literal_str "div"; NULL_EXPR]));
        setAttribute "toString" "y"].
Proof. vm_compute. split; reflexivity. Qed.

(** A host attribute named like a function of [Object.prototype] replaces
    nothing and is set as it is. *)
Example inherited_name_is_merged :
  Attrs._mergeHtmlAndDirectiveAttrs (Attrs._readHtmlAttrs [])
    [{| dir_type := dir_type AttrsFacts.dirWithHostClass;
        isComponent := false; changeDetection := Default;
        hostAttributes := [("valueOf", "v"); ("class", "b")];
        dir_viewQueries := []; entryComponents := [];
        template := template AttrsFacts.dirWithHostClass |};
     AttrsFacts.dirWithHostClass]
  = [("class", "b b"); ("valueOf", "v")].
Proof. vm_compute. reflexivity. Qed.

(** *** The keys of the attribute objects listed backwards *)

Lemma mergeHtmlAndDirectiveAttrs_any_key_order_witness :
  (forall o : JsObject string, Permutation (rev (Object_keys o)) (Object_keys o))
  /\ Forall (fun d => obj_wf (hostAttributes d)) [AttrsFacts.dirWithHostClass]
  /\ AttrsFacts.mergeHtmlAndDirectiveAttrs_by (fun o => rev (Object_keys o))
       (Attrs._readHtmlAttrs
          [{| attr_name := "title"; attr_value := "t" |};
           {| attr_name := "class"; attr_value := "a" |}])
       [AttrsFacts.dirWithHostClass]
     = Attrs._mergeHtmlAndDirectiveAttrs
         (Attrs._readHtmlAttrs
            [{| attr_name := "title"; attr_value := "t" |};
             {| attr_name := "class"; attr_value := "a" |}])
         [AttrsFacts.dirWithHostClass].
Proof.
  assert (Hkeys : forall o : JsObject string,
            Permutation (rev (Object_keys o)) (Object_keys o))
    by (intros o; apply Permutation_sym, Permutation_rev).
  assert (H : Forall (fun d => obj_wf (hostAttributes d)) [AttrsFacts.dirWithHostClass]).
  { constructor; [|constructor]. constructor; [intros [] | constructor]. }
  split; [exact Hkeys|]. split; [exact H|].
  exact (AttrsFacts.mergeHtmlAndDirectiveAttrs_any_key_order
           (fun o => rev (Object_keys o)) Hkeys
           (Attrs._readHtmlAttrs
              [{| attr_name := "title"; attr_value := "t" |};
               {| attr_name := "class"; attr_value := "a" |}])
           [AttrsFacts.dirWithHostClass] H).
Defined.


(** *** A text under two [ng-container] elements of a host view *)

Definition plainElement (pos : nat) : ElementData :=
  {| position := pos; el_component := None; el_directives := []; el_providers := [];
     el_hasViewContainer := false; hasEmbeddedView := false; el_references := [];
     appElement := None; injector := injectorOf (fst hostView) pos |}.

Definition container (idx : option nat) : TemplateAst :=
  ElementAst "ng-container" [] [] [] [] [] [] false [] idx.

Definition outerContainer : CompileNode :=
  MkCompileNode NullElement (fst hostView) 0 (prop THIS_EXPR "_el_0") (container None)
    (Some (plainElement 0)).

Definition innerContainer : CompileNode :=
  MkCompileNode outerContainer (fst hostView) 1 (prop THIS_EXPR "_el_1") (container (Some 3))
    (Some (plainElement 1)).

Definition leafText : CompileNode :=
  MkCompileNode innerContainer (fst hostView) 2 (prop THIS_EXPR "_text_2")
    (TextAst "x" (Some 5)) None.

Lemma addRootNodeAndProject_outermost_container_witness :
  containerChain (Some (fst hostView)) leafText outerContainer
  /\ _isNgContainer NullElement (Some (fst hostView)) = false
  /\ _getOuterContainerOrSelf leafText = outerContainer
  /\ _addRootNodeAndProject unit (fst hostView) leafText (snd hostView)
     = rootNodes_push unit (snd hostView) (fst hostView) (prop THIS_EXPR "_text_2")
  /\ rootNodesOrAppElements
       (_addRootNodeAndProject unit (fst hostView) leafText (snd hostView)) 0
     = [prop THIS_EXPR "_text_2"].
Proof.
  assert (Hchain : containerChain (Some (fst hostView)) leafText outerContainer).
  { apply chain_up; [reflexivity|]. apply chain_up; [reflexivity|]. apply chain_self. }
  split; [exact Hchain|]. split; [reflexivity|].
  exact (addRootNodeAndProject_outermost_container unit (fst hostView) (snd hostView)
           innerContainer (fst hostView) 2 (prop THIS_EXPR "_text_2")
           (TextAst "x" (Some 5)) None
           NullElement (fst hostView) 0 (prop THIS_EXPR "_el_0") (container None)
           (Some (plainElement 0)) Hchain eq_refl).
Defined.

(** *** Two structural directives, one inside the other *)

Definition buildView : CompileView -> list TemplateAst -> list Dependency -> Store unit
                       -> Builder unit :=
  buildView renderer projectableNodes viewUtils viewFactoryName flatArray unit noDebugInfo
    appElementOf injectorOf
    (fun _ st => gen st) (fun _ _ st => gen st) (fun _ _ st => gen st)
    (fun _ _ => NULL_EXPR) (fun _ st => gen st) (fun _ _ st => gen st)
    (fun _ _ st => gen st).

Example two_levels_three_views :
  let b := buildView (fst componentView) twoLevels [] (snd componentView) in
  map viewIndex (views (store b)) = [0; 1; 2]
  /\ map viewType (views (store b)) = [COMPONENT; EMBEDDED; EMBEDDED]
  /\ nestedViewCount b = 2
  /\ map node_nodeIndex (nodes (store b) 0) = [Some 0]
  /\ map node_nodeIndex (nodes (store b) 1) = [Some 0]
  /\ nodes (store b) 2 = [].
Proof. vm_compute. repeat split; reflexivity. Qed.

(** *** A query with a match in an embedded view *)

Definition anchor : CompileNode :=
  MkCompileNode NullElement (fst componentView) 0 (prop THIS_EXPR "_anchor_0")
    (EmbeddedTemplateAst [] [] [] [] [] [] false [] None)
    (Some {| position := 0; el_component := None; el_directives := [];
             el_providers := []; el_hasViewContainer := false; hasEmbeddedView := true;
             el_references := [];
             appElement := appElementOf (fst componentView) 0 None false true;
             injector := injectorOf (fst componentView) 0 |}).

Definition embedded : CompileView :=
  MkCompileView 1 (appComponent false) config [] NULL_EXPR [] 1 anchor [].

Definition childQuery (isFirst : bool) (values : list QueryValue) : CompileQuery :=
  {| meta := {| selector0 := {| token_name := "Child"; token_reference := "Child" |};
                selectors_rest := []; first := isFirst; propertyName := "child" |};
     queryList := prop THIS_EXPR "_viewQuery_Child_0";
     ownerDirectiveExpression := Some (prop THIS_EXPR "context");
     query_view := fst componentView;
     _values := MkViewQueryValues (Some (fst componentView)) values |}.

Definition nestedValues : list QueryValue :=
  [QueryExpr (prop THIS_EXPR "_Child_0_3");
   QueryNested (MkViewQueryValues (Some embedded) [QueryExpr (prop THIS_EXPR "_Child_0_4")])].

Lemma afterChildren_placement_witness :
  vqv_wf (_values (childQuery true nestedValues)) = true
  /\ exists values,
       createQueryValues replaceThis (_values (childQuery true nestedValues)) = Some values
       /\ Forall2 (expandedEntry replaceThis) nestedValues values
       /\ afterChildren replaceThis (childQuery true nestedValues) [] []
          = Some ([],
                  [IfStmt (prop (prop THIS_EXPR "_viewQuery_Child_0") "dirty")
                     [toStmt (callMethod (prop THIS_EXPR "_viewQuery_Child_0") "reset"
                                [literalArr values None]);
                      toStmt (set_prop (prop THIS_EXPR "context") "child"
                                (prop (prop THIS_EXPR "_viewQuery_Child_0") "first"))]]).
Proof.
  split; [reflexivity|].
  exact (afterChildren_placement replaceThis (childQuery true nestedValues) [] [] eq_refl).
Defined.

Example static_first_query_is_unconditional :
  afterChildren replaceThis (childQuery true [QueryExpr (prop THIS_EXPR "_Child_0_3")]) [] []
  = Some ([toStmt (callMethod (prop THIS_EXPR "_viewQuery_Child_0") "reset"
                     [literalArr [prop THIS_EXPR "_Child_0_3"] None]);
           toStmt (set_prop (prop THIS_EXPR "context") "child"
                     (prop (prop THIS_EXPR "_viewQuery_Child_0") "first"))],
          []).
Proof. reflexivity. Qed.


(** *** A match found inside an embedded view *)

Definition propertyInView (property : Expression) (callingView definedView : CompileView)
    : Expression :=
  if view_same callingView definedView then property
  else match property with
       | ReadPropExpr _ name => prop (prop THIS_EXPR "parent") name
       | _ => property
       end.

Example match_in_embedded_view :
  let b := buildView (fst componentView) twoLevels [] (snd componentView) in
  let inner := nth 1 (views (store b)) (fst componentView) in
  let r := addValue propertyInView unit (childQuery false [])
             (prop THIS_EXPR "_Child_0_4") inner (store b) in
  methods (buffers (gen (snd r)) 1) dirtyParentQueriesMethod
  = [toStmt (callMethod (prop (prop THIS_EXPR "parent") "_viewQuery_Child_0") "setDirty" [])]
  /\ methods (buffers (gen (snd r)) 0) dirtyParentQueriesMethod = []
  /\ _isStatic (fst r) = false
  /\ createQueryValues replaceThis (_values (fst r))
     = Some [callMethod (prop THIS_EXPR "_appEl_0") "mapNestedViews"
               [variable (className inner);
                fn [{| param_name := "nestedView"; param_type := classType inner |}]
                  [ReturnStatement (literalArr [prop THIS_EXPR "_Child_0_4"] None)]
                  (Some DYNAMIC_TYPE)]].
Proof. vm_compute. repeat split; reflexivity. Qed.


(** *** More scenarios *)

Definition builtTwoLevels : Builder unit :=
  buildView (fst componentView) twoLevels [] (snd componentView).

Definition innermostView : CompileView :=
  nth 2 (views (store builtTwoLevels)) (fst componentView).

Lemma addValue_keeps_well_formed_witness :
  vqv_wf (_values (childQuery false [])) = true
  /\ forallb (fun el => hasAppElement (node_embeddedView unit (store builtTwoLevels) el))
       (elPath (childQuery false []) innermostView) = true
  /\ vqv_wf
       (_values
          (fst (addValue propertyInView unit (childQuery false [])
                  (prop THIS_EXPR "_Child_0_4") innermostView (store builtTwoLevels))))
     = true
  /\ exists values,
       createQueryValues replaceThis
         (_values
            (fst (addValue propertyInView unit (childQuery false [])
                    (prop THIS_EXPR "_Child_0_4") innermostView (store builtTwoLevels))))
       = Some values.
Proof.
  split; [reflexivity|]. split; [vm_compute; reflexivity|].
  exact (addValue_keeps_well_formed propertyInView replaceThis unit (childQuery false [])
           (prop THIS_EXPR "_Child_0_4") innermostView (store builtTwoLevels)
           eq_refl eq_refl).
Defined.

Lemma getParentRenderNode_skips_containers_witness :
  _isNgContainer innerContainer (Some (fst hostView)) = true
  /\ match node_view outerContainer with
     | Some w => view_same w (fst hostView)
     | None => true
     end = true
  /\ _getParentRenderNode (fst hostView) innerContainer
     = _getParentRenderNode (fst hostView) outerContainer.
Proof.
  split; [reflexivity|]. split; [reflexivity|].
  exact (getParentRenderNode_skips_containers (fst hostView) outerContainer (fst hostView) 1
           (prop THIS_EXPR "_el_1") (container (Some 3)) (Some (plainElement 1))
           eq_refl eq_refl).
Defined.

(** A text, an element with a text in it, and a structural directive. *)
Definition mixedTemplate : list TemplateAst :=
  [TextAst "a" None;
   ElementAst "div" [] [] [] [] [] [] false [TextAst "b" None] None;
   EmbeddedTemplateAst [] [] [] [] [] [] false [TextAst "c" None] None].

Lemma component_view_has_no_root_nodes_witness :
  isHost (dir_type (appComponent false)) = false
  /\ viewType (fst componentView) = COMPONENT
  /\ rootNodesOrAppElements
       (store (buildView (fst componentView) mixedTemplate [] (snd componentView))) 0
     = [].
Proof.
  split; [reflexivity|].
  exact (component_view_has_no_root_nodes renderer projectableNodes viewUtils
           viewFactoryName flatArray unit noDebugInfo appElementOf injectorOf
           (fun _ st => gen st) (fun _ _ st => gen st) (fun _ _ st => gen st)
           (fun _ _ => NULL_EXPR) (fun _ st => gen st) (fun _ _ st => gen st)
           (fun _ _ st => gen st) tt (appComponent false) config [] NULL_EXPR []
           mixedTemplate [] eq_refl).
Defined.

Example host_view_has_root_nodes :
  rootNodesOrAppElements
    (store (buildView (fst hostView) mixedTemplate [] (snd hostView))) 0
  = [prop THIS_EXPR "_text_0"; prop THIS_EXPR "_el_1"; prop THIS_EXPR "_anchor_3"]
  /\ map node_nodeIndex
       (nodes (store (buildView (fst hostView) mixedTemplate [] (snd hostView))) 1)
     = [Some 0].
Proof. vm_compute. split; reflexivity. Qed.


(** *** The attributes of an element in the create method *)

(** [<div title="t" class="a" dir-with-host-class>x</div>] *)
Definition titledElement : TemplateAst :=
  ElementAst "div"
    [{| attr_name := "title"; attr_value := "t" |};
     {| attr_name := "class"; attr_value := "a" |};
     {| attr_name := "dir-with-host-class"; attr_value := "" |}]
    [] [] [] [{| directive := AttrsFacts.dirWithHostClass |}] [] false
    [TextAst "x" None] None.


Example titled_element_create_method :
  createMethodAfterVisit titledElement
  = [toStmt
       (set_prop THIS_EXPR "_el_0"
          (callMethod renderer "createElement"
             [parentRenderNodeVar; literal_str "div"; NULL_EXPR]));
     setAttribute "class" "a b";
     setAttribute "dir-with-host-class" "";
     setAttribute "title" "t";
     toStmt
       (set_prop THIS_EXPR "_text_1"
          (callMethod renderer "createText"
             [prop THIS_EXPR "_el_0"; literal_str "x"; NULL_EXPR]))].
Proof. vm_compute. reflexivity. Qed.


(** *** A whole run: building and finishing a component's view *)

Definition buildAndFinish (c : CompileDirectiveMetadata) (template : list TemplateAst)
  : Result (list Dependency * list Statement) :=
  buildAndFinish renderer projectableNodes viewUtils
    "viewUtils" "parentInjector" "declarationEl" "token" "requestNodeIndex"
    "notFoundResult" "throwOnChange" "changes" "changed" "valUnwrapper"
    (fun _ => NULL_EXPR) (fun _ => NULL_EXPR) (fun _ => NULL_EXPR)
    viewFactoryName flatArray (fun _ => NULL_EXPR)
    (fun id => {| token_name := id_name id; token_reference := id_name id |})
    replaceThis (fun _ => [])
    (fun strategy => match strategy with Default => true | OnPush => false end)
    unit noDebugInfo appElementOf injectorOf
    (fun _ st => gen st) (fun _ _ st => gen st) (fun _ _ st => gen st)
    (fun _ _ => NULL_EXPR) (fun _ st => gen st) (fun _ _ st => gen st)
    (fun _ _ st => gen st) (fun _ _ => []) (fun _ => [])
    tt c config [] NULL_EXPR [] template [] [].

Example two_levels_three_classes :
  match buildAndFinish (appComponent false) twoLevels with
  | Ok _ (dependencies, statements) =>
      dependencies = []
      /\ classNames statements = ["_View_App0"; "_View_App1"; "_View_App2"]
      /\ functionNames statements = map (viewFactoryName (appComponent false)) [0; 1; 2]
      /\ List.length statements = 7
  | _ => False
  end.
Proof. vm_compute. repeat split; reflexivity. Qed.


End Scenario.
